(** * Aetheria blockchain core: ledger state, transactions, blocks,
      the chain with its mempool, and proof-of-stake selection.

    A shallow embedding of the Go packages [crypto], [blockchain] and
    [consensus], with the key pair of a [wallet] and the message queue of
    a [network] peer.  Go maps are [gmap]s, slices are lists, [uint64] and
    [int64] values are [Z] with their wrap-around written out, strings
    are byte strings.  A method with a pointer receiver becomes a
    function from the receiver's value to its new value and the
    method's result.

    The mutex [bc.mu] of the chain is modelled for the two methods that
    call, while they hold its write lock, a method that takes its read
    lock: [AddBlock] and [CreateBlock].  A method that takes one lock
    around its body and calls no other locking method of the same object
    is modelled by that body, run by a goroutine that is let in. *)

From Stdlib Require Import ZArith Lia Ascii String DecimalString.
From Stdlib.Strings Require Import Byte.
From stdpp Require Import base option list gmap fin_maps strings.

Local Open Scope Z_scope.

#[global] Instance byte_eq_decision : EqDecision byte := Byte.byte_eq_dec.

(** ** Go run-time values *)

Module Go.

(** [error] values.  [Wrap prefix e] is [fmt.Errorf(prefix + "%w", e)]:
    its message is [prefix] followed by the message of [e]. *)
Inductive error : Type :=
| ErrLength                          (* hex.ErrLength *)
| InvalidByteError (c : ascii)       (* hex.InvalidByteError *)
| Errorf (msg : string)              (* fmt.Errorf / errors.New, no %w *)
| Wrap (prefix : string) (e : error).

(** The outcome of a call: it returned normally (with a value or with a
    non-nil [error]), or the goroutine panicked. *)
Inductive result (A : Type) : Type :=
| Ok (a : A)
| Err (e : error)
| Panic (msg : string).
Global Arguments Ok {A} a.
Global Arguments Err {A} e.
Global Arguments Panic {A} msg.


(** *** Fixed-width integers *)

Definition uint64 (z : Z) : Z := z mod 2 ^ 64.

(** Conversion [int64(x)] of a [uint64] value: two's complement. *)
Definition int64 (z : Z) : Z :=
  let w := z mod 2 ^ 64 in if w <? 2 ^ 63 then w else w - 2 ^ 64.

Definition MaxUint64 : Z := 2 ^ 64 - 1.

(** The verb [%d]. *)
Definition fmt_d (z : Z) : string := NilZero.string_of_int (Z.to_int z).

(** [[]byte(s)] and [string(b)]. *)
Definition bytes (s : string) : list byte := list_byte_of_string s.

(** *** encoding/hex *)

Definition hexdigit (n : N) : ascii :=
  if (n <? 10)%N then ascii_of_N (48 + n) else ascii_of_N (87 + n).

Fixpoint EncodeToString (src : list byte) : string :=
  match src with
  | [] => EmptyString
  | b :: rest =>
      let n := Byte.to_N b in
      String (hexdigit (n / 16)) (String (hexdigit (n mod 16)) (EncodeToString rest))
  end.

Definition fromHexChar (c : ascii) : option N :=
  let n := N_of_ascii c in
  if ((48 <=? n) && (n <=? 57))%N then Some (n - 48)%N
  else if ((97 <=? n) && (n <=? 102))%N then Some (n - 97 + 10)%N
  else if ((65 <=? n) && (n <=? 70))%N then Some (n - 65 + 10)%N
  else None.

Definition byte_of_N (n : N) : byte := default Byte.x00 (Byte.of_N n).

(** [hex.DecodeString]: pairs of digits, upper or lower case; an invalid
    digit is reported before an odd length. *)
Fixpoint DecodeString (s : string) : result (list byte) :=
  match s with
  | EmptyString => Ok []
  | String p EmptyString =>
      match fromHexChar p with
      | None => Err (InvalidByteError p)
      | Some _ => Err ErrLength
      end
  | String p (String q rest) =>
      match fromHexChar p, fromHexChar q with
      | None, _ => Err (InvalidByteError p)
      | Some _, None => Err (InvalidByteError q)
      | Some a, Some b =>
          match DecodeString rest with
          | Ok bs => Ok (byte_of_N (a * 16 + b) :: bs)
          | other => other
          end
      end
  end.

(** [big.Int.SetBytes]: a big-endian unsigned integer. *)
Definition SetBytes (bs : list byte) : Z :=
  fold_left (fun acc b => acc * 256 + Z.of_N (Byte.to_N b)) bs 0.

(** [binary.BigEndian.PutUint64] into a fresh 8-byte slice. *)
Definition byte_of_Z (z : Z) : byte := byte_of_N (Z.to_N (z mod 256)).

Definition PutUint64 (v : Z) : list byte :=
  map (fun i => byte_of_Z (Z.shiftr v (8 * i))) [7; 6; 5; 4; 3; 2; 1; 0].

End Go.
Import Go.

(** ** The primitives of crypto/sha256 and crypto/ed25519

    The digest and the signature scheme come from the Go standard library;
    the development is parametric in them.  The only law used is the size
    of a SHA-256 digest. *)

Class Primitives : Type := {
  Sum256 : list byte -> list byte;
  Sum256_size : forall data, length (Sum256 data) = 32%nat;
  (** [ed25519.Sign priv msg], for a 64-byte [priv] *)
  ed25519_Sign : list byte -> list byte -> list byte;
  (** [ed25519.Verify pub msg sig], for a 32-byte [pub] *)
  ed25519_Verify : list byte -> list byte -> list byte -> bool
}.

Definition PublicKeySize : nat := 32.
Definition PrivateKeySize : nat := 64.
Definition SignatureSize : nat := 64.

(** ** Package crypto *)

Module crypto.
Section with_primitives.
Context `{Primitives}.

Definition Hash (data : list byte) : list byte := Sum256 data.

Definition HashString (data : list byte) : string := EncodeToString (Hash data).

(** [hex.EncodeToString(hash[:20])] *)
Definition PublicKeyToAddress (publicKey : list byte) : string :=
  EncodeToString (take 20 (Hash publicKey)).

Definition PublicKeyFromHex (hexKey : string) : result (list byte) :=
  match DecodeString hexKey with
  | Err e => Err (Wrap "invalid hex public key: " e)
  | Panic m => Panic m
  | Ok bs =>
      if decide (length bs = PublicKeySize) then Ok bs
      else Err (Errorf ("invalid public key size: " +:+ fmt_d (Z.of_nat (length bs))))
  end.

Definition PublicKeyToHex (publicKey : list byte) : string := EncodeToString publicKey.

(** [ed25519.Sign] panics on a private key that is not 64 bytes long. *)
Definition Sign (privateKey data : list byte) : result (list byte) :=
  if decide (length privateKey = PrivateKeySize) then Ok (ed25519_Sign privateKey data)
  else Panic "ed25519: bad private key length".

(** [ed25519.Verify] panics on a public key that is not 32 bytes long and
    rejects a signature that is not 64 bytes long. *)
Definition Verify (publicKey data signature : list byte) : result bool :=
  if decide (length publicKey = PublicKeySize) then
    Ok (bool_decide (length signature = SignatureSize)
        && ed25519_Verify publicKey data signature)
  else Panic "ed25519: bad public key length".

Definition SignatureToHex (signature : list byte) : string := EncodeToString signature.

Definition SignatureFromHex (hexSig : string) : result (list byte) :=
  match DecodeString hexSig with
  | Err e => Err (Wrap "invalid hex signature: " e)
  | Panic m => Panic m
  | Ok signature =>
      if decide (length signature = SignatureSize) then Ok signature
      else Err (Errorf ("invalid signature size: " +:+ fmt_d (Z.of_nat (length signature))))
  end.

(** [ed25519.PrivateKey.Public]: the last 32 bytes of the private key. *)
Definition Public (privateKey : list byte) : result (list byte) :=
  if decide (32 <= length privateKey)%nat
  then Ok (take 32 (drop 32 privateKey ++ replicate 32 Byte.x00))
  else Panic "slice bounds out of range".

Definition PrivateKeyFromHex (hexKey : string) : result (list byte) :=
  match DecodeString hexKey with
  | Err e => Err (Wrap "invalid hex private key: " e)
  | Panic m => Panic m
  | Ok bs =>
      if decide (length bs = PrivateKeySize) then Ok bs
      else Err (Errorf ("invalid private key size: " +:+ fmt_d (Z.of_nat (length bs))))
  end.

Definition PrivateKeyToHex (privateKey : list byte) : string := EncodeToString privateKey.

Definition DoubleHash (data : list byte) : list byte := Sum256 (Sum256 data).

End with_primitives.
End crypto.

(** ** Package blockchain: transactions *)

Module Transaction.

Record t : Type := mk {
  ID : string;
  From : string;
  To : string;
  Amount : Z;      (* uint64 *)
  Fee : Z;         (* uint64 *)
  Timestamp : Z;   (* int64 *)
  Signature : string;
  PublicKey : string
}.

Definition IsCoinbase (tx : t) : bool := bool_decide (From tx = EmptyString).

Section with_primitives.
Context `{Primitives}.

(** [fmt.Sprintf("%s%s%d%d%d", From, To, Amount, Fee, Timestamp)], hashed *)
Definition calculateID (tx : t) : string :=
  crypto.HashString
    (bytes (From tx +:+ To tx +:+ fmt_d (Amount tx) +:+ fmt_d (Fee tx)
            +:+ fmt_d (Timestamp tx))).

(** [now] is the reading of [time.Now().Unix()]. *)
Definition NewTransaction (now : Z) (from to : string) (amount fee : Z) : t :=
  let tx := mk EmptyString from to amount fee now EmptyString EmptyString in
  mk (calculateID tx) from to amount fee now EmptyString EmptyString.

Definition dataToSign (tx : t) : list byte :=
  bytes (ID tx +:+ From tx +:+ To tx +:+ fmt_d (Amount tx) +:+ fmt_d (Fee tx)
         +:+ fmt_d (Timestamp tx)).

(** [Sign] stores the public key and the signature in the transaction;
    the result is the transaction after the call. *)
Definition Sign (tx : t) (privateKey : list byte) : result t :=
  match crypto.Public privateKey with
  | Err e => Err e
  | Panic m => Panic m
  | Ok publicKey =>
      let tx1 := mk (ID tx) (From tx) (To tx) (Amount tx) (Fee tx) (Timestamp tx)
                    (Signature tx) (crypto.PublicKeyToHex publicKey) in
      match crypto.Sign privateKey (dataToSign tx1) with
      | Err e => Err e
      | Panic m => Panic m
      | Ok signature =>
          Ok (mk (ID tx1) (From tx1) (To tx1) (Amount tx1) (Fee tx1) (Timestamp tx1)
                 (crypto.SignatureToHex signature) (PublicKey tx1))
      end
  end.

Definition Verify (tx : t) : result unit :=
  if decide (Signature tx = EmptyString) then Err (Errorf "transaction not signed")
  else
    match crypto.PublicKeyFromHex (PublicKey tx) with
    | Err e => Err (Wrap "invalid public key: " e)
    | Panic m => Panic m
    | Ok publicKey =>
        let expectedFrom := crypto.PublicKeyToAddress publicKey in
        if decide (From tx <> expectedFrom)
        then Err (Errorf "from address does not match public key")
        else
          match crypto.SignatureFromHex (Signature tx) with
          | Err e => Err (Wrap "invalid signature: " e)
          | Panic m => Panic m
          | Ok signature =>
              match crypto.Verify publicKey (dataToSign tx) signature with
              | Ok true => Ok tt
              | Ok false => Err (Errorf "invalid signature")
              | Err e => Err e
              | Panic m => Panic m
              end
          end
    end.

End with_primitives.
End Transaction.

(** ** Package blockchain: blocks *)

Module Block.

Record t : Type := mk {
  Index : Z;                          (* uint64 *)
  Timestamp : Z;                      (* int64 *)
  Transactions : list Transaction.t;
  PrevHash : string;
  Hash : string;
  Validator : string;
  Signature : string
}.

(** The loop [for _, tx := range b.Transactions { data += tx.ID }]. *)
Definition concatIDs (txs : list Transaction.t) (data : string) : string :=
  fold_left (fun data tx => data +:+ Transaction.ID tx) txs data.

(** The loop of [TotalFees], from the running [total]. *)
Definition sumFees (txs : list Transaction.t) (total : Z) : Z :=
  fold_left
    (fun total tx =>
       if negb (Transaction.IsCoinbase tx) then uint64 (total + Transaction.Fee tx)
       else total)
    txs total.

Definition TotalFees (b : t) : Z := sumFees (Transactions b) 0.

(** [GetTransactionByID]: the first transaction of the block with that id,
    [None] for [nil]. *)
Definition GetTransactionByID (b : t) (txID : string) : option Transaction.t :=
  List.find (fun tx => bool_decide (Transaction.ID tx = txID)) (Transactions b).

Section with_primitives.
Context `{Primitives}.

Definition calculateHash (b : t) : string :=
  let data := fmt_d (Index b) +:+ fmt_d (Timestamp b) +:+ PrevHash b +:+ Validator b in
  crypto.HashString (bytes (concatIDs (Transactions b) data)).

(** [now] is the reading of [time.Now().Unix()]. *)
Definition NewBlock (now : Z) (index : Z) (transactions : list Transaction.t)
    (prevHash validator : string) : t :=
  let block := mk index now transactions prevHash EmptyString validator EmptyString in
  mk index now transactions prevHash (calculateHash block) validator EmptyString.

Definition Sign (b : t) (privateKey : list byte) : result t :=
  match crypto.Sign privateKey (bytes (Hash b)) with
  | Err e => Err e
  | Panic m => Panic m
  | Ok signature =>
      Ok (mk (Index b) (Timestamp b) (Transactions b) (PrevHash b) (Hash b)
             (Validator b) (crypto.SignatureToHex signature))
  end.

(** The loop of [Block.Verify] over the transactions of the block. *)
Fixpoint verifyTransactions (txs : list Transaction.t) : result unit :=
  match txs with
  | [] => Ok tt
  | tx :: rest =>
      if negb (Transaction.IsCoinbase tx) then
        match Transaction.Verify tx with
        | Ok _ => verifyTransactions rest
        | Err e => Err (Wrap ("invalid transaction " +:+ Transaction.ID tx +:+ ": ") e)
        | Panic m => Panic m
        end
      else verifyTransactions rest
  end.

Definition Verify (b : t) (publicKey : list byte) : result unit :=
  if decide (Hash b <> calculateHash b) then Err (Errorf "invalid block hash")
  else if decide (Signature b = EmptyString) then Err (Errorf "block not signed")
  else
    match crypto.SignatureFromHex (Signature b) with
    | Err e => Err (Wrap "invalid signature: " e)
    | Panic m => Panic m
    | Ok signature =>
        match crypto.Verify publicKey (bytes (Hash b)) signature with
        | Ok true => verifyTransactions (Transactions b)
        | Ok false => Err (Errorf "invalid block signature")
        | Err e => Err e
        | Panic m => Panic m
        end
    end.

End with_primitives.
End Block.

(** ** Package blockchain: the ledger state *)

Module State.

Record t : Type := mk {
  Balances : gmap string Z;   (* address -> balance, uint64 *)
  Stakes : gmap string Z      (* address -> staked amount, uint64 *)
}.

(** [m[k]] on a Go map: the zero value when [k] is absent. *)
Definition index (m : gmap string Z) (k : string) : Z := default 0 (m !! k).

(** [m[k] += n] and [m[k] -= n] on a [map[string]uint64]. *)
Definition add_assign (m : gmap string Z) (k : string) (n : Z) : gmap string Z :=
  <[k := uint64 (index m k + n)]> m.
Definition sub_assign (m : gmap string Z) (k : string) (n : Z) : gmap string Z :=
  <[k := uint64 (index m k - n)]> m.

Definition NewState : t := mk ∅ ∅.

Definition GetBalance (s : t) (address : string) : Z := index (Balances s) address.
Definition GetStake (s : t) (address : string) : Z := index (Stakes s) address.

Definition SetBalance (s : t) (address : string) (amount : Z) : t :=
  mk (<[address := amount]> (Balances s)) (Stakes s).

Definition AddBalance (s : t) (address : string) (amount : Z) : t :=
  mk (add_assign (Balances s) address amount) (Stakes s).

Definition SubBalance (s : t) (address : string) (amount : Z) : t * result unit :=
  if index (Balances s) address <? amount then (s, Err (Errorf "insufficient balance"))
  else (mk (sub_assign (Balances s) address amount) (Stakes s), Ok tt).

Definition AddStake (s : t) (address : string) (amount : Z) : t * result unit :=
  if index (Balances s) address <? amount
  then (s, Err (Errorf "insufficient balance to stake"))
  else (mk (sub_assign (Balances s) address amount)
           (add_assign (Stakes s) address amount), Ok tt).

Definition RemoveStake (s : t) (address : string) (amount : Z) : t * result unit :=
  if index (Stakes s) address <? amount then (s, Err (Errorf "insufficient stake"))
  else (mk (add_assign (Balances s) address amount)
           (sub_assign (Stakes s) address amount), Ok tt).

Definition ApplyTransaction (s : t) (tx : Transaction.t) : t * result unit :=
  if Transaction.IsCoinbase tx then
    (mk (add_assign (Balances s) (Transaction.To tx) (Transaction.Amount tx)) (Stakes s),
     Ok tt)
  else
    let totalRequired := uint64 (Transaction.Amount tx + Transaction.Fee tx) in
    if index (Balances s) (Transaction.From tx) <? totalRequired then
      (s, Err (Errorf ("insufficient balance: has "
                       +:+ fmt_d (index (Balances s) (Transaction.From tx))
                       +:+ ", needs " +:+ fmt_d totalRequired)))
    else
      let balances := sub_assign (Balances s) (Transaction.From tx) totalRequired in
      (mk (add_assign balances (Transaction.To tx) (Transaction.Amount tx)) (Stakes s),
       Ok tt).

(** The loop of [ApplyBlock]: the receiver is updated in place, so on a
    failure it keeps the effect of the transactions before the failing
    one. *)
Fixpoint applyTransactions (s : t) (txs : list Transaction.t) : t * result unit :=
  match txs with
  | [] => (s, Ok tt)
  | tx :: rest =>
      match ApplyTransaction s tx with
      | (s', Ok _) => applyTransactions s' rest
      | (s', Err e) =>
          (s', Err (Wrap ("failed to apply transaction " +:+ Transaction.ID tx +:+ ": ") e))
      | (s', Panic m) => (s', Panic m)
      end
  end.

Definition ApplyBlock (s : t) (block : Block.t) : t * result unit :=
  match applyTransactions s (Block.Transactions block) with
  | (s', Ok _) =>
      let fees := Block.TotalFees block in
      if 0 <? fees then (AddBalance s' (Block.Validator block) fees, Ok tt)
      else (s', Ok tt)
  | failed => failed
  end.

(** The copy loop of [Clone] over the entries of a map, in the order
    [entries] in which [range] yields them. *)
Definition copyEntries (entries : list (string * Z)) : gmap string Z :=
  fold_left (fun new kv => <[kv.1 := kv.2]> new) entries ∅.

Definition Clone (s : t) : t :=
  mk (copyEntries (map_to_list (Balances s))) (copyEntries (map_to_list (Stakes s))).

(** The loop of [TotalStaked] over the entries of [s.Stakes], in the order
    [entries] in which [range] yields them. *)
Definition sumEntries (entries : list (string * Z)) : Z :=
  fold_left (fun total kv => uint64 (total + kv.2)) entries 0.

Definition TotalStaked (s : t) : Z := sumEntries (map_to_list (Stakes s)).

(** The loop of [GetValidators]: the addresses with a positive stake, in
    the order of [entries]. *)
Definition positiveStakes (entries : list (string * Z)) : list string :=
  (List.filter (fun kv => 0 <? kv.2) entries).*1.

(** [GetValidators s validators]: a call can return [validators]; the
    order is that of [range] over the map. *)
Definition GetValidators (s : t) (validators : list string) : Prop :=
  exists entries,
    entries ≡ₚ map_to_list (Stakes s) /\ validators = positiveStakes entries.

End State.

(** ** Package sync

    A [sync.RWMutex] by what is held on it: the write lock, or a number of
    read locks.  [Lock] and [RLock] give [None] where the caller has to
    wait until a holder releases.  The mutex is not reentrant: a goroutine
    that asks for a lock which its own write lock excludes waits for
    itself, that is for ever. *)

Module sync.

Record RWMutex : Type := mkRWMutex { writer : bool; readers : nat }.

Definition unlocked : RWMutex := mkRWMutex false 0.

Definition Lock (mu : RWMutex) : option RWMutex :=
  if writer mu || negb (readers mu =? 0)%nat then None else Some (mkRWMutex true 0).

Definition Unlock (mu : RWMutex) : RWMutex := mkRWMutex false (readers mu).

Definition RLock (mu : RWMutex) : option RWMutex :=
  if writer mu then None else Some (mkRWMutex false (S (readers mu))).

Definition RUnlock (mu : RWMutex) : RWMutex := mkRWMutex (writer mu) (Nat.pred (readers mu)).

(** The course of a method on an object with a mutex.  [Returns a mu]: the
    method returns [a] and leaves the mutex as [mu].  [Blocks mu]: the
    method has stopped at a [Lock] or [RLock] that the mutex, held as [mu],
    does not grant. *)
Inductive call (A : Type) : Type :=
| Returns (a : A) (mu : RWMutex)
| Blocks (mu : RWMutex).
Global Arguments Returns {A} a mu.
Global Arguments Blocks {A} mu.

End sync.

(** ** Package blockchain: the chain and its mempool *)

Definition BlockReward : Z := 50.
Definition MinStakeAmount : Z := 1000.

Module Blockchain.

Record t : Type := mk {
  Blocks : list Block.t;
  PendingTxs : list Transaction.t;
  State : State.t;
  GenesisAddress : string;
  txPool : gmap string Transaction.t
}.

Definition GetLatestBlock (bc : t) : option Block.t := last (Blocks bc).

Definition Height (bc : t) : Z := uint64 (Z.of_nat (length (Blocks bc))).

(** The loop [for _, tx := range block.Transactions { delete(bc.txPool, tx.ID) }]. *)
Definition removeFromPool (txs : list Transaction.t) (pool : gmap string Transaction.t)
    : gmap string Transaction.t :=
  fold_left (fun pool tx => delete (Transaction.ID tx) pool) txs pool.

Definition GetBlock (bc : t) (index : Z) : option Block.t :=
  if uint64 (Z.of_nat (length (Blocks bc))) <=? index then None
  else Blocks bc !! Z.to_nat index.

Definition GetBlockByHash (bc : t) (hash : string) : option Block.t :=
  List.find (fun block => bool_decide (Block.Hash block = hash)) (Blocks bc).

(** The loop of [GetTransaction] over the blocks. *)
Fixpoint findInBlocks (blocks : list Block.t) (txID : string) : option Transaction.t :=
  match blocks with
  | [] => None
  | block :: rest =>
      match Block.GetTransactionByID block txID with
      | Some tx => Some tx
      | None => findInBlocks rest txID
      end
  end.

Definition GetTransaction (bc : t) (txID : string) : option Transaction.t :=
  match findInBlocks (Blocks bc) txID with
  | Some tx => Some tx
  | None => txPool bc !! txID
  end.

Section with_primitives.
Context `{Primitives}.

Definition createGenesisBlock (address : string) (initialSupply : Z) : Block.t :=
  let coinbase0 :=
    Transaction.mk EmptyString EmptyString address initialSupply 0 0
                   EmptyString EmptyString in
  let coinbase :=
    Transaction.mk (Transaction.calculateID coinbase0) EmptyString address initialSupply
                   0 0 EmptyString EmptyString in
  let genesis0 := Block.mk 0 0 [coinbase] "0" EmptyString "genesis" EmptyString in
  Block.mk 0 0 [coinbase] "0" (Block.calculateHash genesis0) "genesis" "genesis".

(** The error of [bc.State.ApplyBlock(genesis)] is dropped, as in the source. *)
Definition NewBlockchain (genesisAddress : string) (initialSupply : Z) : t :=
  let genesis := createGenesisBlock genesisAddress initialSupply in
  mk ([] ++ [genesis]) [] (State.ApplyBlock State.NewState genesis).1
     genesisAddress ∅.

(** The loop of [validateBlock] over the transactions of the block. *)
Fixpoint verifyTransactions (txs : list Transaction.t) : result unit :=
  match txs with
  | [] => Ok tt
  | tx :: rest =>
      if negb (Transaction.IsCoinbase tx) then
        match Transaction.Verify tx with
        | Ok _ => verifyTransactions rest
        | Err e => Err (Wrap ("invalid transaction " +:+ Transaction.ID tx +:+ ": ") e)
        | Panic m => Panic m
        end
      else verifyTransactions rest
  end.

Definition validateBlock (bc : t) (block : Block.t) : result unit :=
  match GetLatestBlock bc with
  | None => Panic "invalid memory address or nil pointer dereference"
  | Some latest =>
      if decide (Block.Index block <> uint64 (Block.Index latest + 1)) then
        Err (Errorf ("invalid block index: expected "
                     +:+ fmt_d (uint64 (Block.Index latest + 1))
                     +:+ ", got " +:+ fmt_d (Block.Index block)))
      else if decide (Block.PrevHash block <> Block.Hash latest) then
        Err (Errorf "invalid previous hash")
      else if decide (Block.Hash block <> Block.calculateHash block) then
        Err (Errorf "invalid block hash")
      else verifyTransactions (Block.Transactions block)
  end.

(** [GetLatestBlock] with its [RLock] and deferred [RUnlock]. *)
Definition GetLatestBlock_mu (mu : sync.RWMutex) (bc : t) : sync.call (option Block.t) :=
  match sync.RLock mu with
  | None => sync.Blocks mu
  | Some mu1 => sync.Returns (GetLatestBlock bc) (sync.RUnlock mu1)
  end.

(** [validateBlock] takes no lock itself; its first statement is the call
    of [GetLatestBlock], whose result is the one [validateBlock] above
    reads. *)
Definition validateBlock_mu (mu : sync.RWMutex) (bc : t) (block : Block.t)
    : sync.call (result unit) :=
  match GetLatestBlock_mu mu bc with
  | sync.Blocks mu1 => sync.Blocks mu1
  | sync.Returns _ mu1 => sync.Returns (validateBlock bc block) mu1
  end.

(** The statements of [AddBlock] that follow the call of [validateBlock],
    [valid] being what that call returned.  [Clone] returns a new [State]
    with maps of its own, so the receiver of [ApplyBlock] is not the object
    behind [bc.State]: what the loop does to it is the value [tempState'],
    which reaches the chain only in the last branch. *)
Definition appendBlock (bc : t) (block : Block.t) (valid : result unit) : t * result unit :=
  match valid with
  | Err e => (bc, Err (Wrap "invalid block: " e))
  | Panic m => (bc, Panic m)
  | Ok _ =>
      let tempState := State.Clone (State bc) in
      match State.ApplyBlock tempState block with
      | (_, Err e) => (bc, Err (Wrap "failed to apply block: " e))
      | (_, Panic m) => (bc, Panic m)
      | (tempState', Ok _) =>
          (mk (Blocks bc ++ [block])
              []
              tempState'
              (GenesisAddress bc)
              (removeFromPool (Block.Transactions block) (txPool bc)),
           Ok tt)
      end
  end.

(** [AddBlock]: [bc.mu.Lock()], the deferred [Unlock], then [validateBlock]
    on the same mutex. *)
Definition AddBlock (mu : sync.RWMutex) (bc : t) (block : Block.t)
    : sync.call (t * result unit) :=
  match sync.Lock mu with
  | None => sync.Blocks mu
  | Some mu1 =>
      match validateBlock_mu mu1 bc block with
      | sync.Blocks mu2 => sync.Blocks mu2
      | sync.Returns valid mu2 =>
          sync.Returns (appendBlock bc block valid) (sync.Unlock mu2)
      end
  end.

Definition AddTransaction (bc : t) (tx : Transaction.t) : t * result unit :=
  match Transaction.Verify tx with
  | Err e => (bc, Err (Wrap "invalid transaction: " e))
  | Panic m => (bc, Panic m)
  | Ok _ =>
      if decide (is_Some (txPool bc !! Transaction.ID tx)) then
        (bc, Err (Errorf "transaction already exists"))
      else
        let balance := State.GetBalance (State bc) (Transaction.From tx) in
        let totalRequired := uint64 (Transaction.Amount tx + Transaction.Fee tx) in
        if balance <? totalRequired then
          (bc, Err (Errorf ("insufficient balance: has " +:+ fmt_d balance
                            +:+ ", needs " +:+ fmt_d totalRequired)))
        else
          (mk (Blocks bc) (PendingTxs bc ++ [tx]) (State bc) (GenesisAddress bc)
              (<[Transaction.ID tx := tx]> (txPool bc)),
           Ok tt)
  end.

(** [AddTransaction] with its [Lock] and deferred [Unlock]; its body calls
    no method of the chain. *)
Definition AddTransaction_mu (mu : sync.RWMutex) (bc : t) (tx : Transaction.t)
    : sync.call (t * result unit) :=
  match sync.Lock mu with
  | None => sync.Blocks mu
  | Some mu1 => sync.Returns (AddTransaction bc tx) (sync.Unlock mu1)
  end.

(** The statements of [CreateBlock] that follow the call of
    [GetLatestBlock], [latest] being what that call returned; [now] is the
    reading of [time.Now().Unix()] inside [NewBlock]. *)
Definition assembleBlock (now : Z) (bc : t) (validator : string)
    (latest : option Block.t) : result Block.t :=
  match latest with
  | None => Panic "invalid memory address or nil pointer dereference"
  | Some latest =>
      let coinbase0 :=
        Transaction.mk EmptyString EmptyString validator BlockReward 0 0
                       EmptyString EmptyString in
      let coinbase :=
        Transaction.mk (Transaction.calculateID coinbase0) EmptyString validator
                       BlockReward 0 0 EmptyString EmptyString in
      let transactions := [coinbase] ++ PendingTxs bc in
      Ok (Block.NewBlock now (uint64 (Block.Index latest + 1)) transactions
                         (Block.Hash latest) validator)
  end.

(** [CreateBlock]: [bc.mu.Lock()], the deferred [Unlock], then
    [GetLatestBlock] on the same mutex. *)
Definition CreateBlock (now : Z) (mu : sync.RWMutex) (bc : t) (validator : string)
    : sync.call (result Block.t) :=
  match sync.Lock mu with
  | None => sync.Blocks mu
  | Some mu1 =>
      match GetLatestBlock_mu mu1 bc with
      | sync.Blocks mu2 => sync.Blocks mu2
      | sync.Returns latest mu2 =>
          sync.Returns (assembleBlock now bc validator latest) (sync.Unlock mu2)
      end
  end.

(** The loop of [IsValid] from position [i], with [prevBlock] the block at
    [i - 1] and [rest] the blocks from [i] on. *)
Fixpoint isValidFrom (prevBlock : Block.t) (rest : list Block.t) : bool :=
  match rest with
  | [] => true
  | currentBlock :: rest' =>
      if decide (Block.Hash currentBlock <> Block.calculateHash currentBlock) then false
      else if decide (Block.PrevHash currentBlock <> Block.Hash prevBlock) then false
      else if decide (Block.Index currentBlock <> uint64 (Block.Index prevBlock + 1))
      then false
      else isValidFrom currentBlock rest'
  end.

Definition IsValid (bc : t) : bool :=
  match Blocks bc with
  | [] => true
  | first :: rest => isValidFrom first rest
  end.

End with_primitives.
End Blockchain.

(** ** Package consensus *)

Module Validator.

Record t : Type := mk {
  Address : string;
  PublicKey : list byte;
  PrivateKey : list byte;
  Stake : Z                 (* uint64 *)
}.

Definition CanValidate (v : t) (minStake : Z) : bool := minStake <=? Stake v.

End Validator.

Module ValidatorSet.

Record t : Type := mk { Validators : gmap string Validator.t }.

Definition NewValidatorSet : t := mk ∅.

Definition AddValidator (vs : t) (validator : Validator.t) : t * result unit :=
  if decide (is_Some (Validators vs !! Validator.Address validator))
  then (vs, Err (Errorf "validator already exists"))
  else (mk (<[Validator.Address validator := validator]> (Validators vs)), Ok tt).

Definition UpdateStake (vs : t) (address : string) (stake : Z) : t * result unit :=
  match Validators vs !! address with
  | None => (vs, Err (Errorf "validator not found"))
  | Some validator =>
      (mk (<[address := Validator.mk (Validator.Address validator)
                          (Validator.PublicKey validator)
                          (Validator.PrivateKey validator) stake]> (Validators vs)),
       Ok tt)
  end.

Definition RemoveValidator (vs : t) (address : string) : t * result unit :=
  if decide (is_Some (Validators vs !! address))
  then (mk (delete address (Validators vs)), Ok tt)
  else (vs, Err (Errorf "validator not found")).

Definition GetValidator (vs : t) (address : string) : result Validator.t :=
  match Validators vs !! address with
  | Some validator => Ok validator
  | None => Err (Errorf "validator not found")
  end.

(** The loop of [TotalStake] over the validators in the order [validators]
    in which [range] yields them. *)
Definition sumStakes (validators : list Validator.t) : Z :=
  fold_left (fun total validator => uint64 (total + Validator.Stake validator))
            validators 0.

Definition TotalStake (vs : t) : Z := sumStakes (map_to_list (Validators vs)).*2.

Definition Size (vs : t) : Z := Z.of_nat (size (Validators vs)).

(** [GetValidators] appends the values of the map in the order in which
    [range] yields them.  Go leaves that order unspecified (and varies it
    from one loop to the next), so the method is a relation: any
    enumeration of the entries is a possible result. *)
Definition GetValidators (vs : t) (validators : list Validator.t) : Prop :=
  validators ≡ₚ (map_to_list (Validators vs)).*2.

End ValidatorSet.

(** Package time.  A [time.Time] without its monotonic reading and its
    location: the seconds since January 1 of year 1, an [int64], and the
    nanoseconds within that second.  A [time.Duration] is an [int64] of
    nanoseconds. *)
Module time.

Definition Second : Z := 1000000000.

Record Time : Type := mkTime { sec : Z; nsec : Z }.

(** The seconds from January 1 of year 1 to January 1, 1970. *)
Definition unixToInternal : Z := 62135596800.

(** [time.Unix(sec, nsec)]: [nsec] is brought into the range of a second,
    and the seconds are moved to the internal epoch in [int64] arithmetic. *)
Definition Unix (sec nsec : Z) : Time :=
  let '(sec, nsec) :=
    if (nsec <? 0) || (1000000000 <=? nsec) then
      let n := Z.quot nsec 1000000000 in
      let sec := int64 (sec + n) in
      let nsec := nsec - n * 1000000000 in
      if nsec <? 0 then (int64 (sec - 1), nsec + 1000000000) else (sec, nsec)
    else (sec, nsec) in
  mkTime (int64 (sec + unixToInternal)) nsec.

(** [t.addSec(d)]: the sum of the seconds, held at the largest or the
    smallest value when it leaves the range of [int64]. *)
Definition addSec (t : Time) (d : Z) : Time :=
  let sum := int64 (sec t + d) in
  if Bool.eqb (sec t <? sum) (0 <? d) then mkTime sum (nsec t)
  else if 0 <? d then mkTime (2 ^ 63 - 1) (nsec t)
  else mkTime (- (2 ^ 63 - 1)) (nsec t).

(** [t.Add(d)]; the division and the remainder are Go's, which round
    toward zero. *)
Definition Add (t : Time) (d : Z) : Time :=
  let dsec := Z.quot d 1000000000 in
  let nsec := nsec t + Z.rem d 1000000000 in
  if 1000000000 <=? nsec then addSec (mkTime (sec t) (nsec - 1000000000)) (dsec + 1)
  else if nsec <? 0 then addSec (mkTime (sec t) (nsec + 1000000000)) (dsec - 1)
  else addSec (mkTime (sec t) nsec) dsec.

(** [t.After(u)], for times of which one at least has no monotonic
    reading: the result of [time.Unix] has none. *)
Definition After (t u : Time) : bool :=
  (sec u <? sec t) || ((sec t =? sec u) && (nsec u <? nsec t)).

End time.

Module PoS.

Record t : Type := mk {
  ValidatorSet : ValidatorSet.t;
  MinStake : Z;        (* uint64 *)
  BlockTime : Z        (* time.Duration *)
}.

Definition NewPoS (minStake blockTime : Z) : t :=
  mk ValidatorSet.NewValidatorSet minStake blockTime.

(** [big.Int.Mod]: the Euclidean modulus, a run-time panic on a zero
    modulus. *)
Definition big_Mod (x y : Z) : result Z :=
  if decide (y = 0) then Panic "division by zero" else Ok (x mod Z.abs y).

(** The filter loop of [SelectValidator]. *)
Definition eligible (pos : t) (validators : list Validator.t) : list Validator.t :=
  List.filter (fun v => Validator.CanValidate v (MinStake pos)) validators.

(** The loop [for _, v := range eligibleValidators { totalStake += v.Stake }]. *)
Definition sumStake (vs : list Validator.t) : Z :=
  fold_left (fun totalStake v => uint64 (totalStake + Validator.Stake v)) vs 0.

(** The selection loop, from the running [cumulative]; [None] when the
    loop ends without returning. *)
Fixpoint pick (target cumulative : Z) (vs : list Validator.t) : option Validator.t :=
  match vs with
  | [] => None
  | v :: rest =>
      let cumulative := uint64 (cumulative + Validator.Stake v) in
      if target <? int64 cumulative then Some v else pick target cumulative rest
  end.

Definition RegisterValidator (pos : t) (validator : Validator.t) : t * result unit :=
  if Validator.Stake validator <? MinStake pos then
    (pos, Err (Errorf ("stake " +:+ fmt_d (Validator.Stake validator)
                       +:+ " is below minimum " +:+ fmt_d (MinStake pos))))
  else
    let '(vs, r) := ValidatorSet.AddValidator (ValidatorSet pos) validator in
    (mk vs (MinStake pos) (BlockTime pos), r).

Definition UnregisterValidator (pos : t) (address : string) : t * result unit :=
  let '(vs, r) := ValidatorSet.RemoveValidator (ValidatorSet pos) address in
  (mk vs (MinStake pos) (BlockTime pos), r).

Definition UpdateValidatorStake (pos : t) (address : string) (stake : Z)
    : t * result unit :=
  let '(vs, r) := ValidatorSet.UpdateStake (ValidatorSet pos) address stake in
  (mk vs (MinStake pos) (BlockTime pos), r).

Definition GetNextBlockTime (pos : t) (lastBlockTime : Z) : time.Time :=
  time.Add (time.Unix lastBlockTime 0) (BlockTime pos).

(** [now] is the reading of [time.Now()]. *)
Definition ShouldCreateBlock (now : time.Time) (pos : t) (lastBlockTime : Z) : bool :=
  let nextBlockTime := GetNextBlockTime pos lastBlockTime in
  time.After now nextBlockTime.

Section with_primitives.
Context `{Primitives}.

Definition generateSeed (prevBlockHash : string) (timestamp : Z) : Z :=
  let data := bytes prevBlockHash ++ PutUint64 (uint64 timestamp) in
  SetBytes (Sum256 data).

(** The body of [SelectValidator] after [GetValidators] has returned the
    slice [validators]. *)
Definition selectFrom (pos : t) (validators : list Validator.t)
    (prevBlockHash : string) (timestamp : Z) : result Validator.t :=
  match validators with
  | [] => Err (Errorf "no validators available")
  | _ =>
      let eligibleValidators := eligible pos validators in
      match eligibleValidators with
      | [] => Err (Errorf "no eligible validators")
      | first :: _ =>
          let totalStake := sumStake eligibleValidators in
          let seed := generateSeed prevBlockHash timestamp in
          match big_Mod seed (int64 totalStake) with
          | Ok target =>
              match pick target 0 eligibleValidators with
              | Some v => Ok v
              | None => Ok (List.last eligibleValidators first)
              end
          | Err e => Err e
          | Panic m => Panic m
          end
      end
  end.

(** [SelectValidator pos h t r]: a call can end with [r]. *)
Definition SelectValidator (pos : t) (prevBlockHash : string) (timestamp : Z)
    (r : result Validator.t) : Prop :=
  exists validators,
    ValidatorSet.GetValidators (ValidatorSet pos) validators /\
    selectFrom pos validators prevBlockHash timestamp = r.

(** [ValidateBlock]; [now] is the reading of [time.Now().Unix()] and
    [blockTimeSeconds] the value of [int64(pos.BlockTime.Seconds())], a
    conversion through [float64] that is left to the caller of the model. *)
Definition ValidateBlock (now blockTimeSeconds : Z) (pos : t) (block : Block.t)
    (prevBlock : option Block.t) : result unit :=
  match ValidatorSet.GetValidator (ValidatorSet pos) (Block.Validator block) with
  | Err e => Err (Wrap "validator not found: " e)
  | Panic m => Panic m
  | Ok validator =>
      if negb (Validator.CanValidate validator (MinStake pos))
      then Err (Errorf "validator does not have minimum stake")
      else
        match Block.Verify block (Validator.PublicKey validator) with
        | Err e => Err (Wrap "invalid block signature: " e)
        | Panic m => Panic m
        | Ok _ =>
            if int64 (now + blockTimeSeconds) <? Block.Timestamp block
            then Err (Errorf "block timestamp too far in the future")
            else
              match prevBlock with
              | Some prev =>
                  if Block.Timestamp block <=? Block.Timestamp prev
                  then Err (Errorf "block timestamp must be after previous block")
                  else Ok tt
              | None => Ok tt
              end
        end
  end.

End with_primitives.
End PoS.

(** ** Package wallet *)

Module KeyPair.

Record t : Type := mk {
  PrivateKey : list byte;
  PublicKey : list byte
}.

End KeyPair.

Module Wallet.

Record t : Type := mk {
  Address : string;
  PublicKey : string;
  PrivateKey : string
}.

Section with_primitives.
Context `{Primitives}.

(** [NewWallet] once [crypto.GenerateKeyPair] has returned [keyPair]. *)
Definition fromKeyPair (keyPair : KeyPair.t) : t :=
  mk (crypto.PublicKeyToAddress (KeyPair.PublicKey keyPair))
     (crypto.PublicKeyToHex (KeyPair.PublicKey keyPair))
     (crypto.PrivateKeyToHex (KeyPair.PrivateKey keyPair)).

Definition GetKeyPair (w : t) : result KeyPair.t :=
  match crypto.PublicKeyFromHex (PublicKey w) with
  | Err e => Err (Wrap "invalid public key: " e)
  | Panic m => Panic m
  | Ok publicKey =>
      match crypto.PrivateKeyFromHex (PrivateKey w) with
      | Err e => Err (Wrap "invalid private key: " e)
      | Panic m => Panic m
      | Ok privateKey => Ok (KeyPair.mk privateKey publicKey)
      end
  end.

End with_primitives.
End Wallet.

(** ** Package network: the outbound queue of a peer *)

Module Peer.

(** A message, its payload left as the bytes that [json.Marshal] gave. *)
Record Message : Type := mkMessage {
  Type_ : string;
  Data : list byte;
  From : string;
  Timestamp : Z
}.

(** [messageChan] is a channel of capacity 100: the messages it buffers,
    oldest first. *)
Record t : Type := mk {
  ID : string;
  Address : string;
  Connected : bool;
  messageChan : list Message
}.

Definition capacity : nat := 100.

Definition NewPeer (id address : string) : t := mk id address false [].

Definition Connect (p : t) : t := mk (ID p) (Address p) true (messageChan p).

Definition Disconnect (p : t) : t := mk (ID p) (Address p) false (messageChan p).

(** [select { case p.messageChan <- msg: default: }]: the send is taken
    when the buffer has room, the default otherwise. *)
Definition SendMessage (p : t) (msg : Message) : t :=
  if negb (Connected p) then p
  else if decide (length (messageChan p) < capacity)%nat
       then mk (ID p) (Address p) (Connected p) (messageChan p ++ [msg])
       else p.

Definition IsConnected (p : t) : bool := Connected p.

End Peer.

(** ** A small instance of the primitives

    Used to run the definitions on concrete inputs.  The digest pads or
    cuts its input to 32 bytes; a signature is the public half of the key
    followed by the digest of the message. *)

Module Toy.

Definition pad (n : nat) (bs : list byte) : list byte :=
  take n (bs ++ replicate n Byte.x00).

Definition sum256 (data : list byte) : list byte := pad 32 data.

Definition sign (priv msg : list byte) : list byte :=
  pad 64 (drop 32 priv ++ sum256 msg).

Definition verify (pub msg sig : list byte) : bool :=
  bool_decide (sig = pad 64 (pub ++ sum256 msg)).

Lemma pad_length n bs : length (pad n bs) = n.
Proof.
  unfold pad. rewrite length_take, length_app, length_replicate. lia.
Qed.

Definition primitives : Primitives :=
  Build_Primitives sum256 (pad_length 32) sign verify.

(** A private key: 32 bytes of seed, then the 32 bytes of the public key. *)
Definition alice_key : list byte := replicate 32 Byte.x01 ++ replicate 32 Byte.x0a.
Definition alice_pub : list byte := replicate 32 Byte.x0a.

End Toy.

(** * Reference definitions and concrete inputs *)

(** The fold of [ApplyTransaction] over a sequence of transactions, in
    their order, from the state [s]. *)
Definition foldTransactions (s : State.t) (txs : list Transaction.t) : State.t :=
  fold_left (fun s tx => (State.ApplyTransaction s tx).1) txs s.

(** [applied s txs s']: from [s], every transaction of [txs] is applied in
    turn without error, and the state reached is [s']. *)
Inductive applied : State.t -> list Transaction.t -> State.t -> Prop :=
| applied_nil (s : State.t) : applied s [] s
| applied_cons (s s1 s2 : State.t) (tx : Transaction.t) (txs : list Transaction.t) :
    State.ApplyTransaction s tx = (s1, Ok tt) ->
    applied s1 txs s2 ->
    applied s (tx :: txs) s2.

(** The sum of a map of amounts, as an unbounded integer, and the total
    of the tokens that a state holds as balances and as stakes. *)
Definition sumAmounts (m : gmap string Z) : Z :=
  map_fold (fun _ amount total => amount + total) 0 m.

Definition totalSupply (s : State.t) : Z :=
  sumAmounts (State.Balances s) + sumAmounts (State.Stakes s).


(** ** Concrete inputs

    Chains, blocks and transactions on which the definitions are run. *)

Module Example.
Section run.
Local Existing Instance Toy.primitives.

Definition alice : string := crypto.PublicKeyToAddress Toy.alice_pub.

(** The genesis chain: a million tokens for [alice]. *)
Definition bc0 : Blockchain.t := Blockchain.NewBlockchain alice 1000000.

Definition signed (tx : Transaction.t) (privateKey : list byte) : Transaction.t :=
  match Transaction.Sign tx privateKey with Ok tx' => tx' | _ => tx end.

(** [alice] sends 100 to bob, fee 1. *)
Definition transfer : Transaction.t :=
  signed (Transaction.NewTransaction 7 alice "bob" 100 1) Toy.alice_key.

(** The chain with [transfer] in the mempool. *)
Definition bc1 : Blockchain.t := (Blockchain.AddTransaction bc0 transfer).1.

(** A block that passes validation and fails while it is applied: its
    coinbase is credited on the clone, then the transfer overdraws. *)
Definition overdraw : Transaction.t :=
  signed (Transaction.NewTransaction 7 alice "bob" 2000000 1) Toy.alice_key.

Definition reward_carol : Transaction.t :=
  Transaction.mk "reward" EmptyString "carol" BlockReward 0 0 EmptyString EmptyString.

Definition overdraw_block : Block.t :=
  Block.NewBlock 10 1 [reward_carol; overdraw]
    (Block.Hash (Blockchain.createGenesisBlock alice 1000000)) "carol".

(** A transfer whose id is chosen by the submitter, then signed. *)
Definition forged : Transaction.t :=
  Transaction.mk "deadbeef" alice "bob" 100 1 7 EmptyString EmptyString.

(** A state where [alice] holds 101 tokens, and a block of [carol] with
    one transfer of 100 tokens from [alice], fee 1.  [ApplyBlock] does not
    look at signatures. *)
Definition state101 : State.t := State.SetBalance State.NewState "alice" 101.

Definition pay100 : Transaction.t :=
  Transaction.mk "pay100" "alice" "bob" 100 1 7 EmptyString EmptyString.

Definition pay100_again : Transaction.t :=
  Transaction.mk "again" "alice" "bob" 100 1 8 EmptyString EmptyString.

Definition block_pay100 : Block.t :=
  Block.mk 1 10 [pay100] "00" "11" "carol" EmptyString.

Definition block_pay100_twice : Block.t :=
  Block.mk 1 10 [pay100; pay100_again] "00" "11" "carol" EmptyString.

End run.
End Example.

Module ExampleConsensus.

Definition blockTime : Z := 5 * time.Second.

(** Two validators with the same stake, registered one after the other. *)
Definition va : Validator.t := Validator.mk "a" [] [] 1000.
Definition vb : Validator.t := Validator.mk "b" [] [] 1000.

Definition pos_ab : PoS.t :=
  (PoS.RegisterValidator (PoS.RegisterValidator (PoS.NewPoS 1000 blockTime) va).1 vb).1.

(** An engine configured with a minimum stake of zero, and one validator
    without stake. *)
Definition v0 : Validator.t := Validator.mk "a" [] [] 0.

Definition pos_zero : PoS.t := (PoS.RegisterValidator (PoS.NewPoS 0 blockTime) v0).1.

(** The engine of the node: minimum stake 1000, a block every 5 seconds. *)
Definition pos : PoS.t := PoS.NewPoS 1000 blockTime.

End ExampleConsensus.

Module ExampleOverflow.
Section run.
Local Existing Instance Toy.primitives.

(** A second key pair; its address holds nothing in the genesis chain. *)
Definition mallory_key : list byte := replicate 32 Byte.x02 ++ replicate 32 Byte.x0b.
Definition mallory_pub : list byte := replicate 32 Byte.x0b.
Definition mallory : string := crypto.PublicKeyToAddress mallory_pub.

(** Amount [2^64 - 1] and fee 1: the required total wraps to 0. *)
Definition mint : Transaction.t :=
  Example.signed (Transaction.NewTransaction 7 mallory "bob" MaxUint64 1) mallory_key.

End run.
End ExampleOverflow.

(** [b] with the signature field set, as [Block.Sign] leaves it. *)
Definition withSignature (b : Block.t) (signature : string) : Block.t :=
  Block.mk (Block.Index b) (Block.Timestamp b) (Block.Transactions b) (Block.PrevHash b)
           (Block.Hash b) (Block.Validator b) signature.

(** [tx] under another id. *)
Definition withID (tx : Transaction.t) (id : string) : Transaction.t :=
  Transaction.mk id (Transaction.From tx) (Transaction.To tx) (Transaction.Amount tx)
    (Transaction.Fee tx) (Transaction.Timestamp tx) (Transaction.Signature tx)
    (Transaction.PublicKey tx).

(** The instant of a [time.Time], in nanoseconds since January 1 of year 1. *)
Definition nanoseconds (t : time.Time) : Z := time.sec t * 1000000000 + time.nsec t.

(** ** Reference definitions for the further properties *)

(** A lower-case hexadecimal digit. *)
Definition isLowerHex (c : ascii) : bool :=
  let n := N_of_ascii c in
  (((48 <=? n) && (n <=? 57)) || ((97 <=? n) && (n <=? 102)))%N.

(** Two states that answer every [GetBalance] and [GetStake] alike. *)
Definition sameAccounts (s s' : State.t) : Prop :=
  forall address,
    State.GetBalance s' address = State.GetBalance s address /\
    State.GetStake s' address = State.GetStake s address.

(** A map of [uint64] amounts. *)
Definition amountsInRange (m : gmap string Z) : Prop :=
  map_Forall (fun _ amount => 0 <= amount < 2 ^ 64) m.

Module ExampleStake.

(** [alice] holds 5000 and has staked 1000. *)
Definition s0 : State.t := State.mk {["alice" := 5000]} {["alice" := 1000]}.

(** [bob] holds 70 and has never staked. *)
Definition s1 : State.t := State.mk {["alice" := 5000; "bob" := 70]} {["alice" := 1000]}.

Definition keyPair : KeyPair.t := KeyPair.mk Toy.alice_key Toy.alice_pub.

End ExampleStake.

(** The amounts that the coinbase transactions of [txs] create, and the fees
    that its other transactions pay, as unbounded integers. *)
Definition minted (txs : list Transaction.t) : Z :=
  foldr (fun tx total =>
           (if Transaction.IsCoinbase tx then Transaction.Amount tx else 0) + total)
        0 txs.

Definition feesPaid (txs : list Transaction.t) : Z :=
  foldr (fun tx total =>
           (if Transaction.IsCoinbase tx then 0 else Transaction.Fee tx) + total)
        0 txs.

(** The amount and the fee of a transaction are [uint64] values whose sum
    does not overflow. *)
Definition amountsFit (tx : Transaction.t) : Prop :=
  0 <= Transaction.Amount tx /\ 0 <= Transaction.Fee tx /\
  Transaction.Amount tx + Transaction.Fee tx < 2 ^ 64.

Module ExampleSupply.

(** [carol]'s block: her reward of 50, then the transfer of 100 with fee 1
    from [alice]. *)
Definition block : Block.t :=
  Block.mk 1 10 [Example.reward_carol; Example.pay100] "00" "11" "carol" EmptyString.

End ExampleSupply.

(** ** Chains that the operations can build *)

Section chains.
Context `{Primitives}.

(** A chain made by [NewBlockchain] and changed by [AddTransaction] and by
    the statements of [AddBlock], whatever their outcome; the state, which
    is an exported field, can be changed by its own methods in between.
    These are the chains that calls which return can build, and those that
    [AddBlock] would build if its statements were reached. *)
Inductive reachable : Blockchain.t -> Prop :=
| reachable_NewBlockchain (genesisAddress : string) (initialSupply : Z) :
    reachable (Blockchain.NewBlockchain genesisAddress initialSupply)
| reachable_AddTransaction (bc : Blockchain.t) (tx : Transaction.t) :
    reachable bc -> reachable (Blockchain.AddTransaction bc tx).1
| reachable_appendBlock (bc : Blockchain.t) (b : Block.t) :
    reachable bc ->
    reachable (Blockchain.appendBlock bc b (Blockchain.validateBlock bc b)).1
| reachable_State (bc : Blockchain.t) (s : State.t) :
    reachable bc ->
    reachable (Blockchain.mk (Blockchain.Blocks bc) (Blockchain.PendingTxs bc) s
                 (Blockchain.GenesisAddress bc) (Blockchain.txPool bc)).


(** What [validateBlock] checks of a block against the block before it. *)
Definition follows (prevBlock block : Block.t) : Prop :=
  Block.Index block = uint64 (Block.Index prevBlock + 1) /\
  Block.PrevHash block = Block.Hash prevBlock /\
  Block.Hash block = Block.calculateHash block.

(** Every transaction of [txs] that is not a coinbase verifies. *)
Definition allVerify (txs : list Transaction.t) : Prop :=
  Forall (fun tx => Transaction.IsCoinbase tx = false -> Transaction.Verify tx = Ok tt)
         txs.

(** The blocks are numbered from 0, carry their own hash, are linked by
    [PrevHash], and hold verified transactions. *)
Definition chainLinked (bc : Blockchain.t) : Prop :=
  Blockchain.Blocks bc <> [] /\
  (forall i b, Blockchain.Blocks bc !! i = Some b ->
     Block.Index b = uint64 (Z.of_nat i) /\
     Block.Hash b = Block.calculateHash b /\
     allVerify (Block.Transactions b)) /\
  (forall i prevBlock b,
     Blockchain.Blocks bc !! i = Some prevBlock ->
     Blockchain.Blocks bc !! S i = Some b ->
     Block.PrevHash b = Block.Hash prevBlock).

(** The pending transactions verify, have distinct ids, and are in the
    pool under their id; the pool files every transaction under its id. *)
Definition mempoolIndexed (bc : Blockchain.t) : Prop :=
  Forall (fun tx => Transaction.Verify tx = Ok tt) (Blockchain.PendingTxs bc) /\
  NoDup (Transaction.ID <$> Blockchain.PendingTxs bc) /\
  (forall tx, tx ∈ Blockchain.PendingTxs bc ->
     Blockchain.txPool bc !! Transaction.ID tx = Some tx) /\
  (forall id tx, Blockchain.txPool bc !! id = Some tx ->
     Transaction.ID tx = id /\ Transaction.Verify tx = Ok tt).

End chains.

Module ExampleChain.
Section run.
Local Existing Instance Toy.primitives.

(** [carol]'s block with the transfer of [pay100] replaced by another body
    under the same id. *)
Definition pay100_other : Transaction.t :=
  Transaction.mk "pay100" "alice" "mallory" 999 0 7 EmptyString EmptyString.

Definition block_other : Block.t :=
  Block.mk 1 10 [pay100_other] "00" "11" "carol" EmptyString.

(** A block after genesis whose only transaction is a coinbase of a
    billion tokens for [mallory]. *)
Definition jackpot : Transaction.t :=
  Transaction.mk "jackpot" EmptyString "mallory" 1000000000 0 0 EmptyString EmptyString.

Definition jackpot_block : Block.t :=
  Block.NewBlock 10 1 [jackpot]
    (Block.Hash (Blockchain.createGenesisBlock Example.alice 1000000)) "mallory".

(** Two transfers of 600_000 from [alice], who holds 1_000_000. *)
Definition first600 : Transaction.t :=
  Example.signed
    (Transaction.mk "first" Example.alice "bob" 600000 1 7 EmptyString EmptyString)
    Toy.alice_key.

Definition second600 : Transaction.t :=
  Example.signed
    (Transaction.mk "second" Example.alice "carol" 600000 1 8 EmptyString EmptyString)
    Toy.alice_key.

Definition bc_both : Blockchain.t :=
  (Blockchain.AddTransaction (Blockchain.AddTransaction Example.bc0 first600).1
     second600).1.

(** The block that the statements of [CreateBlock] assemble for [alice] on
    the chain with [Example.transfer] pending. *)
Definition alice_block : Block.t :=
  match Blockchain.assembleBlock 10 Example.bc1 Example.alice
          (Blockchain.GetLatestBlock Example.bc1) with
  | Ok b => b
  | _ => Block.mk 0 0 [] EmptyString EmptyString EmptyString EmptyString
  end.

(** [alice_block] signed by [alice]. *)
Definition alice_block_signed : Block.t :=
  match Block.Sign alice_block Toy.alice_key with
  | Ok b => b
  | _ => alice_block
  end.

End run.
End ExampleChain.

Module ExampleRegistry.

(** One validator above the minimum and one that has fallen below it. *)
Definition strong : Validator.t := Validator.mk "a" [] [] 5000.
Definition weak : Validator.t := Validator.mk "b" [] [] 1000.

Definition pos : PoS.t :=
  (PoS.UpdateValidatorStake
     (PoS.RegisterValidator
        (PoS.RegisterValidator (PoS.NewPoS 1000 ExampleConsensus.blockTime) strong).1
        weak).1
     "b" 10).1.

(** Two validators, both below the minimum after an update. *)
Definition pos_none : PoS.t := (PoS.UpdateValidatorStake pos "a" 0).1.

End ExampleRegistry.

Module ExampleProducer.
Section run.
Local Existing Instance Toy.primitives.

(** [alice] registered as a validator with her key pair. *)
Definition validator : Validator.t :=
  Validator.mk Example.alice Toy.alice_pub Toy.alice_key 5000.

Definition pos : PoS.t :=
  (PoS.RegisterValidator (PoS.NewPoS 1000 ExampleConsensus.blockTime) validator).1.

(** The same registry after the stake of [alice] has been set to 10. *)
Definition pos_low : PoS.t := (PoS.UpdateValidatorStake pos Example.alice 10).1.

End run.
End ExampleProducer.

Module ExamplePeer.

Definition ping : Peer.Message := Peer.mkMessage "ping" [] "node1" 7.

(** A connected peer that is sent 150 messages. *)
Definition peer : Peer.t := Peer.Connect (Peer.NewPeer "peer1" "127.0.0.1:3000").
Definition messages : list Peer.Message := replicate 150 ping.

End ExamplePeer.
(** * Properties *)

(** ** encoding/hex round trip *)

Lemma hex_byte_roundtrip (b : byte) :
  let n := Byte.to_N b in
  fromHexChar (hexdigit (n / 16)) = Some (n / 16)%N /\
  fromHexChar (hexdigit (n mod 16)) = Some (n mod 16)%N /\
  byte_of_N (n / 16 * 16 + n mod 16) = b.
Proof. destruct b; vm_compute; auto. Qed.

Lemma DecodeString_EncodeToString (bs : list byte) :
  DecodeString (EncodeToString bs) = Ok bs.
Proof.
  induction bs as [|b bs IH]; [reflexivity|].
  destruct (hex_byte_roundtrip b) as (Hhi & Hlo & Hb).
  cbn [EncodeToString DecodeString].
  rewrite Hhi, Hlo, IH, Hb. reflexivity.
Qed.


Lemma EncodeToString_nonempty (bs : list byte) :
  bs <> [] -> EncodeToString bs <> EmptyString.
Proof. destruct bs; [congruence | discriminate]. Qed.

(** ** Package crypto *)

Section crypto_facts.
Context `{Primitives}.

Lemma PublicKeyToAddress_nonempty (publicKey : list byte) :
  crypto.PublicKeyToAddress publicKey <> EmptyString.
Proof.
  unfold crypto.PublicKeyToAddress, crypto.Hash.
  apply EncodeToString_nonempty. intros E.
  apply (f_equal length) in E.
  rewrite length_take, Sum256_size in E. simpl in E. lia.
Qed.

Lemma PublicKeyFromHex_ToHex (publicKey : list byte) :
  length publicKey = PublicKeySize ->
  crypto.PublicKeyFromHex (crypto.PublicKeyToHex publicKey) = Ok publicKey.
Proof.
  intros Hlen. unfold crypto.PublicKeyFromHex, crypto.PublicKeyToHex.
  rewrite DecodeString_EncodeToString. by rewrite decide_True.
Qed.

Lemma SignatureFromHex_ToHex (signature : list byte) :
  length signature = SignatureSize ->
  crypto.SignatureFromHex (crypto.SignatureToHex signature) = Ok signature.
Proof.
  intros Hlen. unfold crypto.SignatureFromHex, crypto.SignatureToHex.
  rewrite DecodeString_EncodeToString. by rewrite decide_True.
Qed.

(** A transaction that verifies is not a coinbase: its sender is the
    address of a public key, forty hexadecimal digits. *)
Lemma Verify_Ok_From (tx : Transaction.t) :
  Transaction.Verify tx = Ok tt ->
  exists publicKey,
    crypto.PublicKeyFromHex (Transaction.PublicKey tx) = Ok publicKey /\
    Transaction.From tx = crypto.PublicKeyToAddress publicKey.
Proof.
  unfold Transaction.Verify. intros Hv.
  destruct (decide (Transaction.Signature tx = EmptyString)); [discriminate|].
  destruct (crypto.PublicKeyFromHex (Transaction.PublicKey tx)) as [pk| |];
    try discriminate.
  destruct (decide (Transaction.From tx <> crypto.PublicKeyToAddress pk)) as [|Heq];
    [discriminate|].
  exists pk. split; [reflexivity|]. by apply dec_stable.
Qed.

Lemma Verify_Ok_not_coinbase (tx : Transaction.t) :
  Transaction.Verify tx = Ok tt -> Transaction.IsCoinbase tx = false.
Proof.
  intros (pk & _ & Hfrom)%Verify_Ok_From.
  unfold Transaction.IsCoinbase. apply bool_decide_eq_false.
  rewrite Hfrom. apply PublicKeyToAddress_nonempty.
Qed.


Lemma PublicKeyFromHex_Ok_length (hexKey : string) (publicKey : list byte) :
  crypto.PublicKeyFromHex hexKey = Ok publicKey -> length publicKey = PublicKeySize.
Proof.
  unfold crypto.PublicKeyFromHex.
  destruct (DecodeString hexKey) as [bs| |]; [|discriminate..].
  destruct (decide (length bs = PublicKeySize)); [|discriminate]. by intros [= <-].
Qed.

Lemma SignatureFromHex_Ok_length (hexSig : string) (signature : list byte) :
  crypto.SignatureFromHex hexSig = Ok signature -> length signature = SignatureSize.
Proof.
  unfold crypto.SignatureFromHex.
  destruct (DecodeString hexSig) as [bs| |]; [|discriminate..].
  destruct (decide (length bs = SignatureSize)); [|discriminate]. by intros [= <-].
Qed.

(** What [Verify] checks: a signature is present, the public key decodes,
    its address is the sender, the signature decodes, and it is a signature
    of [dataToSign] under that key. *)
Lemma Verify_Ok_iff (tx : Transaction.t) :
  Transaction.Verify tx = Ok tt <->
  Transaction.Signature tx <> EmptyString /\
  exists publicKey signature,
    crypto.PublicKeyFromHex (Transaction.PublicKey tx) = Ok publicKey /\
    Transaction.From tx = crypto.PublicKeyToAddress publicKey /\
    crypto.SignatureFromHex (Transaction.Signature tx) = Ok signature /\
    ed25519_Verify publicKey (Transaction.dataToSign tx) signature = true.
Proof.
  unfold Transaction.Verify. split.
  - intros Hv.
    destruct (decide (Transaction.Signature tx = EmptyString)); [discriminate|].
    split; [done|].
    destruct (crypto.PublicKeyFromHex (Transaction.PublicKey tx)) as [pk| |] eqn:Hpk;
      try discriminate.
    destruct (decide (Transaction.From tx <> crypto.PublicKeyToAddress pk)) as [|Heq];
      [discriminate|].
    destruct (crypto.SignatureFromHex (Transaction.Signature tx)) as [sig| |] eqn:Hsig;
      try discriminate.
    exists pk, sig. split; [done|]. split; [by apply dec_stable|]. split; [done|].
    unfold crypto.Verify in Hv.
    rewrite decide_True in Hv by (by eapply PublicKeyFromHex_Ok_length).
    rewrite bool_decide_eq_true_2 in Hv by (by eapply SignatureFromHex_Ok_length).
    simpl in Hv. by destruct (ed25519_Verify _ _ _).
  - intros (Hsigned & pk & sig & Hpk & Hfrom & Hsig & Hvalid).
    rewrite decide_False, Hpk by done.
    rewrite decide_False by (intros Hne; by apply Hne).
    rewrite Hsig. unfold crypto.Verify.
    rewrite decide_True by (by eapply PublicKeyFromHex_Ok_length).
    rewrite bool_decide_eq_true_2 by (by eapply SignatureFromHex_Ok_length).
    by rewrite Hvalid.
Qed.

End crypto_facts.

(** ** Ledger state *)

Lemma copyEntries_list_to_map (entries : list (string * Z)) (acc : gmap string Z) :
  NoDup entries.*1 ->
  fold_left (fun new kv => <[kv.1 := kv.2]> new) entries acc = list_to_map entries ∪ acc.
Proof.
  revert acc. induction entries as [|[k v] entries IH]; intros acc Hnd; simpl.
  - by rewrite (left_id_L ∅ (∪)).
  - apply NoDup_cons in Hnd as [Hk Hnd].
    rewrite IH by done.
    rewrite <- insert_union_l. symmetry. apply insert_union_r.
    by apply not_elem_of_list_to_map_1.
Qed.

(** Whatever the order in which [range] yields the entries, the copy loop
    rebuilds the map. *)
Lemma copyEntries_range (m : gmap string Z) (entries : list (string * Z)) :
  entries ≡ₚ map_to_list m -> State.copyEntries entries = m.
Proof.
  intros Hperm. unfold State.copyEntries.
  assert (NoDup entries.*1) as Hnd.
  { rewrite Hperm. apply NoDup_fst_map_to_list. }
  rewrite copyEntries_list_to_map by done.
  rewrite (right_id_L ∅ (∪)).
  rewrite (list_to_map_proper _ _ Hnd Hperm).
  apply list_to_map_to_list.
Qed.

Lemma Clone_eq (s : State.t) : State.Clone s = s.
Proof.
  destruct s as [bal stk]. unfold State.Clone; simpl.
  f_equal; by apply copyEntries_range.
Qed.

(** ** C1: [AddBlock] waits for its own lock *)

Lemma Lock_unlocked : sync.Lock sync.unlocked = Some (sync.mkRWMutex true 0).
Proof. reflexivity. Qed.

Lemma Lock_Some (mu mu1 : sync.RWMutex) :
  sync.Lock mu = Some mu1 -> mu1 = sync.mkRWMutex true 0.
Proof. unfold sync.Lock. destruct (_ || _); [discriminate | by intros [= <-]]. Qed.

Lemma GetLatestBlock_mu_write_locked (bc : Blockchain.t) (readers : nat) :
  Blockchain.GetLatestBlock_mu (sync.mkRWMutex true readers) bc
  = sync.Blocks (sync.mkRWMutex true readers).
Proof. reflexivity. Qed.

Section own_lock.
Context `{Primitives}.

(** Where a call of [AddBlock] stops: at its own [Lock] when the mutex is
    held, at the [RLock] of [GetLatestBlock] otherwise. *)
Lemma AddBlock_blocks (mu : sync.RWMutex) (bc : Blockchain.t) (b : Block.t) :
  Blockchain.AddBlock mu bc b
  = sync.Blocks (match sync.Lock mu with Some mu1 => mu1 | None => mu end).
Proof.
  unfold Blockchain.AddBlock.
  destruct (sync.Lock mu) as [mu1|] eqn:Hlock; [|reflexivity].
  apply Lock_Some in Hlock as ->. reflexivity.
Qed.

Lemma CreateBlock_blocks (now : Z) (mu : sync.RWMutex) (bc : Blockchain.t)
    (validator : string) :
  Blockchain.CreateBlock now mu bc validator
  = sync.Blocks (match sync.Lock mu with Some mu1 => mu1 | None => mu end).
Proof.
  unfold Blockchain.CreateBlock.
  destruct (sync.Lock mu) as [mu1|] eqn:Hlock; [|reflexivity].
  apply Lock_Some in Hlock as ->. reflexivity.
Qed.

Lemma AddTransaction_mu_unlocked (bc : Blockchain.t) (tx : Transaction.t) :
  Blockchain.AddTransaction_mu sync.unlocked bc tx
  = sync.Returns (Blockchain.AddTransaction bc tx) sync.unlocked.
Proof. reflexivity. Qed.


End own_lock.

(** ** C2: the mempool index and the pending sequence *)

Lemma removeFromPool_lookup (txs : list Transaction.t)
    (pool : gmap string Transaction.t) (id : string) :
  id ∉ Transaction.ID <$> txs ->
  Blockchain.removeFromPool txs pool !! id = pool !! id.
Proof.
  unfold Blockchain.removeFromPool. revert pool.
  induction txs as [|tx txs IH]; intros pool Hid; simpl; [done|].
  rewrite fmap_cons in Hid. apply not_elem_of_cons in Hid as [Hne Hid].
  rewrite IH by done. by rewrite lookup_delete_ne.
Qed.

Section pool_and_pending.
Context `{Primitives}.





End pool_and_pending.


(** ** C3 and C8: selection of the next validator *)

Lemma registered_ab :
  ExampleConsensus.pos_ab =
  PoS.mk (ValidatorSet.mk (<["b" := ExampleConsensus.vb]> {["a" := ExampleConsensus.va]}))
         1000 ExampleConsensus.blockTime.
Proof. reflexivity. Qed.

Lemma registered_zero :
  ExampleConsensus.pos_zero =
  PoS.mk (ValidatorSet.mk {["a" := ExampleConsensus.v0]}) 0 ExampleConsensus.blockTime.
Proof. reflexivity. Qed.

Lemma GetValidators_ab (validators : list Validator.t) :
  validators ≡ₚ [ExampleConsensus.va; ExampleConsensus.vb] ->
  ValidatorSet.GetValidators (PoS.ValidatorSet ExampleConsensus.pos_ab) validators.
Proof.
  intros Hperm. unfold ValidatorSet.GetValidators.
  rewrite registered_ab. cbn [PoS.ValidatorSet ValidatorSet.Validators].
  rewrite map_to_list_insert by done.
  rewrite map_to_list_singleton. cbn. rewrite Hperm. apply perm_swap.
Qed.

Section selection.
Context `{Primitives}.

Lemma selectFrom_ab (prevBlockHash : string) (timestamp : Z) (v w : Validator.t) :
  Validator.Stake v = 1000 -> Validator.Stake w = 1000 ->
  PoS.selectFrom ExampleConsensus.pos_ab [v; w] prevBlockHash timestamp =
  Ok (if PoS.generateSeed prevBlockHash timestamp mod 2000 <? 1000 then v else w).
Proof.
  intros Hv Hw. unfold PoS.selectFrom, PoS.eligible, Validator.CanValidate.
  rewrite registered_ab. cbn [PoS.MinStake List.filter]. rewrite Hv, Hw.
  change (1000 <=? 1000) with true. cbn iota.
  unfold PoS.sumStake. cbn [fold_left]. rewrite Hv, Hw.
  change (int64 (uint64 (uint64 (0 + 1000) + 1000))) with 2000.
  unfold PoS.big_Mod. cbn [decide]. rewrite decide_False by lia.
  change (Z.abs 2000) with 2000.
  generalize (PoS.generateSeed prevBlockHash timestamp). intros seed.
  pose proof (Z.mod_pos_bound seed 2000 ltac:(lia)) as Hrange.
  cbn [PoS.pick]. rewrite Hv, Hw.
  change (int64 (uint64 (0 + 1000))) with 1000.
  change (int64 (uint64 (uint64 (0 + 1000) + 1000))) with 2000.
  destruct (seed mod 2000 <? 1000); [reflexivity|].
  replace (seed mod 2000 <? 2000) with true by (symmetry; apply Z.ltb_lt; lia).
  reflexivity.
Qed.

(** C3 (the code departs from the claim).  With the validator set
    [{a: 1000, b: 1000}] and any previous hash and timestamp, a call of
    [SelectValidator] can return [a] and a call with the same arguments on
    the same set can return [b]: the result follows the order in which the
    map of validators is enumerated. *)
Theorem SelectValidator_depends_on_range_order (prevBlockHash : string) (timestamp : Z) :
  PoS.SelectValidator ExampleConsensus.pos_ab prevBlockHash timestamp
    (Ok ExampleConsensus.va) /\
  PoS.SelectValidator ExampleConsensus.pos_ab prevBlockHash timestamp
    (Ok ExampleConsensus.vb) /\
  ExampleConsensus.va <> ExampleConsensus.vb.
Proof.
  set (seed := PoS.generateSeed prevBlockHash timestamp).
  destruct (seed mod 2000 <? 1000) eqn:Hlt.
  - split; [|split; [|discriminate]].
    + exists [ExampleConsensus.va; ExampleConsensus.vb].
      split; [by apply GetValidators_ab|].
      rewrite selectFrom_ab by reflexivity. fold seed. by rewrite Hlt.
    + exists [ExampleConsensus.vb; ExampleConsensus.va].
      split; [apply GetValidators_ab, perm_swap|].
      rewrite selectFrom_ab by reflexivity. fold seed. by rewrite Hlt.
  - split; [|split; [|discriminate]].
    + exists [ExampleConsensus.vb; ExampleConsensus.va].
      split; [apply GetValidators_ab, perm_swap|].
      rewrite selectFrom_ab by reflexivity. fold seed. by rewrite Hlt.
    + exists [ExampleConsensus.va; ExampleConsensus.vb].
      split; [by apply GetValidators_ab|].
      rewrite selectFrom_ab by reflexivity. fold seed. by rewrite Hlt.
Qed.

(** When every validator is below a positive minimum stake, the filtered
    slice is empty and the call returns an error. *)
Lemma selectFrom_below_minimum (pos : PoS.t) (validators : list Validator.t)
    (prevBlockHash : string) (timestamp : Z) :
  Forall (fun v => Validator.Stake v < PoS.MinStake pos) validators ->
  PoS.selectFrom pos validators prevBlockHash timestamp =
  Err (Errorf (match validators with
               | [] => "no validators available"
               | _ => "no eligible validators"
               end)).
Proof.
  intros Hall. unfold PoS.selectFrom.
  destruct validators as [|v vs]; [reflexivity|].
  replace (PoS.eligible pos (v :: vs)) with (@nil Validator.t); [reflexivity|].
  symmetry. unfold PoS.eligible. generalize (v :: vs) Hall. clear.
  induction 1 as [|x l Hx _ IH]; [reflexivity|]. simpl.
  unfold Validator.CanValidate at 1.
  replace (PoS.MinStake pos <=? Validator.Stake x) with false
    by (symmetry; apply Z.leb_gt; lia).
  exact IH.
Qed.

(** C8 (the code departs from the claim).  With a minimum stake of zero
    and a validator set whose only validator has stake zero, every
    validator is eligible, the total stake is zero, and [big.Int.Mod]
    panics: no call returns the error for an empty filtered set. *)
Theorem SelectValidator_zero_total_panics (prevBlockHash : string) (timestamp : Z)
    (r : result Validator.t) :
  PoS.SelectValidator ExampleConsensus.pos_zero prevBlockHash timestamp r <->
  r = Panic "division by zero".
Proof.
  assert (PoS.selectFrom ExampleConsensus.pos_zero [ExampleConsensus.v0]
            prevBlockHash timestamp = Panic "division by zero") as Hrun
    by reflexivity.
  unfold PoS.SelectValidator, ValidatorSet.GetValidators.
  rewrite registered_zero. cbn [PoS.ValidatorSet ValidatorSet.Validators].
  rewrite map_to_list_singleton. cbn [fmap list_fmap snd].
  rewrite <- registered_zero.
  split.
  - intros (validators & Hperm & <-).
    apply Permutation_singleton_r in Hperm as ->. exact Hrun.
  - intros ->. exists [ExampleConsensus.v0]. by split.
Qed.

End selection.

(** ** C9: the time of the next block *)

Lemma int64_small (z : Z) : - 2 ^ 63 <= z < 2 ^ 63 -> int64 z = z.
Proof.
  intros Hz. unfold int64.
  destruct (Z.ltb_spec (z mod 2 ^ 64) (2 ^ 63)) as [Hlt|Hge].
  - destruct (Z_lt_le_dec z 0) as [Hneg|Hpos].
    + exfalso. rewrite <- (Z.mod_add z 1 (2 ^ 64)) in Hlt by lia.
      rewrite Z.mod_small in Hlt by lia. lia.
    + apply Z.mod_small. lia.
  - destruct (Z_lt_le_dec z 0) as [Hneg|Hpos].
    + rewrite <- (Z.mod_add z 1 (2 ^ 64)) by lia.
      rewrite Z.mod_small by lia. lia.
    + exfalso. rewrite Z.mod_small in Hge by lia. lia.
Qed.

(** Go's quotient and remainder, which round toward zero, against the
    floor of the division by a second. *)
Lemma quot_rem_second (d : Z) :
  (Z.rem d 1000000000 < 0 /\
   Z.quot d 1000000000 - 1 = d / 1000000000 /\
   Z.rem d 1000000000 + 1000000000 = d mod 1000000000) \/
  (0 <= Z.rem d 1000000000 < 1000000000 /\
   Z.quot d 1000000000 = d / 1000000000 /\
   Z.rem d 1000000000 = d mod 1000000000).
Proof.
  pose proof (Z.quot_rem' d 1000000000) as Hqr.
  pose proof (Z.rem_bound_abs d 1000000000 ltac:(lia)) as Habs.
  destruct (Z_lt_le_dec (Z.rem d 1000000000) 0) as [Hneg|Hpos].
  - left. split; [exact Hneg|].
    assert (0 <= Z.rem d 1000000000 + 1000000000 < 1000000000) as Hr by lia.
    split.
    + apply (Z.div_unique d 1000000000 _ (Z.rem d 1000000000 + 1000000000)); lia.
    + apply (Z.mod_unique d 1000000000 (Z.quot d 1000000000 - 1)); lia.
  - right. assert (0 <= Z.rem d 1000000000 < 1000000000) as Hr by lia.
    split; [exact Hr|]. split.
    + apply (Z.div_unique d 1000000000 _ (Z.rem d 1000000000)); lia.
    + apply (Z.mod_unique d 1000000000 (Z.quot d 1000000000)); lia.
Qed.

Lemma addSec_in_range (t : time.Time) (d : Z) :
  - 2 ^ 63 <= time.sec t + d < 2 ^ 63 ->
  time.addSec t d = time.mkTime (time.sec t + d) (time.nsec t).
Proof.
  intros Hsum. unfold time.addSec. rewrite int64_small by exact Hsum.
  destruct (Z.ltb_spec (time.sec t) (time.sec t + d)),
           (Z.ltb_spec 0 d); cbn [Bool.eqb]; first [reflexivity | lia].
Qed.

(** The next block time, as long as the seconds stay within [int64]. *)
Lemma GetNextBlockTime_in_range (pos : PoS.t) (lastBlockTime : Z) :
  - 2 ^ 63 <= lastBlockTime + time.unixToInternal < 2 ^ 63 ->
  - 2 ^ 63 <= lastBlockTime + time.unixToInternal + PoS.BlockTime pos / time.Second
    < 2 ^ 63 ->
  PoS.GetNextBlockTime pos lastBlockTime
  = time.mkTime (lastBlockTime + time.unixToInternal + PoS.BlockTime pos / time.Second)
                (PoS.BlockTime pos mod time.Second).
Proof.
  intros Hunix Hsum. unfold PoS.GetNextBlockTime, time.Unix, time.Second in *.
  cbn [Z.ltb Z.leb Z.compare orb]. rewrite int64_small by exact Hunix.
  unfold time.Add. cbn [time.sec time.nsec]. rewrite Z.add_0_l.
  destruct (quot_rem_second (PoS.BlockTime pos)) as [(Hneg & Hq & Hr)|(Hpos & Hq & Hr)].
  - destruct (Z.leb_spec 1000000000 (Z.rem (PoS.BlockTime pos) 1000000000)); [lia|].
    destruct (Z.ltb_spec (Z.rem (PoS.BlockTime pos) 1000000000) 0); [|lia].
    rewrite addSec_in_range; cbn [time.sec time.nsec]; rewrite ?Hq, ?Hr;
      [reflexivity | lia].
  - destruct (Z.leb_spec 1000000000 (Z.rem (PoS.BlockTime pos) 1000000000)); [lia|].
    destruct (Z.ltb_spec (Z.rem (PoS.BlockTime pos) 1000000000) 0); [lia|].
    rewrite addSec_in_range; cbn [time.sec time.nsec]; rewrite ?Hq, ?Hr;
      [reflexivity | lia].
Qed.

Lemma After_nanoseconds (t u : time.Time) :
  0 <= time.nsec t < time.Second ->
  0 <= time.nsec u < time.Second ->
  time.After t u = true <-> nanoseconds u < nanoseconds t.
Proof.
  unfold time.After, nanoseconds, time.Second. intros Ht Hu.
  destruct (Z.ltb_spec (time.sec u) (time.sec t)),
           (Z.eqb_spec (time.sec t) (time.sec u)),
           (Z.ltb_spec (time.nsec u) (time.nsec t));
    cbn [orb andb]; split; first [done | lia].
Qed.

(** C9, as the claim states it, fails at the boundary: five seconds after a
    block of timestamp 0, with a block time of five seconds, the current
    time has reached [last_ts + block_time], and [ShouldCreateBlock] answers
    false. *)
Lemma ShouldCreateBlock_boundary_false :
  nanoseconds (time.Unix 0 0) + PoS.BlockTime ExampleConsensus.pos
    <= nanoseconds (time.Unix 5 0) /\
  PoS.ShouldCreateBlock (time.Unix 5 0) ExampleConsensus.pos 0 = false.
Proof. vm_compute. split; [discriminate | reflexivity]. Qed.

(** Outside the range of the amended claim the seconds wrap around: for a
    last block time of [2^63 - 1] the next block time is computed far in the
    past, and [ShouldCreateBlock] answers true on the first of January
    1970. *)
Lemma ShouldCreateBlock_wraps :
  PoS.ShouldCreateBlock (time.Unix 0 0) ExampleConsensus.pos (2 ^ 63 - 1) = true.
Proof. vm_compute. reflexivity. Qed.

(** C9, amended.  For a last block time and a block time whose sum, in
    seconds since year 1, stays within [int64] (so that neither [time.Unix]
    wraps around nor [Add] is held at its bound), [ShouldCreateBlock]
    answers true exactly when the current time is strictly after the last
    block time plus the block time, compared to the nanosecond; at the
    boundary itself it answers false. *)
Theorem ShouldCreateBlock_strictly_after (now : time.Time) (pos : PoS.t)
    (lastBlockTime : Z) :
  - 2 ^ 63 <= lastBlockTime + time.unixToInternal < 2 ^ 63 ->
  - 2 ^ 63 <= lastBlockTime + time.unixToInternal + PoS.BlockTime pos / time.Second
    < 2 ^ 63 ->
  0 <= time.nsec now < time.Second ->
  (PoS.ShouldCreateBlock now pos lastBlockTime = true <->
   (lastBlockTime + time.unixToInternal) * time.Second + PoS.BlockTime pos
     < nanoseconds now) /\
  (nanoseconds now
     = (lastBlockTime + time.unixToInternal) * time.Second + PoS.BlockTime pos ->
   PoS.ShouldCreateBlock now pos lastBlockTime = false).
Proof.
  intros Hunix Hsum Hnow.
  assert (PoS.ShouldCreateBlock now pos lastBlockTime = true <->
          (lastBlockTime + time.unixToInternal) * time.Second + PoS.BlockTime pos
            < nanoseconds now) as Hiff.
  { unfold PoS.ShouldCreateBlock.
    rewrite GetNextBlockTime_in_range by assumption.
    pose proof (Z.mod_pos_bound (PoS.BlockTime pos) time.Second ltac:(done)) as Hmod.
    rewrite After_nanoseconds by done.
    unfold nanoseconds at 1. cbn [time.sec time.nsec].
    pose proof (Z.div_mod (PoS.BlockTime pos) time.Second ltac:(done)) as Hdm.
    change 1000000000 with time.Second. lia. }
  split; [exact Hiff|].
  intros Heq. apply not_true_is_false. intros Hcall. apply Hiff in Hcall. lia.
Qed.

Lemma ShouldCreateBlock_strictly_after_witness :
  PoS.ShouldCreateBlock (time.mkTime (6 + time.unixToInternal) 1) ExampleConsensus.pos 1
    = true /\
  PoS.ShouldCreateBlock (time.mkTime (6 + time.unixToInternal) 0) ExampleConsensus.pos 1
    = false.
Proof.
  split.
  - destruct (ShouldCreateBlock_strictly_after
                (time.mkTime (6 + time.unixToInternal) 1) ExampleConsensus.pos 1)
      as [Hiff _].
    + vm_compute. split; [discriminate | reflexivity].
    + vm_compute. split; [discriminate | reflexivity].
    + vm_compute. split; [discriminate | reflexivity].
    + apply Hiff. vm_compute. reflexivity.
  - destruct (ShouldCreateBlock_strictly_after
                (time.mkTime (6 + time.unixToInternal) 0) ExampleConsensus.pos 1)
      as [_ Hboundary].
    + vm_compute. split; [discriminate | reflexivity].
    + vm_compute. split; [discriminate | reflexivity].
    + vm_compute. split; [discriminate | reflexivity].
    + apply Hboundary. vm_compute. reflexivity.
Defined.

(** ** C5: applying a block *)

Lemma ApplyTransaction_outcome (s : State.t) (tx : Transaction.t) :
  (exists s', State.ApplyTransaction s tx = (s', Ok tt)) \/
  (exists e, State.ApplyTransaction s tx = (s, Err e)).
Proof.
  unfold State.ApplyTransaction.
  destruct (Transaction.IsCoinbase tx); [eauto|].
  destruct (_ <? _); eauto.
Qed.

Lemma ApplyTransaction_Stakes (s : State.t) (tx : Transaction.t) :
  State.Stakes (State.ApplyTransaction s tx).1 = State.Stakes s.
Proof.
  unfold State.ApplyTransaction.
  destruct (Transaction.IsCoinbase tx); [reflexivity|].
  destruct (_ <? _); reflexivity.
Qed.

Lemma foldTransactions_Stakes (txs : list Transaction.t) (s : State.t) :
  State.Stakes (foldTransactions s txs) = State.Stakes s.
Proof.
  unfold foldTransactions. revert s.
  induction txs as [|tx txs IH]; intros s; simpl; [reflexivity|].
  by rewrite IH, ApplyTransaction_Stakes.
Qed.

Lemma foldTransactions_cons (s s1 : State.t) (tx : Transaction.t)
    (txs : list Transaction.t) (r : result unit) :
  State.ApplyTransaction s tx = (s1, r) ->
  foldTransactions s (tx :: txs) = foldTransactions s1 txs.
Proof. intros Htx. unfold foldTransactions. simpl. by rewrite Htx. Qed.

Lemma applied_fold (s s' : State.t) (txs : list Transaction.t) :
  applied s txs s' -> s' = foldTransactions s txs.
Proof.
  induction 1 as [|s s1 s2 tx txs Htx _ IH]; [reflexivity|].
  by rewrite (foldTransactions_cons _ _ _ _ _ Htx).
Qed.

(** The loop of [ApplyBlock]: either every transaction is applied, or it
    stops at the first one that is refused, in the state reached before
    it. *)
Lemma applyTransactions_outcome (txs : list Transaction.t) (s : State.t) :
  (applied s txs (foldTransactions s txs) /\
   State.applyTransactions s txs = (foldTransactions s txs, Ok tt)) \/
  (exists pre tx post e,
     txs = pre ++ tx :: post /\
     applied s pre (foldTransactions s pre) /\
     State.ApplyTransaction (foldTransactions s pre) tx
       = (foldTransactions s pre, Err e) /\
     State.applyTransactions s txs =
       (foldTransactions s pre,
        Err (Wrap ("failed to apply transaction " +:+ Transaction.ID tx +:+ ": ") e))).
Proof.
  revert s. induction txs as [|tx txs IH]; intros s.
  - left. split; [constructor | reflexivity].
  - cbn [State.applyTransactions].
    destruct (ApplyTransaction_outcome s tx) as [[s1 H1]|[e He]].
    + rewrite H1, (foldTransactions_cons _ _ _ txs _ H1).
      destruct (IH s1) as [[Happ Hok]|(pre & tx' & post & e & -> & Happ & Hfail & Hres)].
      * left. split; [by econstructor | exact Hok].
      * right. exists (tx :: pre), tx', post, e.
        rewrite (foldTransactions_cons _ _ _ pre _ H1).
        split; [reflexivity|]. split; [by econstructor|]. by split.
    + right. exists [], tx, txs, e. rewrite He.
      split; [reflexivity|]. split; [constructor|]. by split.
Qed.

(** C5, as the claim states it, fails: [carol]'s block with one transfer
    of fee 1 is applied without error, and the state after [ApplyBlock] is
    not the fold of [ApplyTransaction] over its transactions, because
    [carol] has also been credited with the fee. *)
Lemma ApplyBlock_not_only_fold :
  (State.ApplyBlock Example.state101 Example.block_pay100).2 = Ok tt /\
  (State.ApplyBlock Example.state101 Example.block_pay100).1
    <> foldTransactions Example.state101 (Block.Transactions Example.block_pay100).
Proof.
  split; [vm_compute; reflexivity|].
  intros Heq. apply (f_equal (fun s => State.GetBalance s "carol")) in Heq.
  vm_compute in Heq. discriminate Heq.
Qed.

(** C5, amended.  If [ApplyBlock] succeeds, every transaction of the block
    has been applied in order without error, and the resulting state is the
    fold of [ApplyTransaction] over them followed, when the total of the
    fees of the block is positive, by the credit of that total to the
    validator of the block; the stakes are unchanged.  If it fails, the
    transactions before the failing one were applied, [ApplyTransaction]
    refused the failing one, and the error wraps that refusal and names the
    id of that transaction. *)
Theorem ApplyBlock_fold_then_fees (s : State.t) (b : Block.t) :
  (forall s', State.ApplyBlock s b = (s', Ok tt) ->
     applied s (Block.Transactions b) (foldTransactions s (Block.Transactions b)) /\
     s' = (if 0 <? Block.TotalFees b
           then State.AddBalance (foldTransactions s (Block.Transactions b))
                                 (Block.Validator b) (Block.TotalFees b)
           else foldTransactions s (Block.Transactions b)) /\
     State.Stakes s' = State.Stakes s) /\
  (forall s' err, State.ApplyBlock s b = (s', Err err) ->
     exists pre tx post e,
       Block.Transactions b = pre ++ tx :: post /\
       applied s pre (foldTransactions s pre) /\
       State.ApplyTransaction (foldTransactions s pre) tx
         = (foldTransactions s pre, Err e) /\
       err = Wrap ("failed to apply transaction " +:+ Transaction.ID tx +:+ ": ") e) /\
  (forall s' m, State.ApplyBlock s b <> (s', Panic m)).
Proof.
  unfold State.ApplyBlock.
  destruct (applyTransactions_outcome (Block.Transactions b) s)
    as [[Happ Hok]|(pre & tx & post & e & Htxs & Happ & Hfail & Hres)].
  - rewrite Hok. split; [|split].
    + intros s' Hs'. split; [exact Happ|].
      destruct (0 <? Block.TotalFees b); simplify_eq/=;
        by rewrite foldTransactions_Stakes.
    + intros s' err Hs'. destruct (0 <? Block.TotalFees b); discriminate.
    + intros s' m Hs'. destruct (0 <? Block.TotalFees b); discriminate.
  - rewrite Hres. split; [|split]; [discriminate| |discriminate].
    intros s' err [= <- <-]. by exists pre, tx, post, e.
Qed.

Lemma ApplyBlock_fold_then_fees_witness :
  (* a block that is applied: alice pays 101, bob gets 100, carol the fee *)
  (State.GetBalance (State.ApplyBlock Example.state101 Example.block_pay100).1 "alice" = 0 /\
   State.GetBalance (State.ApplyBlock Example.state101 Example.block_pay100).1 "bob" = 100 /\
   State.GetBalance (State.ApplyBlock Example.state101 Example.block_pay100).1 "carol" = 1) /\
  (* a block that fails at its second transaction *)
  (State.ApplyBlock Example.state101 Example.block_pay100_twice).2
    = Err (Wrap "failed to apply transaction again: "
             (Errorf "insufficient balance: has 0, needs 101")).
Proof.
  destruct (ApplyBlock_fold_then_fees Example.state101 Example.block_pay100)
    as [Hok _].
  destruct (ApplyBlock_fold_then_fees Example.state101 Example.block_pay100_twice)
    as [_ [Hfail _]].
  split.
  - destruct (Hok (State.ApplyBlock Example.state101 Example.block_pay100).1)
      as (_ & -> & _); [vm_compute; reflexivity|].
    vm_compute. auto.
  - destruct (Hfail (State.ApplyBlock Example.state101 Example.block_pay100_twice).1
                (Wrap "failed to apply transaction again: "
                   (Errorf "insufficient balance: has 0, needs 101")))
      as (pre & tx & post & e & _); [vm_compute; reflexivity|].
    vm_compute. reflexivity.
Defined.

(** ** C6: admission to the mempool *)

Section admission.
Context `{Primitives}.

Lemma AddTransaction_admits (bc : Blockchain.t) (tx : Transaction.t) :
  Transaction.Verify tx = Ok tt ->
  Blockchain.txPool bc !! Transaction.ID tx = None ->
  State.GetBalance (Blockchain.State bc) (Transaction.From tx)
    >= uint64 (Transaction.Amount tx + Transaction.Fee tx) ->
  Blockchain.AddTransaction bc tx =
    (Blockchain.mk (Blockchain.Blocks bc) (Blockchain.PendingTxs bc ++ [tx])
       (Blockchain.State bc) (Blockchain.GenesisAddress bc)
       (<[Transaction.ID tx := tx]> (Blockchain.txPool bc)),
     Ok tt).
Proof.
  intros Hv Hfresh Hbal. unfold Blockchain.AddTransaction.
  rewrite Hv, Hfresh, decide_False by (by intros ?%is_Some_None).
  destruct (Z.ltb_spec
              (State.GetBalance (Blockchain.State bc) (Transaction.From tx))
              (uint64 (Transaction.Amount tx + Transaction.Fee tx))); [lia|done].
Qed.


End admission.


(** ** C7: the required total wraps around *)

Lemma index_insert (m : gmap string Z) (k k' : string) (v : Z) :
  State.index (<[k := v]> m) k' = if decide (k = k') then v else State.index m k'.
Proof. unfold State.index. rewrite lookup_insert. by case_decide. Qed.

Lemma sumAmounts_insert (m : gmap string Z) (k : string) (v : Z) :
  sumAmounts (<[k := v]> m) = sumAmounts m - State.index m k + v.
Proof.
  assert (forall (m' : gmap string Z) x, m' !! k = None ->
            sumAmounts (<[k := x]> m') = x + sumAmounts m') as Hfresh.
  { intros m' x Hnone. unfold sumAmounts.
    apply (map_fold_insert_L (fun _ amount total => amount + total)); [|done].
    intros; lia. }
  unfold State.index. destruct (m !! k) as [old|] eqn:Hk; simpl.
  - rewrite <- (insert_delete_eq m), Hfresh by apply lookup_delete_eq.
    rewrite <- (insert_delete_id m k old Hk) at 2.
    rewrite Hfresh by apply lookup_delete_eq. lia.
  - rewrite Hfresh by done. lia.
Qed.

(** A transfer whose amounts do not overflow moves [Amount] and removes
    the fee from the balances: the total decreases by the fee, which
    [ApplyBlock] credits to the validator. *)
Lemma ApplyTransaction_conserves (s : State.t) (tx : Transaction.t) :
  Transaction.IsCoinbase tx = false ->
  0 <= Transaction.Amount tx -> 0 <= Transaction.Fee tx ->
  Transaction.Amount tx + Transaction.Fee tx < 2 ^ 64 ->
  Transaction.Amount tx + Transaction.Fee tx
    <= State.GetBalance s (Transaction.From tx) < 2 ^ 64 ->
  Transaction.From tx <> Transaction.To tx ->
  0 <= State.GetBalance s (Transaction.To tx) ->
  State.GetBalance s (Transaction.To tx) + Transaction.Amount tx < 2 ^ 64 ->
  (State.ApplyTransaction s tx).2 = Ok tt /\
  totalSupply (State.ApplyTransaction s tx).1 + Transaction.Fee tx = totalSupply s.
Proof.
  unfold State.GetBalance. intros Hnc HA HF Hsum Hfrom Hne Hto0 Hto.
  assert (uint64 (Transaction.Amount tx + Transaction.Fee tx)
          = Transaction.Amount tx + Transaction.Fee tx) as Hexact
    by (unfold uint64; apply Z.mod_small; lia).
  unfold State.ApplyTransaction. rewrite Hnc, Hexact.
  destruct (Z.ltb_spec (State.index (State.Balances s) (Transaction.From tx))
              (Transaction.Amount tx + Transaction.Fee tx)); [lia|].
  split; [reflexivity|].
  unfold totalSupply, State.add_assign, State.sub_assign, uint64. simpl.
  rewrite !sumAmounts_insert, !index_insert, decide_False by done.
  rewrite !Z.mod_small by lia. lia.
Qed.

Section overflow.
Context `{Primitives}.

(** C7.  The required total is [Amount + Fee] reduced modulo [2^64].  For
    a transaction that verifies (so not a coinbase) with
    [Amount + Fee >= 2^64], a sender whose balance covers the wrapped
    total (a balance of 0 when the total wraps to 0) passes the check of
    [AddTransaction]; [ApplyTransaction] succeeds, debits the sender by the
    wrapped total and credits the recipient by [Amount]; the total of
    balances and stakes, with the fee counted, grows by [2^64]. *)
Theorem required_total_wraps (bc : Blockchain.t) (tx : Transaction.t) :
  Transaction.Verify tx = Ok tt ->
  Blockchain.txPool bc !! Transaction.ID tx = None ->
  0 <= Transaction.Amount tx < 2 ^ 64 ->
  0 <= Transaction.Fee tx < 2 ^ 64 ->
  2 ^ 64 <= Transaction.Amount tx + Transaction.Fee tx ->
  Transaction.Amount tx + Transaction.Fee tx - 2 ^ 64
    <= State.GetBalance (Blockchain.State bc) (Transaction.From tx) < 2 ^ 64 ->
  Transaction.From tx <> Transaction.To tx ->
  0 <= State.GetBalance (Blockchain.State bc) (Transaction.To tx) ->
  State.GetBalance (Blockchain.State bc) (Transaction.To tx)
    + Transaction.Amount tx < 2 ^ 64 ->
  let s := Blockchain.State bc in
  let s' := (State.ApplyTransaction s tx).1 in
  uint64 (Transaction.Amount tx + Transaction.Fee tx)
    = Transaction.Amount tx + Transaction.Fee tx - 2 ^ 64 /\
  (Blockchain.AddTransaction bc tx).2 = Ok tt /\
  (State.ApplyTransaction s tx).2 = Ok tt /\
  State.GetBalance s' (Transaction.From tx)
    = State.GetBalance s (Transaction.From tx)
      - (Transaction.Amount tx + Transaction.Fee tx - 2 ^ 64) /\
  State.GetBalance s' (Transaction.To tx)
    = State.GetBalance s (Transaction.To tx) + Transaction.Amount tx /\
  totalSupply s' + Transaction.Fee tx = totalSupply s + 2 ^ 64.
Proof.
  intros Hv Hfresh HA HF Hsum Hfrom Hne Hto0 Hto s s'.
  assert (uint64 (Transaction.Amount tx + Transaction.Fee tx)
          = Transaction.Amount tx + Transaction.Fee tx - 2 ^ 64) as Hwrap.
  { unfold uint64. symmetry. apply (Z.mod_unique_pos _ _ 1); lia. }
  split; [exact Hwrap|]. split.
  { rewrite AddTransaction_admits; [reflexivity|exact Hv|exact Hfresh|].
    rewrite Hwrap. lia. }
  subst s'. unfold State.GetBalance in *. subst s.
  unfold State.ApplyTransaction.
  rewrite (Verify_Ok_not_coinbase tx Hv), Hwrap.
  destruct (Z.ltb_spec
              (State.index (State.Balances (Blockchain.State bc)) (Transaction.From tx))
              (Transaction.Amount tx + Transaction.Fee tx - 2 ^ 64)); [lia|].
  split; [reflexivity|].
  unfold totalSupply, State.add_assign, State.sub_assign, uint64. simpl.
  rewrite !sumAmounts_insert, !index_insert.
  repeat case_decide; try congruence.
  rewrite !Z.mod_small by lia. lia.
Qed.

End overflow.

Lemma required_total_wraps_witness :
  State.GetBalance (Blockchain.State Example.bc0) ExampleOverflow.mallory = 0 /\
  Transaction.Amount ExampleOverflow.mint = 2 ^ 64 - 1 /\
  Transaction.Fee ExampleOverflow.mint = 1 /\
  (@Blockchain.AddTransaction Toy.primitives Example.bc0 ExampleOverflow.mint).2 = Ok tt /\
  (State.ApplyTransaction (Blockchain.State Example.bc0) ExampleOverflow.mint).2 = Ok tt /\
  State.GetBalance
    (State.ApplyTransaction (Blockchain.State Example.bc0) ExampleOverflow.mint).1 "bob"
    = 2 ^ 64 - 1 /\
  totalSupply (Blockchain.State Example.bc0) = 1000000 /\
  totalSupply (State.ApplyTransaction (Blockchain.State Example.bc0) ExampleOverflow.mint).1
    + 1 = 1000000 + 2 ^ 64.
Proof.
  assert (@Transaction.Verify Toy.primitives ExampleOverflow.mint = Ok tt) as Hv
    by (vm_compute; reflexivity).
  assert (Blockchain.txPool Example.bc0 !! Transaction.ID ExampleOverflow.mint = None)
    as Hfresh by (vm_compute; reflexivity).
  assert (0 <= Transaction.Amount ExampleOverflow.mint < 2 ^ 64) as HA
    by (vm_compute; split; [discriminate | reflexivity]).
  assert (0 <= Transaction.Fee ExampleOverflow.mint < 2 ^ 64) as HF
    by (vm_compute; split; [discriminate | reflexivity]).
  assert (2 ^ 64 <= Transaction.Amount ExampleOverflow.mint
                    + Transaction.Fee ExampleOverflow.mint) as Hsum
    by (vm_compute; discriminate).
  assert (Transaction.Amount ExampleOverflow.mint + Transaction.Fee ExampleOverflow.mint
          - 2 ^ 64
          <= State.GetBalance (Blockchain.State Example.bc0)
               (Transaction.From ExampleOverflow.mint) < 2 ^ 64) as Hfrom
    by (vm_compute; split; [discriminate | reflexivity]).
  assert (Transaction.From ExampleOverflow.mint <> Transaction.To ExampleOverflow.mint)
    as Hne by (vm_compute; discriminate).
  assert (0 <= State.GetBalance (Blockchain.State Example.bc0)
                 (Transaction.To ExampleOverflow.mint)) as Hto0
    by (vm_compute; discriminate).
  assert (State.GetBalance (Blockchain.State Example.bc0)
            (Transaction.To ExampleOverflow.mint)
          + Transaction.Amount ExampleOverflow.mint < 2 ^ 64) as Hto1
    by (vm_compute; reflexivity).
  destruct (@required_total_wraps Toy.primitives Example.bc0 ExampleOverflow.mint
              Hv Hfresh HA HF Hsum Hfrom Hne Hto0 Hto1)
    as (_ & Hadd & Happly & _ & Hto & Htotal).
  assert (totalSupply (Blockchain.State Example.bc0) = 1000000) as Hsupply
    by (vm_compute; reflexivity).
  split; [vm_compute; reflexivity|].
  split; [vm_compute; reflexivity|].
  split; [vm_compute; reflexivity|].
  split; [exact Hadd|]. split; [exact Happly|].
  split; [exact Hto|].
  split; [exact Hsupply|].
  rewrite <- Hsupply. exact Htotal.
Defined.

(** ** C10: the id of a transaction is not checked against its fields *)

Section chosen_id.
Context `{Primitives}.

Lemma Public_of_key (privateKey : list byte) :
  length privateKey = PrivateKeySize ->
  crypto.Public privateKey = Ok (drop 32 privateKey).
Proof.
  intros Hlen. unfold crypto.Public, PrivateKeySize in *.
  rewrite decide_True by lia. f_equal.
  apply take_app_length'. rewrite length_drop. lia.
Qed.

Lemma append_length (a b : string) :
  String.length (a +:+ b) = (String.length a + String.length b)%nat.
Proof. induction a as [|c a IH]; [reflexivity|]. simpl. f_equal. exact IH. Qed.

Lemma append_inv_tail (a b r : string) : a +:+ r = b +:+ r -> a = b.
Proof.
  revert b. induction a as [|c a IH]; intros [|c' b] Heq.
  - reflexivity.
  - apply (f_equal String.length) in Heq. rewrite !append_length in Heq.
    cbn [String.length] in Heq. lia.
  - apply (f_equal String.length) in Heq. rewrite !append_length in Heq.
    cbn [String.length] in Heq. lia.
  - cbn in Heq. injection Heq as -> Heq. f_equal. by apply IH.
Qed.

Lemma bytes_inj (a b : string) : bytes a = bytes b -> a = b.
Proof.
  intros Heq. apply (f_equal string_of_list_byte) in Heq.
  unfold bytes in Heq. by rewrite !string_of_list_byte_of_string in Heq.
Qed.

(** The signed bytes determine the id: the same fields under another id
    give other bytes. *)
Lemma dataToSign_withID (tx : Transaction.t) (id : string) :
  Transaction.dataToSign (withID tx id) = Transaction.dataToSign tx ->
  id = Transaction.ID tx.
Proof.
  unfold Transaction.dataToSign, withID. cbn. intros Heq%bytes_inj.
  by apply append_inv_tail in Heq.
Qed.

Lemma concatIDs_snoc (txs : list Transaction.t) (tx : Transaction.t) (data : string) :
  Block.concatIDs (txs ++ [tx]) data = Block.concatIDs txs data +:+ Transaction.ID tx.
Proof. unfold Block.concatIDs. by rewrite fold_left_app. Qed.

(** C10.  Take a key pair whose signature of the payload verifies, and a
    transaction from the address of that key whose [ID] is any string
    other than [calculateID] of its fields.  Once signed, the transaction
    keeps that [ID]; its signature is the signature of [dataToSign], bytes
    that no other id gives for the same fields; and [Verify] accepts it.
    [AddTransaction] admits it under that [ID], and refuses it as a
    duplicate when the pool already has an entry with that [ID].  The hash
    of a block that ends with the transaction is taken over that [ID]. *)
Theorem Verify_accepts_chosen_ID (privateKey : list byte) (tx0 : Transaction.t) :
  length privateKey = PrivateKeySize ->
  length (ed25519_Sign privateKey (Transaction.dataToSign tx0)) = SignatureSize ->
  ed25519_Verify (drop 32 privateKey) (Transaction.dataToSign tx0)
    (ed25519_Sign privateKey (Transaction.dataToSign tx0)) = true ->
  Transaction.From tx0 = crypto.PublicKeyToAddress (drop 32 privateKey) ->
  Transaction.ID tx0 <> Transaction.calculateID tx0 ->
  exists tx,
    Transaction.Sign tx0 privateKey = Ok tx /\
    Transaction.ID tx = Transaction.ID tx0 /\
    Transaction.ID tx <> Transaction.calculateID tx /\
    Transaction.Signature tx
      = crypto.SignatureToHex (ed25519_Sign privateKey (Transaction.dataToSign tx)) /\
    (forall id,
       Transaction.dataToSign (withID tx id) = Transaction.dataToSign tx ->
       id = Transaction.ID tx0) /\
    Transaction.Verify tx = Ok tt /\
    (forall bc,
       Blockchain.txPool bc !! Transaction.ID tx0 = None ->
       State.GetBalance (Blockchain.State bc) (Transaction.From tx)
         >= uint64 (Transaction.Amount tx + Transaction.Fee tx) ->
       (Blockchain.AddTransaction bc tx).2 = Ok tt /\
       Blockchain.txPool (Blockchain.AddTransaction bc tx).1 !! Transaction.ID tx0
         = Some tx) /\
    (forall bc,
       is_Some (Blockchain.txPool bc !! Transaction.ID tx0) ->
       Blockchain.AddTransaction bc tx = (bc, Err (Errorf "transaction already exists"))) /\
    (forall index timestamp txs prevHash hash validator signature,
       Block.calculateHash
         (Block.mk index timestamp (txs ++ [tx]) prevHash hash validator signature)
       = crypto.HashString
           (bytes (Block.concatIDs txs
                     (fmt_d index +:+ fmt_d timestamp +:+ prevHash +:+ validator)
                   +:+ Transaction.ID tx0))).
Proof.
  intros Hkey Hsiglen Hverify Hfrom Hid.
  pose (signature := ed25519_Sign privateKey (Transaction.dataToSign tx0)).
  pose (tx := Transaction.mk (Transaction.ID tx0) (Transaction.From tx0)
                (Transaction.To tx0) (Transaction.Amount tx0) (Transaction.Fee tx0)
                (Transaction.Timestamp tx0) (crypto.SignatureToHex signature)
                (crypto.PublicKeyToHex (drop 32 privateKey))).
  assert (Transaction.Sign tx0 privateKey = Ok tx) as Hsign.
  { unfold Transaction.Sign. rewrite Public_of_key by done.
    unfold crypto.Sign. by rewrite decide_True by done. }
  assert (Transaction.Verify tx = Ok tt) as Hv.
  { unfold Transaction.Verify. cbn [tx Transaction.Signature Transaction.PublicKey
                                    Transaction.From].
    rewrite decide_False; last first.
    { apply EncodeToString_nonempty. intros E. fold signature in Hsiglen.
      rewrite E in Hsiglen. discriminate Hsiglen. }
    rewrite PublicKeyFromHex_ToHex
      by (rewrite length_drop, Hkey; reflexivity).
    rewrite decide_False by (intros Hne; by apply Hne).
    rewrite SignatureFromHex_ToHex by done.
    unfold crypto.Verify.
    rewrite decide_True by (rewrite length_drop, Hkey; reflexivity).
    rewrite bool_decide_eq_true_2 by done.
    change (Transaction.dataToSign tx) with (Transaction.dataToSign tx0).
    fold signature in Hverify. by rewrite Hverify. }
  exists tx. split; [exact Hsign|]. split; [reflexivity|]. split; [exact Hid|].
  split; [reflexivity|].
  split; [exact (dataToSign_withID tx)|].
  split; [exact Hv|]. split; [|split].
  - intros bc Hfresh Hbal.
    rewrite (AddTransaction_admits bc tx Hv Hfresh Hbal).
    split; [reflexivity|]. apply lookup_insert_eq.
  - intros bc Hdup. unfold Blockchain.AddTransaction. rewrite Hv.
    by rewrite decide_True by exact Hdup.
  - intros index timestamp txs prevHash hash validator sig.
    unfold Block.calculateHash. cbn [Block.Index Block.Timestamp Block.PrevHash
                                     Block.Validator Block.Transactions].
    by rewrite concatIDs_snoc.
Qed.

End chosen_id.

Lemma Verify_accepts_chosen_ID_witness :
  exists tx,
    @Transaction.Sign Toy.primitives Example.forged Toy.alice_key = Ok tx /\
    Transaction.ID tx = "deadbeef" /\
    Transaction.ID tx <> @Transaction.calculateID Toy.primitives tx /\
    @Transaction.Verify Toy.primitives tx = Ok tt /\
    (@Blockchain.AddTransaction Toy.primitives Example.bc0 tx).2 = Ok tt /\
    Blockchain.txPool (@Blockchain.AddTransaction Toy.primitives Example.bc0 tx).1
      !! "deadbeef" = Some tx /\
    @Block.calculateHash Toy.primitives
      (Block.mk 1 10 [tx] "00" EmptyString "carol" EmptyString)
    = @crypto.HashString Toy.primitives (bytes "11000caroldeadbeef").
Proof.
  destruct (@Verify_accepts_chosen_ID Toy.primitives Toy.alice_key Example.forged)
    as (tx & Hsign & Hid & Hne & _ & _ & Hv & Hadd & _ & Hhash).
  - vm_compute. reflexivity.
  - vm_compute. reflexivity.
  - vm_compute. reflexivity.
  - vm_compute. reflexivity.
  - vm_compute. discriminate.
  - exists tx. split; [exact Hsign|]. split; [exact Hid|]. split; [exact Hne|].
    split; [exact Hv|].
    assert ((@Blockchain.AddTransaction Toy.primitives Example.bc0 tx).2 = Ok tt /\
            Blockchain.txPool (@Blockchain.AddTransaction Toy.primitives Example.bc0 tx).1
              !! "deadbeef" = Some tx) as [Hok Hpool].
    { apply Hadd.
      + vm_compute. reflexivity.
      + injection Hsign as <-. vm_compute. discriminate. }
    split; [exact Hok|]. split; [exact Hpool|].
    exact (Hhash 1 10 [] "00" EmptyString "carol" EmptyString).
Defined.

(** ** C4: a transfer, from submission to the block that is not produced *)

Lemma index_singleton (k k' : string) (v : Z) :
  State.index {[k := v]} k' = if decide (k = k') then v else 0.
Proof. unfold State.index. rewrite lookup_singleton. by case_decide. Qed.

Lemma index_add_assign (m : gmap string Z) (k k' : string) (n : Z) :
  State.index (State.add_assign m k n) k'
  = if decide (k = k') then uint64 (State.index m k + n) else State.index m k'.
Proof. apply index_insert. Qed.

Lemma index_sub_assign (m : gmap string Z) (k k' : string) (n : Z) :
  State.index (State.sub_assign m k n) k'
  = if decide (k = k') then uint64 (State.index m k - n) else State.index m k'.
Proof. apply index_insert. Qed.

Section transfer.
Context `{Primitives}.

Lemma Sign_withSignature (b b' : Block.t) (privateKey : list byte) :
  Block.Sign b privateKey = Ok b' -> exists signature, b' = withSignature b signature.
Proof.
  unfold Block.Sign. destruct (crypto.Sign _ _); [|discriminate..].
  intros [= <-]. by eexists.
Qed.

Lemma genesis_state (genesisAddress : string) (initialSupply : Z) :
  Blockchain.State (Blockchain.NewBlockchain genesisAddress initialSupply)
  = State.mk {[genesisAddress := uint64 initialSupply]} ∅.
Proof. reflexivity. Qed.

(** What the statements of [CreateBlock] and of [AddBlock] compute on the
    run of the transfer, were the two calls to get past [GetLatestBlock]:
    [alice] has 999_950, [bob] has 100, the height is 2 and nothing is
    pending. *)
Lemma transfer_statements (alice bob : string) (tx : Transaction.t)
    (now : Z) (signature : string) :
  Transaction.Verify tx = Ok tt ->
  Transaction.From tx = alice ->
  Transaction.To tx = bob ->
  Transaction.Amount tx = 100 ->
  Transaction.Fee tx = 1 ->
  alice <> bob ->
  exists bc1 b bc2,
    Blockchain.AddTransaction (Blockchain.NewBlockchain alice 1000000) tx
      = (bc1, Ok tt) /\
    Blockchain.PendingTxs bc1 = [tx] /\
    Blockchain.assembleBlock now bc1 alice (Blockchain.GetLatestBlock bc1) = Ok b /\
    length (Block.Transactions b) = 2%nat /\
    Blockchain.appendBlock bc1 (withSignature b signature)
      (Blockchain.validateBlock bc1 (withSignature b signature)) = (bc2, Ok tt) /\
    State.GetBalance (Blockchain.State bc2) alice = 999950 /\
    State.GetBalance (Blockchain.State bc2) bob = 100 /\
    Blockchain.Height bc2 = 2 /\
    Blockchain.PendingTxs bc2 = [].
Proof.
  intros Hv Hfrom Hto Hamount Hfee Hne.
  pose proof (Verify_Ok_not_coinbase tx Hv) as Hnc.
  set (bc0 := Blockchain.NewBlockchain alice 1000000).
  (* admission *)
  assert (State.GetBalance (Blockchain.State bc0) (Transaction.From tx)
          >= uint64 (Transaction.Amount tx + Transaction.Fee tx)) as Hbal.
  { rewrite Hfrom, Hamount, Hfee. unfold bc0. rewrite genesis_state.
    unfold State.GetBalance, State.index. cbn [State.Balances].
    rewrite lookup_singleton_eq. by vm_compute. }
  rewrite (AddTransaction_admits bc0 tx Hv (lookup_empty _) Hbal).
  eexists _, _, _. split; [reflexivity|].
  split; [reflexivity|].
  (* creation *)
  split; [reflexivity|].
  split; [reflexivity|].
  (* commit *)
  assert (forall bc b,
            Blockchain.assembleBlock now bc alice (Blockchain.GetLatestBlock bc) = Ok b ->
            Blockchain.validateBlock bc (withSignature b signature)
            = Blockchain.verifyTransactions (Block.Transactions b)) as Hvalid.
  { intros bc b. unfold Blockchain.assembleBlock, Blockchain.validateBlock.
    destruct (Blockchain.GetLatestBlock bc) as [latest|]; [|discriminate].
    intros [= <-]. cbn.
    rewrite !decide_False by (intros Hneq; by apply Hneq). reflexivity. }
  unfold Blockchain.appendBlock. erewrite Hvalid by reflexivity.
  subst bc0.
  change (Blockchain.PendingTxs (Blockchain.NewBlockchain alice 1000000))
    with (@nil Transaction.t).
  cbn [Block.Transactions Block.NewBlock Blockchain.PendingTxs app
       Blockchain.verifyTransactions].
  change (Transaction.IsCoinbase (Transaction.mk _ EmptyString _ _ _ _ _ _)) with true.
  cbn [negb]. rewrite Hnc, Hv. cbn [negb].
  rewrite Clone_eq. cbn [Blockchain.State].
  rewrite genesis_state.
  unfold State.ApplyBlock, withSignature, Block.NewBlock, Block.TotalFees, Block.sumFees.
  cbn [Block.Transactions Block.Validator State.applyTransactions fold_left].
  unfold State.ApplyTransaction.
  change (Transaction.IsCoinbase (Transaction.mk _ EmptyString _ _ _ _ _ _)) with true.
  rewrite Hnc, Hfrom, Hto, Hamount, Hfee.
  cbn [negb Transaction.To Transaction.Amount State.Balances State.Stakes].
  rewrite index_add_assign, decide_True, index_singleton, decide_True by done.
  change (uint64 (uint64 1000000 + BlockReward) <? uint64 (100 + 1)) with false.
  change (0 <? uint64 (0 + 1)) with true.
  cbn iota beta.
  split; [reflexivity|].
  unfold State.GetBalance, State.AddBalance, Blockchain.Height.
  cbn [Blockchain.State State.Balances Blockchain.Blocks Blockchain.PendingTxs].
  rewrite !index_add_assign, !index_sub_assign, !index_add_assign, !index_singleton.
  rewrite !(decide_True (P := alice = alice)) by done.
  rewrite !(decide_False (P := alice = bob)) by done.
  rewrite !(decide_False (P := bob = alice)) by done.
  rewrite !(decide_True (P := bob = bob)) by done.
  repeat split; by vm_compute.
Qed.

(** C4 (the code departs from the claim).  From the genesis chain that
    gives [alice] 1_000_000, a transaction that verifies, from [alice], of
    amount 100 and fee 1, is admitted and is the only pending transaction.
    The call of [CreateBlock] for [alice] then stops at the read lock that
    [GetLatestBlock] asks for under the write lock of the caller, and so
    does every call of [AddBlock]: no block is produced, none is committed,
    and the chain stays at height 1 with the 1_000_000 of [alice]. *)
Theorem transfer_stops_at_CreateBlock (alice : string) (tx : Transaction.t) (now : Z) :
  Transaction.Verify tx = Ok tt ->
  Transaction.From tx = alice ->
  Transaction.Amount tx = 100 ->
  Transaction.Fee tx = 1 ->
  exists bc1,
    Blockchain.AddTransaction_mu sync.unlocked (Blockchain.NewBlockchain alice 1000000) tx
      = sync.Returns (bc1, Ok tt) sync.unlocked /\
    Blockchain.PendingTxs bc1 = [tx] /\
    Blockchain.CreateBlock now sync.unlocked bc1 alice
      = sync.Blocks (sync.mkRWMutex true 0) /\
    (forall b,
       Blockchain.AddBlock sync.unlocked bc1 b = sync.Blocks (sync.mkRWMutex true 0)) /\
    State.GetBalance (Blockchain.State bc1) alice = 1000000 /\
    Blockchain.Height bc1 = 1.
Proof.
  intros Hv Hfrom Hamount Hfee.
  set (bc0 := Blockchain.NewBlockchain alice 1000000).
  assert (State.GetBalance (Blockchain.State bc0) alice = 1000000) as Halice.
  { unfold bc0. rewrite genesis_state.
    unfold State.GetBalance, State.index. cbn [State.Balances].
    rewrite lookup_singleton_eq. by vm_compute. }
  assert (State.GetBalance (Blockchain.State bc0) (Transaction.From tx)
          >= uint64 (Transaction.Amount tx + Transaction.Fee tx)) as Hbal.
  { rewrite Hfrom, Hamount, Hfee, Halice. by vm_compute. }
  rewrite AddTransaction_mu_unlocked.
  rewrite (AddTransaction_admits bc0 tx Hv (lookup_empty _) Hbal).
  eexists. split; [reflexivity|]. split; [reflexivity|].
  split; [by rewrite CreateBlock_blocks|].
  split; [intros b; by rewrite AddBlock_blocks|].
  split; [exact Halice | reflexivity].
Qed.

End transfer.

Lemma transfer_stops_at_CreateBlock_witness :
  exists bc1,
    @Blockchain.AddTransaction_mu Toy.primitives sync.unlocked
      (@Blockchain.NewBlockchain Toy.primitives Example.alice 1000000) Example.transfer
      = sync.Returns (bc1, Ok tt) sync.unlocked /\
    Blockchain.PendingTxs bc1 = [Example.transfer] /\
    @Blockchain.CreateBlock Toy.primitives 10 sync.unlocked bc1 Example.alice
      = sync.Blocks (sync.mkRWMutex true 0) /\
    (forall b,
       @Blockchain.AddBlock Toy.primitives sync.unlocked bc1 b
       = sync.Blocks (sync.mkRWMutex true 0)) /\
    State.GetBalance (Blockchain.State bc1) Example.alice = 1000000 /\
    Blockchain.Height bc1 = 1.
Proof.
  apply (@transfer_stops_at_CreateBlock Toy.primitives Example.alice Example.transfer 10).
  - vm_compute. reflexivity.
  - vm_compute. reflexivity.
  - vm_compute. reflexivity.
  - vm_compute. reflexivity.
Defined.

(** * Further properties of the packages *)

(** ** Package crypto and package wallet: keys in hexadecimal *)

Lemma EncodeToString_length (bs : list byte) :
  String.length (EncodeToString bs) = (2 * length bs)%nat.
Proof. induction bs as [|b bs IH]; [reflexivity|]. cbn. rewrite IH. lia. Qed.

Lemma hexdigit_lower (b : byte) :
  isLowerHex (hexdigit (Byte.to_N b / 16)) = true /\
  isLowerHex (hexdigit (Byte.to_N b mod 16)) = true.
Proof. destruct b; vm_compute; auto. Qed.

Lemma EncodeToString_lower (bs : list byte) :
  forallb isLowerHex (list_ascii_of_string (EncodeToString bs)) = true.
Proof.
  induction bs as [|b bs IH]; [reflexivity|].
  destruct (hexdigit_lower b) as [Hhi Hlo].
  cbn [EncodeToString list_ascii_of_string forallb]. by rewrite Hhi, Hlo, IH.
Qed.

Lemma PrivateKeyFromHex_ToHex (privateKey : list byte) :
  length privateKey = PrivateKeySize ->
  crypto.PrivateKeyFromHex (crypto.PrivateKeyToHex privateKey) = Ok privateKey.
Proof.
  intros Hlen. unfold crypto.PrivateKeyFromHex, crypto.PrivateKeyToHex.
  rewrite DecodeString_EncodeToString. by rewrite decide_True.
Qed.

(** X1.  Decoding the hexadecimal form of a byte string gives the byte
    string back when it has the size of the key (32 bytes for a public
    key, 64 for a private key or a signature), and the size error
    otherwise. *)
Theorem hex_key_round_trip (bs : list byte) :
  crypto.PublicKeyFromHex (crypto.PublicKeyToHex bs) =
    (if decide (length bs = 32%nat) then Ok bs
     else Err (Errorf ("invalid public key size: " +:+ fmt_d (Z.of_nat (length bs))))) /\
  crypto.PrivateKeyFromHex (crypto.PrivateKeyToHex bs) =
    (if decide (length bs = 64%nat) then Ok bs
     else Err (Errorf ("invalid private key size: " +:+ fmt_d (Z.of_nat (length bs))))) /\
  crypto.SignatureFromHex (crypto.SignatureToHex bs) =
    (if decide (length bs = 64%nat) then Ok bs
     else Err (Errorf ("invalid signature size: " +:+ fmt_d (Z.of_nat (length bs))))).
Proof.
  unfold crypto.PublicKeyFromHex, crypto.PublicKeyToHex, crypto.PrivateKeyFromHex,
    crypto.PrivateKeyToHex, crypto.SignatureFromHex, crypto.SignatureToHex.
  by rewrite !DecodeString_EncodeToString.
Qed.

Section addresses.
Context `{Primitives}.

(** X2.  An address is forty lower-case hexadecimal digits, whatever the
    public key; a hash in hexadecimal is sixty-four. *)
Theorem address_format (publicKey data : list byte) :
  String.length (crypto.PublicKeyToAddress publicKey) = 40%nat /\
  forallb isLowerHex (list_ascii_of_string (crypto.PublicKeyToAddress publicKey)) = true /\
  String.length (crypto.HashString data) = 64%nat /\
  forallb isLowerHex (list_ascii_of_string (crypto.HashString data)) = true.
Proof.
  unfold crypto.PublicKeyToAddress, crypto.HashString, crypto.Hash.
  rewrite !EncodeToString_length, !EncodeToString_lower, length_take, !Sum256_size.
  by repeat split.
Qed.

(** X3.  The wallet of a key pair gives the key pair back: when the public
    key has 32 bytes and the private key 64, [GetKeyPair] on the wallet made
    from them returns the two keys unchanged, and the address of the wallet
    is the address of the public key. *)
Theorem wallet_round_trip (keyPair : KeyPair.t) :
  length (KeyPair.PublicKey keyPair) = 32%nat ->
  length (KeyPair.PrivateKey keyPair) = 64%nat ->
  Wallet.GetKeyPair (Wallet.fromKeyPair keyPair) = Ok keyPair /\
  Wallet.Address (Wallet.fromKeyPair keyPair)
    = crypto.PublicKeyToAddress (KeyPair.PublicKey keyPair).
Proof.
  intros Hpub Hpriv. destruct keyPair as [priv pub]. simpl in *.
  unfold Wallet.GetKeyPair, Wallet.fromKeyPair.
  cbn [Wallet.PublicKey Wallet.PrivateKey Wallet.Address KeyPair.PublicKey
       KeyPair.PrivateKey].
  by rewrite PublicKeyFromHex_ToHex, PrivateKeyFromHex_ToHex.
Qed.

End addresses.

Lemma wallet_round_trip_witness :
  @Wallet.GetKeyPair (@Wallet.fromKeyPair Toy.primitives ExampleStake.keyPair)
    = Ok ExampleStake.keyPair /\
  Wallet.Address (@Wallet.fromKeyPair Toy.primitives ExampleStake.keyPair)
    = "0a0a0a0a0a0a0a0a0a0a0a0a0a0a0a0a0a0a0a0a".
Proof.
  destruct (@wallet_round_trip Toy.primitives ExampleStake.keyPair) as [Hget Haddr].
  - vm_compute. reflexivity.
  - vm_compute. reflexivity.
  - split; [exact Hget|]. rewrite Haddr. vm_compute. reflexivity.
Defined.

(** ** Package blockchain: staking *)

Lemma sumAmounts_add_assign (m : gmap string Z) (k : string) (n : Z) :
  0 <= State.index m k + n < 2 ^ 64 ->
  sumAmounts (State.add_assign m k n) = sumAmounts m + n.
Proof.
  intros Hrange. unfold State.add_assign, uint64.
  rewrite sumAmounts_insert, Z.mod_small by done. lia.
Qed.

Lemma sumAmounts_sub_assign (m : gmap string Z) (k : string) (n : Z) :
  0 <= State.index m k - n < 2 ^ 64 ->
  sumAmounts (State.sub_assign m k n) = sumAmounts m - n.
Proof.
  intros Hrange. unfold State.sub_assign, uint64.
  rewrite sumAmounts_insert, Z.mod_small by done. lia.
Qed.

(** X4.  [AddStake] refuses an amount above the balance and leaves the
    state as it was; otherwise, for amounts that fit in 64 bits, it takes
    the amount from the balance of the address and adds it to its stake,
    touches no other address, and the total of balances and stakes is the
    same. *)
Theorem AddStake_moves_funds (s : State.t) (address : string) (amount : Z) :
  (State.GetBalance s address < amount ->
   State.AddStake s address amount = (s, Err (Errorf "insufficient balance to stake"))) /\
  (0 <= amount <= State.GetBalance s address ->
   State.GetBalance s address < 2 ^ 64 ->
   0 <= State.GetStake s address ->
   State.GetStake s address + amount < 2 ^ 64 ->
   (State.AddStake s address amount).2 = Ok tt /\
   State.GetBalance (State.AddStake s address amount).1 address
     = State.GetBalance s address - amount /\
   State.GetStake (State.AddStake s address amount).1 address
     = State.GetStake s address + amount /\
   (forall other, other <> address ->
      State.GetBalance (State.AddStake s address amount).1 other
        = State.GetBalance s other /\
      State.GetStake (State.AddStake s address amount).1 other
        = State.GetStake s other) /\
   totalSupply (State.AddStake s address amount).1 = totalSupply s).
Proof.
  unfold State.GetBalance, State.GetStake, State.AddStake. split.
  - intros Hlt. by rewrite (proj2 (Z.ltb_lt _ _) Hlt).
  - intros Hamount Hbal Hstake Hsum.
    rewrite (proj2 (Z.ltb_ge _ _)) by lia. cbn [fst snd State.Balances State.Stakes].
    split; [reflexivity|].
    rewrite index_sub_assign, index_add_assign, !decide_True by done.
    unfold uint64. rewrite !Z.mod_small by lia.
    split; [reflexivity|]. split; [reflexivity|]. split.
    + intros other Hne.
      by rewrite index_sub_assign, index_add_assign, !decide_False by done.
    + unfold totalSupply. cbn [State.Balances State.Stakes].
      rewrite sumAmounts_sub_assign, sumAmounts_add_assign by lia. lia.
Qed.

Lemma AddStake_moves_funds_witness :
  State.AddStake ExampleStake.s1 "bob" 71
    = (ExampleStake.s1, Err (Errorf "insufficient balance to stake")) /\
  State.GetBalance (State.AddStake ExampleStake.s1 "bob" 70).1 "bob" = 0 /\
  State.GetStake (State.AddStake ExampleStake.s1 "bob" 70).1 "bob" = 70 /\
  totalSupply (State.AddStake ExampleStake.s1 "bob" 70).1 = 6070.
Proof.
  destruct (AddStake_moves_funds ExampleStake.s1 "bob" 71) as [Hrefused _].
  destruct (AddStake_moves_funds ExampleStake.s1 "bob" 70) as [_ Hmoved].
  split; [apply Hrefused; vm_compute; reflexivity|].
  destruct Hmoved as (_ & Hbal & Hstake & _ & Htotal).
  - vm_compute. split; discriminate.
  - vm_compute. reflexivity.
  - vm_compute. discriminate.
  - vm_compute. reflexivity.
  - split; [rewrite Hbal; vm_compute; reflexivity|].
    split; [rewrite Hstake; vm_compute; reflexivity|].
    rewrite Htotal. vm_compute. reflexivity.
Defined.

(** X5.  Staking an amount and removing the same amount again gives back
    every balance and every stake: both calls succeed and the state
    answers [GetBalance] and [GetStake] as before.  (The maps themselves can
    differ: an address that had never staked now has a stake entry of 0.) *)
Theorem stake_round_trip (s : State.t) (address : string) (amount : Z) :
  0 <= amount <= State.GetBalance s address ->
  State.GetBalance s address < 2 ^ 64 ->
  0 <= State.GetStake s address ->
  State.GetStake s address + amount < 2 ^ 64 ->
  exists s1 s2,
    State.AddStake s address amount = (s1, Ok tt) /\
    State.RemoveStake s1 address amount = (s2, Ok tt) /\
    sameAccounts s s2.
Proof.
  unfold State.GetBalance, State.GetStake. intros Hamount Hbal Hstake Hsum.
  eexists _, _. split.
  { unfold State.AddStake. by rewrite (proj2 (Z.ltb_ge _ _)) by lia. }
  unfold State.RemoveStake. cbn [State.Balances State.Stakes].
  rewrite index_add_assign, decide_True by done.
  unfold uint64 at 1. rewrite Z.mod_small by lia.
  rewrite (proj2 (Z.ltb_ge _ _)) by lia.
  split; [reflexivity|].
  intros other. unfold State.GetBalance, State.GetStake.
  cbn [State.Balances State.Stakes].
  repeat (rewrite index_add_assign || rewrite index_sub_assign).
  destruct (decide (address = other)) as [<-|Hne].
  - unfold uint64.
    rewrite (Z.mod_small (State.index (State.Balances s) address - amount)) by lia.
    rewrite (Z.mod_small (State.index (State.Stakes s) address + amount)) by lia.
    rewrite !decide_True by done.
    rewrite !Z.mod_small by lia. split; lia.
  - by split.
Qed.

Lemma stake_round_trip_witness :
  exists s1 s2,
    State.AddStake ExampleStake.s1 "bob" 70 = (s1, Ok tt) /\
    State.RemoveStake s1 "bob" 70 = (s2, Ok tt) /\
    sameAccounts ExampleStake.s1 s2 /\
    State.Stakes ExampleStake.s1 !! "bob" = None /\
    State.Stakes s2 !! "bob" = Some 0.
Proof.
  destruct (stake_round_trip ExampleStake.s1 "bob" 70) as (s1 & s2 & H1 & H2 & Hsame).
  - vm_compute. split; discriminate.
  - vm_compute. reflexivity.
  - vm_compute. discriminate.
  - vm_compute. reflexivity.
  - exists s1, s2. split; [exact H1|]. split; [exact H2|]. split; [exact Hsame|].
    split; [vm_compute; reflexivity|].
    injection H1 as <-. injection H2 as <-. vm_compute. reflexivity.
Defined.

(** Sums taken by a loop that adds modulo [2^64]. *)
Lemma wrapping_sum {A} (amount : A -> Z) (l : list A) (start : Z) :
  fold_left (fun total x => uint64 (total + amount x)) l (uint64 start)
  = uint64 (start + foldr (fun x total => amount x + total) 0 l).
Proof.
  revert start. induction l as [|x l IH]; intros start; simpl.
  - by rewrite Z.add_0_r.
  - rewrite IH. unfold uint64. by rewrite <- Z.add_assoc, Zplus_mod_idemp_l.
Qed.

Lemma foldr_sum_perm {A} (amount : A -> Z) (l l' : list A) :
  l ≡ₚ l' ->
  foldr (fun x total => amount x + total) 0 l
  = foldr (fun x total => amount x + total) 0 l'.
Proof.
  induction 1 as [|x l l' _ IH|x y l|l l' l'' _ IH1 _ IH2]; simpl; lia.
Qed.

Lemma sumAmounts_foldr (m : gmap string Z) :
  sumAmounts m = foldr (fun (kv : string * Z) total => kv.2 + total) 0 (map_to_list m).
Proof.
  unfold sumAmounts. rewrite map_fold_foldr.
  generalize (map_to_list m). intros l.
  induction l as [|[k v] l IH]; [reflexivity|]. cbn. by rewrite IH.
Qed.

(** X6.  [TotalStaked] is the sum of the stakes modulo [2^64], in whatever
    order [range] yields the entries of the map. *)
Theorem TotalStaked_any_order (s : State.t) (entries : list (string * Z)) :
  entries ≡ₚ map_to_list (State.Stakes s) ->
  State.sumEntries entries = uint64 (sumAmounts (State.Stakes s)) /\
  State.sumEntries entries = State.TotalStaked s.
Proof.
  intros Hperm.
  assert (forall l, l ≡ₚ map_to_list (State.Stakes s) ->
            State.sumEntries l = uint64 (sumAmounts (State.Stakes s))) as Hsum.
  { intros l Hl. unfold State.sumEntries.
    change 0 with (uint64 0) at 1.
    rewrite (wrapping_sum (fun kv : string * Z => kv.2)), Z.add_0_l.
    by rewrite (foldr_sum_perm _ _ _ Hl), sumAmounts_foldr. }
  split; [by apply Hsum|].
  rewrite (Hsum entries Hperm). symmetry. by apply Hsum.
Qed.

Lemma TotalStaked_any_order_witness :
  State.sumEntries [("bob", 2 ^ 64 - 1); ("alice", 1000)] = 999 /\
  State.TotalStaked (State.mk ∅ {["alice" := 1000; "bob" := 2 ^ 64 - 1]}) = 999.
Proof.
  destruct (TotalStaked_any_order
              (State.mk ∅ {["alice" := 1000; "bob" := 2 ^ 64 - 1]})
              [("bob", 2 ^ 64 - 1); ("alice", 1000)]) as [Hsum Hsame].
  - cbn [State.Stakes].
    rewrite map_to_list_insert by (vm_compute; reflexivity).
    rewrite map_to_list_singleton. apply perm_swap.
  - split; [vm_compute; reflexivity|].
    rewrite <- Hsame. vm_compute. reflexivity.
Defined.

(** X7.  [GetValidators] of the state returns, without repetition, exactly
    the addresses whose stake is positive, in whatever order [range] yields
    the entries. *)
Theorem State_GetValidators_positive (s : State.t) (validators : list string) :
  State.GetValidators s validators ->
  NoDup validators /\
  forall address, address ∈ validators <-> 0 < State.GetStake s address.
Proof.
  intros (entries & Hperm & ->).
  assert (NoDup entries.*1) as Hnd
    by (rewrite Hperm; apply NoDup_fst_map_to_list).
  assert (forall k v, (k, v) ∈ entries <-> State.Stakes s !! k = Some v) as Hin
    by (intros k v; rewrite Hperm; apply elem_of_map_to_list).
  assert (forall address, address ∈ State.positiveStakes entries <->
            exists v, (address, v) ∈ entries /\ 0 < v) as Hmem.
  { intros address. unfold State.positiveStakes. clear.
    induction entries as [|[k v] entries IH]; simpl.
    - split; [by intros ?%elem_of_nil | by intros (v & ?%elem_of_nil & _)].
    - destruct (Z.ltb_spec 0 v); simpl.
      + rewrite elem_of_cons, IH. split.
        * intros [->|(v' & Hv' & Hpos)]; [exists v | exists v'];
            (split; [|done]); [by left | by right].
        * intros (v' & [[= -> ->]|Hv']%elem_of_cons & Hpos); [by left|].
          right. by exists v'.
      + rewrite IH. split.
        * intros (v' & Hv' & Hpos). exists v'. split; [by right | done].
        * intros (v' & [[= -> ->]|Hv']%elem_of_cons & Hpos); [lia|]. by exists v'. }
  split.
  - unfold State.positiveStakes. clear -Hnd.
    induction entries as [|[k v] entries IH]; simpl; [constructor|].
    apply NoDup_cons in Hnd as [Hk Hnd]. simpl in Hk.
    assert (k ∉ (List.filter (fun kv : string * Z => 0 <? kv.2) entries).*1) as Hk'.
    { intros Hin. apply Hk. clear -Hin.
      induction entries as [|[k' v'] entries IH]; simpl in *; [done|].
      destruct (0 <? v'); simpl in *.
      - apply elem_of_cons in Hin as [->|Hin]; [by left | right; auto].
      - right; auto. }
    destruct (0 <? v); simpl; [apply NoDup_cons; auto | auto].
  - intros address. rewrite Hmem. unfold State.GetStake, State.index. split.
    + intros (v & Hv%Hin & Hpos). by rewrite Hv.
    + destruct (State.Stakes s !! address) as [v|] eqn:Hlook; simpl; [|lia].
      intros Hpos. exists v. split; [by apply Hin | done].
Qed.

Lemma State_GetValidators_positive_witness :
  NoDup ["alice"] /\
  forall address,
    address ∈ ["alice"]
    <-> 0 < State.GetStake (State.mk ∅ {["alice" := 1000; "bob" := 0]}) address.
Proof.
  apply (State_GetValidators_positive (State.mk ∅ {["alice" := 1000; "bob" := 0]})).
  exists [("bob", 0); ("alice", 1000)]. split; [|reflexivity].
  cbn [State.Stakes].
  rewrite map_to_list_insert by (vm_compute; reflexivity).
  rewrite map_to_list_singleton. apply perm_swap.
Defined.

(** ** Package blockchain: the supply of tokens *)

Lemma amountsInRange_insert (m : gmap string Z) (k : string) (z : Z) :
  amountsInRange m -> amountsInRange (<[k := uint64 z]> m).
Proof.
  intros Hm. apply map_Forall_insert_2; [|done].
  apply Z.mod_pos_bound. lia.
Qed.

Lemma sumAmounts_nonneg (m : gmap string Z) : amountsInRange m -> 0 <= sumAmounts m.
Proof.
  intros Hm. rewrite sumAmounts_foldr.
  apply map_Forall_to_list in Hm.
  induction Hm as [|[k v] l [Hv _] _ IH]; simpl in *; lia.
Qed.

Lemma index_le_sum (m : gmap string Z) (k : string) :
  amountsInRange m -> 0 <= State.index m k <= sumAmounts m.
Proof.
  intros Hm. pose proof (sumAmounts_nonneg m Hm) as Hsum.
  unfold State.index. destruct (m !! k) as [v|] eqn:Hk; simpl; [|lia].
  pose proof (sumAmounts_nonneg (delete k m) (map_Forall_delete _ _ _ Hm)) as Hrest.
  pose proof (sumAmounts_insert (delete k m) k v) as Hins.
  rewrite insert_delete_id in Hins by done.
  unfold State.index in Hins. rewrite lookup_delete_eq in Hins. simpl in Hins.
  destruct (Hm k v Hk). lia.
Qed.

Lemma minted_nonneg (txs : list Transaction.t) :
  Forall amountsFit txs -> 0 <= minted txs.
Proof.
  induction 1 as [|tx txs (HA & _ & _) _ IH]; simpl; [lia|].
  destruct (Transaction.IsCoinbase tx); lia.
Qed.

(** One transaction: the balances stay in range, and their sum grows by the
    amount of a coinbase and shrinks by the fee of a transfer. *)
Lemma ApplyTransaction_supply (s : State.t) (tx : Transaction.t) :
  amountsInRange (State.Balances s) ->
  amountsFit tx ->
  sumAmounts (State.Balances s)
    + (if Transaction.IsCoinbase tx then Transaction.Amount tx else 0) < 2 ^ 64 ->
  (State.ApplyTransaction s tx).2 = Ok tt ->
  amountsInRange (State.Balances (State.ApplyTransaction s tx).1) /\
  State.Stakes (State.ApplyTransaction s tx).1 = State.Stakes s /\
  sumAmounts (State.Balances (State.ApplyTransaction s tx).1)
    = sumAmounts (State.Balances s)
      + (if Transaction.IsCoinbase tx then Transaction.Amount tx
         else - Transaction.Fee tx).
Proof.
  intros Hm (HA & HF & Hfit) Hsum. unfold State.ApplyTransaction.
  pose proof (index_le_sum (State.Balances s)) as Hidx.
  destruct (Transaction.IsCoinbase tx).
  - intros _. cbn [fst State.Balances State.Stakes].
    split; [by apply amountsInRange_insert|]. split; [reflexivity|].
    apply sumAmounts_add_assign. specialize (Hidx (Transaction.To tx) Hm). lia.
  - assert (uint64 (Transaction.Amount tx + Transaction.Fee tx)
            = Transaction.Amount tx + Transaction.Fee tx) as ->
      by (apply Z.mod_small; lia).
    destruct (Z.ltb_spec (State.index (State.Balances s) (Transaction.From tx))
                (Transaction.Amount tx + Transaction.Fee tx)); [discriminate|].
    intros _. cbn [fst State.Balances State.Stakes].
    split; [by apply amountsInRange_insert, amountsInRange_insert|].
    split; [reflexivity|].
    set (m1 := State.sub_assign (State.Balances s) (Transaction.From tx)
                 (Transaction.Amount tx + Transaction.Fee tx)).
    assert (sumAmounts m1 = sumAmounts (State.Balances s)
                            - (Transaction.Amount tx + Transaction.Fee tx)) as Hm1.
    { apply sumAmounts_sub_assign. specialize (Hidx (Transaction.From tx) Hm). lia. }
    assert (amountsInRange m1) as Hr1 by (by apply amountsInRange_insert).
    pose proof (index_le_sum m1 (Transaction.To tx) Hr1).
    rewrite sumAmounts_add_assign by lia. lia.
Qed.

Lemma applyTransactions_supply (txs : list Transaction.t) (s : State.t) :
  amountsInRange (State.Balances s) ->
  Forall amountsFit txs ->
  sumAmounts (State.Balances s) + minted txs < 2 ^ 64 ->
  (State.applyTransactions s txs).2 = Ok tt ->
  amountsInRange (State.Balances (State.applyTransactions s txs).1) /\
  State.Stakes (State.applyTransactions s txs).1 = State.Stakes s /\
  sumAmounts (State.Balances (State.applyTransactions s txs).1)
    = sumAmounts (State.Balances s) + minted txs - feesPaid txs.
Proof.
  revert s. induction txs as [|tx txs IH]; intros s Hm Hfit Hsum; simpl.
  - intros _. split; [done|]. split; [done|]. lia.
  - apply Forall_cons in Hfit as [Htx Hfit].
    pose proof (minted_nonneg txs Hfit) as Hrest.
    pose proof (ApplyTransaction_supply s tx Hm Htx) as Hstep.
    destruct (State.ApplyTransaction s tx) as [s1 [[]|e|m]]; simpl in *;
      try discriminate.
    destruct Hstep as (Hm1 & Hstk1 & Hsum1);
      [destruct (Transaction.IsCoinbase tx); lia | reflexivity |].
    intros Hok. destruct Htx as (HA & HF & _).
    destruct (IH s1 Hm1 Hfit) as (Hm2 & Hstk2 & Hsum2);
      [destruct (Transaction.IsCoinbase tx); lia | exact Hok |].
    split; [exact Hm2|]. split; [congruence|].
    rewrite Hsum2, Hsum1. destruct (Transaction.IsCoinbase tx); lia.
Qed.

Lemma feesPaid_nonneg (txs : list Transaction.t) :
  Forall amountsFit txs -> 0 <= feesPaid txs.
Proof.
  induction 1 as [|tx txs (_ & HF & _) _ IH]; simpl; [lia|].
  destruct (Transaction.IsCoinbase tx); lia.
Qed.

Lemma sumFees_exact (txs : list Transaction.t) (start : Z) :
  Forall amountsFit txs ->
  0 <= start -> start + feesPaid txs < 2 ^ 64 ->
  Block.sumFees txs start = start + feesPaid txs.
Proof.
  unfold Block.sumFees. intros Hfit. revert start.
  induction Hfit as [|tx txs (_ & HF & _) Hfit IH]; intros start H0 Hlt; simpl in *.
  - lia.
  - pose proof (feesPaid_nonneg txs Hfit) as Hrest.
    destruct (Transaction.IsCoinbase tx); simpl.
    + rewrite IH by lia. lia.
    + unfold uint64. rewrite Z.mod_small by lia. rewrite IH by lia. lia.
Qed.

(** X8.  On a state of [uint64] balances, a block whose transactions have
    amounts and fees that fit, applied without error, creates exactly the
    amounts of its coinbase transactions: the total of balances and stakes
    grows by that sum (provided the new total fits in 64 bits), the fees
    taken from the senders being credited to the validator of the block. *)
Theorem ApplyBlock_supply (s : State.t) (b : Block.t) :
  amountsInRange (State.Balances s) ->
  Forall amountsFit (Block.Transactions b) ->
  sumAmounts (State.Balances s) + minted (Block.Transactions b) < 2 ^ 64 ->
  (State.ApplyBlock s b).2 = Ok tt ->
  totalSupply (State.ApplyBlock s b).1 = totalSupply s + minted (Block.Transactions b) /\
  amountsInRange (State.Balances (State.ApplyBlock s b).1) /\
  State.Stakes (State.ApplyBlock s b).1 = State.Stakes s.
Proof.
  intros Hm Hfit Hsum. unfold State.ApplyBlock.
  pose proof (applyTransactions_supply (Block.Transactions b) s Hm Hfit Hsum) as Hloop.
  destruct (State.applyTransactions s (Block.Transactions b)) as [s1 [[]|e|m]];
    simpl in *; try discriminate.
  destruct Hloop as (Hm1 & Hstk1 & Hsum1); [reflexivity|].
  pose proof (sumAmounts_nonneg _ Hm1) as Hpos.
  pose proof (feesPaid_nonneg _ Hfit) as Hfees.
  unfold Block.TotalFees.
  rewrite (sumFees_exact _ 0 Hfit) by lia. rewrite Z.add_0_l.
  destruct (Z.ltb_spec 0 (feesPaid (Block.Transactions b))); intros _;
    unfold State.AddBalance, totalSupply; cbn [fst State.Balances State.Stakes].
  - split; [|split; [by apply amountsInRange_insert | done]].
    pose proof (index_le_sum (State.Balances s1) (Block.Validator b) Hm1).
    rewrite sumAmounts_add_assign by lia. rewrite Hstk1. lia.
  - split; [|split; done]. rewrite Hstk1. lia.
Qed.

Lemma ApplyBlock_supply_witness :
  totalSupply Example.state101 = 101 /\
  minted (Block.Transactions ExampleSupply.block) = 50 /\
  totalSupply (State.ApplyBlock Example.state101 ExampleSupply.block).1 = 151 /\
  State.GetBalance (State.ApplyBlock Example.state101 ExampleSupply.block).1 "carol" = 51.
Proof.
  assert (totalSupply Example.state101 = 101) as Hbefore by (vm_compute; reflexivity).
  assert (minted (Block.Transactions ExampleSupply.block) = 50) as Hminted
    by (vm_compute; reflexivity).
  destruct (ApplyBlock_supply Example.state101 ExampleSupply.block) as (Htotal & _ & _).
  - apply map_Forall_insert_2; [vm_compute; split; [discriminate|reflexivity]|].
    apply map_Forall_empty.
  - repeat constructor; vm_compute; discriminate || reflexivity.
  - vm_compute. reflexivity.
  - vm_compute. reflexivity.
  - split; [exact Hbefore|]. split; [exact Hminted|].
    split; [rewrite Htotal, Hbefore, Hminted; reflexivity|].
    vm_compute. reflexivity.
Defined.

(** ** Package blockchain: validation of a block *)

Section validation.
Context `{Primitives}.

Lemma verifyTransactions_allVerify (txs : list Transaction.t) :
  Blockchain.verifyTransactions txs = Ok tt <-> allVerify txs.
Proof.
  unfold allVerify. induction txs as [|tx txs IH]; simpl.
  - split; [constructor | done].
  - rewrite Forall_cons, <- IH.
    destruct (Transaction.IsCoinbase tx); simpl.
    + split; [by split | by intros [_ ?]].
    + destruct (Transaction.Verify tx) as [[]|e|m]; split;
        try discriminate; try (by split); try (by intros [_ ?]);
        intros [Hv _]; by specialize (Hv eq_refl).
Qed.

Lemma Block_verifyTransactions_eq (txs : list Transaction.t) :
  Block.verifyTransactions txs = Blockchain.verifyTransactions txs.
Proof.
  induction txs as [|tx txs IH]; simpl; [reflexivity|].
  rewrite IH. reflexivity.
Qed.

Lemma validateBlock_follows (bc : Blockchain.t) (b : Block.t) :
  Blockchain.validateBlock bc b = Ok tt <->
  exists latest,
    Blockchain.GetLatestBlock bc = Some latest /\
    follows latest b /\ allVerify (Block.Transactions b).
Proof.
  unfold Blockchain.validateBlock, follows.
  destruct (Blockchain.GetLatestBlock bc) as [latest|]; last first.
  { split; [discriminate | by intros (? & ? & _)]. }
  split.
  - destruct (decide (Block.Index b <> _)) as [|Hi%dec_stable]; [discriminate|].
    destruct (decide (Block.PrevHash b <> _)) as [|Hp%dec_stable]; [discriminate|].
    destruct (decide (Block.Hash b <> _)) as [|Hh%dec_stable]; [discriminate|].
    intros Hv%verifyTransactions_allVerify. by exists latest.
  - intros (? & [= <-] & (Hi & Hp & Hh) & Hv%verifyTransactions_allVerify).
    rewrite !decide_False by (intros Hne; by apply Hne). exact Hv.
Qed.

(** X9.  [validateBlock] accepts a block exactly when the chain has a
    latest block, the block has the next index, its [PrevHash] is the hash
    of the latest block, its [Hash] is the hash recomputed from its fields,
    and each of its transactions that is not a coinbase verifies. *)
Theorem validateBlock_accepts_iff (bc : Blockchain.t) (b : Block.t) :
  Blockchain.validateBlock bc b = Ok tt <->
  exists latest,
    Blockchain.GetLatestBlock bc = Some latest /\
    Block.Index b = uint64 (Block.Index latest + 1) /\
    Block.PrevHash b = Block.Hash latest /\
    Block.Hash b = Block.calculateHash b /\
    forall tx, tx ∈ Block.Transactions b ->
      Transaction.IsCoinbase tx = false -> Transaction.Verify tx = Ok tt.
Proof.
  rewrite validateBlock_follows. unfold follows, allVerify. split.
  - intros (latest & Hlatest & (Hi & Hp & Hh) & Hv). exists latest.
    rewrite Forall_forall in Hv. by repeat split.
  - intros (latest & Hlatest & Hi & Hp & Hh & Hv). exists latest.
    rewrite Forall_forall. by repeat split.
Qed.

(** What the statements of [AddBlock] do, by their outcome. *)
Lemma appendBlock_cases (bc : Blockchain.t) (b : Block.t) :
  (Blockchain.validateBlock bc b = Ok tt /\
   exists s',
     State.ApplyBlock (Blockchain.State bc) b = (s', Ok tt) /\
     Blockchain.appendBlock bc b (Blockchain.validateBlock bc b) =
       (Blockchain.mk (Blockchain.Blocks bc ++ [b]) [] s' (Blockchain.GenesisAddress bc)
          (Blockchain.removeFromPool (Block.Transactions b) (Blockchain.txPool bc)),
        Ok tt)) \/
  ((Blockchain.appendBlock bc b (Blockchain.validateBlock bc b)).2 <> Ok tt /\
   (Blockchain.appendBlock bc b (Blockchain.validateBlock bc b)).1 = bc).
Proof.
  unfold Blockchain.appendBlock. rewrite Clone_eq.
  destruct (Blockchain.validateBlock bc b) as [[]|e|m]; [|by right..].
  destruct (State.ApplyBlock (Blockchain.State bc) b) as [s' [[]|e|m]];
    [left; split; [done|]; by exists s' | by right..].
Qed.

Lemma AddTransaction_cases (bc : Blockchain.t) (tx : Transaction.t) :
  (Transaction.Verify tx = Ok tt /\
   Blockchain.txPool bc !! Transaction.ID tx = None /\
   State.GetBalance (Blockchain.State bc) (Transaction.From tx)
     >= uint64 (Transaction.Amount tx + Transaction.Fee tx) /\
   Blockchain.AddTransaction bc tx =
     (Blockchain.mk (Blockchain.Blocks bc) (Blockchain.PendingTxs bc ++ [tx])
        (Blockchain.State bc) (Blockchain.GenesisAddress bc)
        (<[Transaction.ID tx := tx]> (Blockchain.txPool bc)),
      Ok tt)) \/
  ((Blockchain.AddTransaction bc tx).2 <> Ok tt /\ (Blockchain.AddTransaction bc tx).1 = bc).
Proof.
  unfold Blockchain.AddTransaction.
  destruct (Transaction.Verify tx) as [[]|e|m]; [|by right..].
  destruct (decide (is_Some _)) as [|Hfresh%eq_None_not_Some]; [by right|].
  destruct (Z.ltb_spec
              (State.GetBalance (Blockchain.State bc) (Transaction.From tx))
              (uint64 (Transaction.Amount tx + Transaction.Fee tx)));
    [by right | left; repeat split; [done | lia]].
Qed.

Lemma genesis_linked (genesisAddress : string) (initialSupply : Z) :
  chainLinked (Blockchain.NewBlockchain genesisAddress initialSupply).
Proof.
  split; [discriminate|]. split.
  - intros [|i] b; [|by destruct i]. intros [= <-].
    split; [reflexivity|]. split; [reflexivity|].
    repeat constructor. discriminate.
  - intros [|i] p b; [discriminate | by destruct i].
Qed.

Lemma uint64_succ (n : nat) :
  uint64 (uint64 (Z.of_nat n) + 1) = uint64 (Z.of_nat (S n)).
Proof.
  unfold uint64. rewrite Zplus_mod_idemp_l. f_equal. lia.
Qed.

Lemma appendBlock_linked (bc : Blockchain.t) (b : Block.t) :
  chainLinked bc ->
  chainLinked (Blockchain.appendBlock bc b (Blockchain.validateBlock bc b)).1.
Proof.
  intros Hlinked.
  destruct (appendBlock_cases bc b) as [[Hvalid (s' & _ & ->)]|[_ ->]]; [|done].
  destruct Hlinked as (Hne & Hblocks & Hlinks).
  apply validateBlock_follows in Hvalid as (latest & Hlatest & (Hi & Hp & Hh) & Hv).
  unfold Blockchain.GetLatestBlock in Hlatest. rewrite last_lookup in Hlatest.
  set (blocks := Blockchain.Blocks bc) in *.
  assert (0 < length blocks)%nat as Hlen by (destruct blocks; [done | simpl; lia]).
  unfold chainLinked. cbn [fst Blockchain.Blocks]. split; [by destruct blocks|]. split.
  - intros i x Hx. apply lookup_app_Some in Hx as [Hx|[Hge Hx]]; [by apply Hblocks|].
    apply list_lookup_singleton_Some in Hx as [Hi0 <-].
    split; [|by split].
    destruct (Hblocks _ _ Hlatest) as (Hil & _).
    rewrite Hi, Hil, uint64_succ. f_equal. f_equal. lia.
  - intros i p x Hpx Hx.
    apply lookup_app_Some in Hx as [Hx|[Hge Hx]].
    + apply (Hlinks i); [|done].
      apply lookup_lt_Some in Hx. by rewrite lookup_app_l in Hpx by lia.
    + apply list_lookup_singleton_Some in Hx as [Hi0 <-].
      assert (i = pred (length blocks)) as -> by lia.
      rewrite lookup_app_l in Hpx by lia. by simplify_eq.
Qed.

Lemma linked_isValidFrom (first : Block.t) (rest : list Block.t) :
  (forall i p c, (first :: rest) !! i = Some p -> (first :: rest) !! S i = Some c ->
     follows p c) ->
  Blockchain.isValidFrom first rest = true.
Proof.
  revert first. induction rest as [|c rest IH]; intros first Hall; [reflexivity|].
  destruct (Hall 0%nat first c eq_refl eq_refl) as (Hi & Hp & Hh).
  cbn [Blockchain.isValidFrom].
  rewrite !decide_False by (intros Hne; by apply Hne).
  apply IH. intros i p x Hpx Hx. by apply (Hall (S i)).
Qed.

Lemma linked_IsValid (bc : Blockchain.t) : chainLinked bc -> Blockchain.IsValid bc = true.
Proof.
  intros (_ & Hblocks & Hlinks). unfold Blockchain.IsValid.
  destruct (Blockchain.Blocks bc) as [|first rest]; [reflexivity|].
  apply linked_isValidFrom. intros i p c Hp Hc.
  destruct (Hblocks _ _ Hp) as (Hip & _). destruct (Hblocks _ _ Hc) as (Hic & Hh & _).
  split; [|split; [by eapply Hlinks | done]].
  by rewrite Hic, Hip, uint64_succ.
Qed.

Lemma removeFromPool_lookup_Some (txs : list Transaction.t)
    (pool : gmap string Transaction.t) (id : string) (tx : Transaction.t) :
  Blockchain.removeFromPool txs pool !! id = Some tx -> pool !! id = Some tx.
Proof.
  unfold Blockchain.removeFromPool. revert pool.
  induction txs as [|x txs IH]; intros pool; simpl; [done|].
  intros Hin%IH. by apply lookup_delete_Some in Hin as [_ ?].
Qed.

Lemma removeFromPool_removed (txs : list Transaction.t)
    (pool : gmap string Transaction.t) (tx : Transaction.t) :
  tx ∈ txs -> Blockchain.removeFromPool txs pool !! Transaction.ID tx = None.
Proof.
  unfold Blockchain.removeFromPool. revert pool.
  induction txs as [|x txs IH]; intros pool Hin; simpl; [by apply elem_of_nil in Hin|].
  apply elem_of_cons in Hin as [->|Hin]; [|by apply IH].
  apply eq_None_not_Some. intros [y Hy].
  apply (removeFromPool_lookup_Some txs) in Hy. by rewrite lookup_delete_eq in Hy.
Qed.

Lemma genesis_indexed (genesisAddress : string) (initialSupply : Z) :
  mempoolIndexed (Blockchain.NewBlockchain genesisAddress initialSupply).
Proof.
  unfold mempoolIndexed. cbn [Blockchain.NewBlockchain Blockchain.PendingTxs
                              Blockchain.txPool].
  split; [constructor|]. split; [constructor|]. split.
  - by intros tx ?%elem_of_nil.
  - intros id tx Hin. by rewrite lookup_empty in Hin.
Qed.

Lemma appendBlock_indexed (bc : Blockchain.t) (b : Block.t) :
  mempoolIndexed bc ->
  mempoolIndexed (Blockchain.appendBlock bc b (Blockchain.validateBlock bc b)).1.
Proof.
  intros Hindexed.
  destruct (appendBlock_cases bc b) as [[_ (s' & _ & ->)]|[_ ->]]; [|done].
  destruct Hindexed as (_ & _ & _ & Hpool). cbn [fst].
  split; [constructor|]. split; [constructor|]. split.
  - by intros tx ?%elem_of_nil.
  - intros id tx Hin%removeFromPool_lookup_Some. by apply Hpool.
Qed.

Lemma AddTransaction_indexed (bc : Blockchain.t) (tx : Transaction.t) :
  mempoolIndexed bc -> mempoolIndexed (Blockchain.AddTransaction bc tx).1.
Proof.
  intros Hindexed.
  destruct (AddTransaction_cases bc tx) as [(Hv & Hfresh & _ & ->)|[_ ->]]; [|done].
  destruct Hindexed as (Hverify & Hnodup & Hpending & Hpool). cbn [fst].
  unfold mempoolIndexed. cbn [Blockchain.PendingTxs Blockchain.txPool].
  split; [apply Forall_app; split; [done | by repeat constructor]|]. split.
  - rewrite fmap_app. apply NoDup_app. split; [done|]. split; [|by apply NoDup_singleton].
    intros id Hid ->%list_elem_of_singleton.
    apply list_elem_of_fmap in Hid as (tx' & Heq & Hin).
    apply Hpending in Hin. rewrite <- Heq in Hin. congruence.
  - split.
    + intros tx' [Hin| ->%list_elem_of_singleton]%elem_of_app;
        [|apply lookup_insert_eq].
      pose proof (Hpending _ Hin) as Hlook.
      rewrite lookup_insert_ne; [done|]. intros Heq. congruence.
    + intros id tx' [[<- <-]|[_ Hin]]%lookup_insert_Some; [done | by apply Hpool].
Qed.

Lemma linked_latest (bc : Blockchain.t) :
  chainLinked bc -> exists latest, Blockchain.GetLatestBlock bc = Some latest.
Proof.
  intros (Hne & _). unfold Blockchain.GetLatestBlock.
  destruct (last (Blockchain.Blocks bc)) as [latest|] eqn:Hlast; [by exists latest|].
  by apply last_None in Hlast.
Qed.

Lemma reachable_invariants (bc : Blockchain.t) :
  reachable bc -> chainLinked bc /\ mempoolIndexed bc.
Proof.
  induction 1 as [g supply|bc tx _ [IH1 IH2]|bc b _ [IH1 IH2]|bc s _ [IH1 IH2]].
  - split; [apply genesis_linked | apply genesis_indexed].
  - split; [|by apply AddTransaction_indexed].
    by destruct (AddTransaction_cases bc tx) as [(_ & _ & _ & ->)|[_ ->]].
  - split; [by apply appendBlock_linked | by apply appendBlock_indexed].
  - done.
Qed.

End validation.

(** ** Package blockchain: what holds of every chain *)

Section every_chain.
Context `{Primitives}.

(** X10.  On every chain built by [NewBlockchain], [AddTransaction] and
    the statements of [AddBlock], [IsValid] answers true; there is a latest
    block; the block at position [i] has index [i] (as a [uint64]) and
    carries the hash of its own fields; and each block names the hash of the
    block before it. *)
Theorem reachable_chain_is_valid (bc : Blockchain.t) :
  reachable bc ->
  Blockchain.IsValid bc = true /\
  (exists latest, Blockchain.GetLatestBlock bc = Some latest) /\
  (forall i b, Blockchain.Blocks bc !! i = Some b ->
     Block.Index b = uint64 (Z.of_nat i) /\ Block.Hash b = Block.calculateHash b) /\
  (forall i prevBlock b,
     Blockchain.Blocks bc !! i = Some prevBlock ->
     Blockchain.Blocks bc !! S i = Some b ->
     Block.PrevHash b = Block.Hash prevBlock).
Proof.
  intros [Hlinked _]%reachable_invariants.
  split; [by apply linked_IsValid|].
  split; [by apply linked_latest|].
  destruct Hlinked as (Hne & Hblocks & Hlinks).
  split; [|exact Hlinks].
  intros i b Hb. destruct (Hblocks i b Hb) as (? & ? & _). by split.
Qed.

(** X11.  On every such chain each transaction of a block that is not a
    coinbase verifies, and each pending transaction verifies and is not a
    coinbase. *)
Theorem reachable_transactions_verify (bc : Blockchain.t) :
  reachable bc ->
  (forall b tx, b ∈ Blockchain.Blocks bc -> tx ∈ Block.Transactions b ->
     Transaction.IsCoinbase tx = false -> Transaction.Verify tx = Ok tt) /\
  (forall tx, tx ∈ Blockchain.PendingTxs bc ->
     Transaction.Verify tx = Ok tt /\ Transaction.IsCoinbase tx = false).
Proof.
  intros [(_ & Hblocks & _) (Hpending & _)]%reachable_invariants. split.
  - intros b tx [i Hb]%list_elem_of_lookup Htx.
    destruct (Hblocks i b Hb) as (_ & _ & Hall).
    unfold allVerify in Hall. rewrite Forall_forall in Hall. by apply Hall.
  - intros tx Htx. rewrite Forall_forall in Hpending.
    split; [by apply Hpending | by apply Verify_Ok_not_coinbase, Hpending].
Qed.

Lemma GetTransactionByID_id (b : Block.t) (txID : string) (tx : Transaction.t) :
  Block.GetTransactionByID b txID = Some tx ->
  Transaction.ID tx = txID /\ tx ∈ Block.Transactions b.
Proof.
  unfold Block.GetTransactionByID. intros Hfind.
  apply find_some in Hfind as [Hin Hid].
  split; [by apply bool_decide_eq_true in Hid | by apply list_elem_of_In].
Qed.

Lemma findInBlocks_id (blocks : list Block.t) (txID : string) (tx : Transaction.t) :
  Blockchain.findInBlocks blocks txID = Some tx ->
  Transaction.ID tx = txID /\ exists b, b ∈ blocks /\ tx ∈ Block.Transactions b.
Proof.
  induction blocks as [|b blocks IH]; simpl; [discriminate|].
  destruct (Block.GetTransactionByID b txID) as [tx'|] eqn:Hb.
  - intros [= ->]. apply GetTransactionByID_id in Hb as [? ?].
    split; [done|]. exists b. split; [by left | done].
  - intros (? & b' & ? & ?)%IH. split; [done|]. exists b'. split; [by right | done].
Qed.

(** X12.  On every such chain the pending transactions have distinct ids
    and each is filed in the pool under its id; the pool files every
    transaction under its own id; and [GetTransaction] returns a transaction
    with the id that was asked for, taken from a block or from the pool. *)
Theorem mempool_indexed_by_id (bc : Blockchain.t) :
  reachable bc ->
  NoDup (Transaction.ID <$> Blockchain.PendingTxs bc) /\
  (forall tx, tx ∈ Blockchain.PendingTxs bc ->
     Blockchain.txPool bc !! Transaction.ID tx = Some tx) /\
  (forall id tx, Blockchain.txPool bc !! id = Some tx -> Transaction.ID tx = id) /\
  (forall id tx, Blockchain.GetTransaction bc id = Some tx ->
     Transaction.ID tx = id /\
     ((exists b, b ∈ Blockchain.Blocks bc /\ tx ∈ Block.Transactions b) \/
      Blockchain.txPool bc !! id = Some tx)).
Proof.
  intros [_ (_ & Hnodup & Hpending & Hpool)]%reachable_invariants.
  split; [exact Hnodup|]. split; [exact Hpending|].
  split; [intros id tx Hin; by apply Hpool|].
  intros id tx. unfold Blockchain.GetTransaction.
  destruct (Blockchain.findInBlocks (Blockchain.Blocks bc) id) as [tx'|] eqn:Hfound.
  - intros [= ->]. apply findInBlocks_id in Hfound as [? ?]. split; [done | by left].
  - intros Hin. split; [by apply Hpool | by right].
Qed.

(** X13.  [CreateBlock] returns no block, for any chain, any validator and
    any state of the mutex: it takes the write lock of [bc.mu] and calls
    [GetLatestBlock], which asks for the read lock of the same mutex.
    Called on a mutex that nobody holds, it stops there with the write lock
    held. *)
Theorem CreateBlock_never_returns (now : Z) (mu : sync.RWMutex) (bc : Blockchain.t)
    (validator : string) :
  (forall r mu', Blockchain.CreateBlock now mu bc validator <> sync.Returns r mu') /\
  Blockchain.CreateBlock now sync.unlocked bc validator
  = sync.Blocks (sync.mkRWMutex true 0).
Proof.
  split.
  - intros r mu'. rewrite CreateBlock_blocks. discriminate.
  - by rewrite CreateBlock_blocks.
Qed.

(** X14.  A call of [AddBlock] or of [CreateBlock] on a mutex that nobody
    holds leaves the write lock held, and on the mutex so held no method
    of the chain that takes a lock gets further than asking for it:
    [GetLatestBlock], [AddTransaction], [AddBlock] and [CreateBlock] all
    stop, whatever their arguments. *)
Theorem chain_stays_locked (bc : Blockchain.t) (b : Block.t) (now : Z)
    (validator : string) :
  exists mu,
    Blockchain.AddBlock sync.unlocked bc b = sync.Blocks mu /\
    Blockchain.CreateBlock now sync.unlocked bc validator = sync.Blocks mu /\
    sync.writer mu = true /\
    forall (bc' : Blockchain.t) (tx : Transaction.t) (b' : Block.t) (now' : Z)
           (validator' : string),
      Blockchain.GetLatestBlock_mu mu bc' = sync.Blocks mu /\
      Blockchain.AddTransaction_mu mu bc' tx = sync.Blocks mu /\
      Blockchain.AddBlock mu bc' b' = sync.Blocks mu /\
      Blockchain.CreateBlock now' mu bc' validator' = sync.Blocks mu.
Proof.
  exists (sync.mkRWMutex true 0).
  split; [by rewrite AddBlock_blocks|]. split; [by rewrite CreateBlock_blocks|].
  split; [reflexivity|]. intros bc' tx b' now' validator'.
  split; [reflexivity|]. split; [reflexivity|].
  split; [by rewrite AddBlock_blocks | by rewrite CreateBlock_blocks].
Qed.

End every_chain.

Lemma reachable_chain_is_valid_witness :
  @Blockchain.IsValid Toy.primitives Example.bc1 = true /\
  (exists latest, Blockchain.GetLatestBlock Example.bc1 = Some latest) /\
  (forall i b, Blockchain.Blocks Example.bc1 !! i = Some b ->
     Block.Index b = uint64 (Z.of_nat i)
     /\ Block.Hash b = @Block.calculateHash Toy.primitives b) /\
  (forall i prevBlock b,
     Blockchain.Blocks Example.bc1 !! i = Some prevBlock ->
     Blockchain.Blocks Example.bc1 !! S i = Some b ->
     Block.PrevHash b = Block.Hash prevBlock).
Proof.
  apply (@reachable_chain_is_valid Toy.primitives Example.bc1).
  apply reachable_AddTransaction, reachable_NewBlockchain.
Defined.

Lemma reachable_transactions_verify_witness :
  @Transaction.Verify Toy.primitives Example.transfer = Ok tt /\
  Transaction.IsCoinbase Example.transfer = false.
Proof.
  destruct (@reachable_transactions_verify Toy.primitives Example.bc1) as [_ Hpending].
  - apply reachable_AddTransaction, reachable_NewBlockchain.
  - apply Hpending. vm_compute. apply list_elem_of_singleton. reflexivity.
Defined.

Lemma mempool_indexed_by_id_witness :
  Blockchain.txPool Example.bc1 !! Transaction.ID Example.transfer = Some Example.transfer /\
  forall tx, Blockchain.GetTransaction Example.bc1 (Transaction.ID Example.transfer)
             = Some tx ->
             Transaction.ID tx = Transaction.ID Example.transfer.
Proof.
  destruct (@mempool_indexed_by_id Toy.primitives Example.bc1)
    as (_ & Hpending & _ & Hget).
  - apply reachable_AddTransaction, reachable_NewBlockchain.
  - split.
    + apply Hpending. vm_compute. apply list_elem_of_singleton. reflexivity.
    + intros tx Htx. by apply Hget in Htx as [? _].
Defined.

(** ** Package blockchain: what the checks leave open *)

Lemma concatIDs_ids (txs : list Transaction.t) (data : string) :
  Block.concatIDs txs data
  = fold_left (fun data id => data +:+ id) (Transaction.ID <$> txs) data.
Proof.
  unfold Block.concatIDs. revert data.
  induction txs as [|tx txs IH]; intros data; simpl; [reflexivity | apply IH].
Qed.

Section open_checks.
Context `{Primitives}.

(** X15.  The hash of a block covers its index, timestamp, previous hash,
    validator and the ids of its transactions in their order, and nothing
    else: two blocks that agree on these have the same hash, whatever the
    other fields of their transactions. *)
Theorem calculateHash_covers (b b' : Block.t) :
  Block.Index b = Block.Index b' ->
  Block.Timestamp b = Block.Timestamp b' ->
  Block.PrevHash b = Block.PrevHash b' ->
  Block.Validator b = Block.Validator b' ->
  Transaction.ID <$> Block.Transactions b = Transaction.ID <$> Block.Transactions b' ->
  Block.calculateHash b = Block.calculateHash b'.
Proof.
  intros Hi Ht Hp Hv Hids. unfold Block.calculateHash.
  by rewrite !concatIDs_ids, Hi, Ht, Hp, Hv, Hids.
Qed.

Lemma applyTransactions_coinbases (txs : list Transaction.t) (s : State.t) :
  Forall (fun tx => Transaction.IsCoinbase tx = true) txs ->
  State.applyTransactions s txs = (foldTransactions s txs, Ok tt) /\
  forall total, Block.sumFees txs total = total.
Proof.
  intros Hall. revert s. unfold Block.sumFees, foldTransactions.
  induction Hall as [|tx txs Hcb _ IH]; intros s; simpl; [done|].
  unfold State.ApplyTransaction at 1 3. rewrite Hcb. simpl.
  destruct (IH (State.mk
                  (State.add_assign (State.Balances s) (Transaction.To tx)
                     (Transaction.Amount tx)) (State.Stakes s))) as [-> Hfees].
  split; [reflexivity | exact Hfees].
Qed.

(** X16.  The two checks that [AddBlock] makes before it appends a block,
    [validateBlock] and [ApplyBlock] on a clone of the state, put no bound on
    what a block creates: the next block after the latest one, made of
    coinbase transactions only, of any number and of any amounts, passes
    both, and the state that [ApplyBlock] gives is the fold of
    [ApplyTransaction] over them. *)
Theorem coinbase_block_passes_checks (bc : Blockchain.t) (latest : Block.t) (now : Z)
    (txs : list Transaction.t) (validator : string) :
  Blockchain.GetLatestBlock bc = Some latest ->
  Forall (fun tx => Transaction.IsCoinbase tx = true) txs ->
  Blockchain.validateBlock bc
    (Block.NewBlock now (uint64 (Block.Index latest + 1)) txs (Block.Hash latest)
       validator) = Ok tt /\
  State.ApplyBlock (State.Clone (Blockchain.State bc))
    (Block.NewBlock now (uint64 (Block.Index latest + 1)) txs (Block.Hash latest)
       validator)
  = (foldTransactions (Blockchain.State bc) txs, Ok tt).
Proof.
  intros Hlatest Hall.
  set (b := Block.NewBlock now (uint64 (Block.Index latest + 1)) txs (Block.Hash latest)
              validator).
  assert (Blockchain.validateBlock bc b = Ok tt) as Hvalid.
  { apply validateBlock_follows. exists latest. split; [done|]. split; [by repeat split|].
    unfold allVerify. cbn [b Block.NewBlock Block.Transactions].
    eapply Forall_impl; [exact Hall|]. intros tx Hcb Hnc. congruence. }
  destruct (applyTransactions_coinbases txs (Blockchain.State bc) Hall) as [Hloop Hfees].
  split; [exact Hvalid|]. rewrite Clone_eq.
  unfold State.ApplyBlock, Block.TotalFees. cbn [b Block.NewBlock Block.Transactions].
  by rewrite Hloop, Hfees.
Qed.

(** X17.  [AddTransaction] checks the balance of the sender in the state of
    the chain and does not count what is already pending: a
    transaction that would be admitted is still admitted after any other
    transaction has been submitted before it, and the state is the same. *)
Theorem admission_ignores_pending (bc : Blockchain.t) (tx tx' : Transaction.t) :
  (Blockchain.AddTransaction bc tx).2 = Ok tt ->
  Transaction.ID tx' <> Transaction.ID tx ->
  (Blockchain.AddTransaction (Blockchain.AddTransaction bc tx').1 tx).2 = Ok tt /\
  Blockchain.State (Blockchain.AddTransaction bc tx').1 = Blockchain.State bc.
Proof.
  intros Hok Hne.
  destruct (AddTransaction_cases bc tx) as [(Hv & Hfresh & Hbal & _)|[Hrefused _]];
    [|done].
  destruct (AddTransaction_cases bc tx') as [(_ & _ & _ & ->)|[_ ->]]; cbn [fst].
  - split; [|reflexivity].
    rewrite AddTransaction_admits; [reflexivity | done | | done].
    cbn [Blockchain.txPool]. by rewrite lookup_insert_ne.
  - by split.
Qed.

End open_checks.

Lemma calculateHash_covers_witness :
  Example.block_pay100 <> ExampleChain.block_other /\
  @Block.calculateHash Toy.primitives Example.block_pay100
  = @Block.calculateHash Toy.primitives ExampleChain.block_other.
Proof.
  split.
  - intros Heq. apply (f_equal Block.Transactions) in Heq.
    vm_compute in Heq. discriminate Heq.
  - apply (@calculateHash_covers Toy.primitives); reflexivity.
Defined.

Lemma coinbase_block_passes_checks_witness :
  @Blockchain.validateBlock Toy.primitives Example.bc0 ExampleChain.jackpot_block = Ok tt /\
  exists s,
    State.ApplyBlock (State.Clone (Blockchain.State Example.bc0)) ExampleChain.jackpot_block
    = (s, Ok tt) /\
    State.GetBalance s "mallory" = 1000000000.
Proof.
  destruct (@coinbase_block_passes_checks Toy.primitives Example.bc0
              (@Blockchain.createGenesisBlock Toy.primitives Example.alice 1000000)
              10 [ExampleChain.jackpot] "mallory") as [Hvalid Hstate].
  - vm_compute. reflexivity.
  - repeat constructor.
  - split; [exact Hvalid|].
    exists (foldTransactions (Blockchain.State Example.bc0) [ExampleChain.jackpot]).
    split; [exact Hstate | vm_compute; reflexivity].
Defined.

Lemma admission_ignores_pending_witness :
  (* both transfers of 600_000 are pending, for a balance of 1_000_000 *)
  Blockchain.PendingTxs ExampleChain.bc_both
    = [ExampleChain.first600; ExampleChain.second600] /\
  (@Blockchain.AddTransaction Toy.primitives
     (@Blockchain.AddTransaction Toy.primitives Example.bc0 ExampleChain.first600).1
     ExampleChain.second600).2 = Ok tt.
Proof.
  destruct (@admission_ignores_pending Toy.primitives Example.bc0
              ExampleChain.second600 ExampleChain.first600) as [Hok _].
  - vm_compute. reflexivity.
  - vm_compute. discriminate.
  - split; [vm_compute; reflexivity | exact Hok].
Defined.

(** ** Package blockchain: signatures of transactions and blocks *)

Section signatures.
Context `{Primitives}.

(** X19.  [Transaction.Verify] accepts exactly the transactions with a
    signature field that is not empty, a public key field that is the
    hexadecimal form of 32 bytes, a sender that is the address of that key,
    a signature field that is the hexadecimal form of 64 bytes, and for
    which [ed25519.Verify] accepts that signature of [dataToSign] under that
    key.  The id is not compared with the fields. *)
Theorem Transaction_Verify_accepts_iff (tx : Transaction.t) :
  Transaction.Verify tx = Ok tt <->
  Transaction.Signature tx <> EmptyString /\
  exists publicKey signature,
    DecodeString (Transaction.PublicKey tx) = Ok publicKey /\
    length publicKey = 32%nat /\
    Transaction.From tx = crypto.PublicKeyToAddress publicKey /\
    DecodeString (Transaction.Signature tx) = Ok signature /\
    length signature = 64%nat /\
    ed25519_Verify publicKey (Transaction.dataToSign tx) signature = true.
Proof.
  rewrite Verify_Ok_iff. split.
  - intros (Hsigned & pk & sig & Hpk & Hfrom & Hsig & Hvalid).
    split; [done|]. exists pk, sig.
    pose proof (PublicKeyFromHex_Ok_length _ _ Hpk) as Hpklen.
    pose proof (SignatureFromHex_Ok_length _ _ Hsig) as Hsiglen.
    unfold crypto.PublicKeyFromHex in Hpk. unfold crypto.SignatureFromHex in Hsig.
    destruct (DecodeString (Transaction.PublicKey tx)) as [bs| |]; [|discriminate..].
    destruct (decide (length bs = PublicKeySize)); [|discriminate].
    destruct (DecodeString (Transaction.Signature tx)) as [bs'| |]; [|discriminate..].
    destruct (decide (length bs' = SignatureSize)); [|discriminate].
    by simplify_eq.
  - intros (Hsigned & pk & sig & Hpk & Hpklen & Hfrom & Hsig & Hsiglen & Hvalid).
    split; [done|]. exists pk, sig.
    unfold crypto.PublicKeyFromHex, crypto.SignatureFromHex.
    rewrite Hpk, Hsig. by rewrite !decide_True by done.
Qed.

Lemma Block_Verify_Ok (b : Block.t) (publicKey : list byte) :
  Block.Verify b publicKey = Ok tt <->
  Block.Hash b = Block.calculateHash b /\
  Block.Signature b <> EmptyString /\
  length publicKey = 32%nat /\
  (exists signature,
     crypto.SignatureFromHex (Block.Signature b) = Ok signature /\
     ed25519_Verify publicKey (bytes (Block.Hash b)) signature = true) /\
  allVerify (Block.Transactions b).
Proof.
  unfold Block.Verify. rewrite <- verifyTransactions_allVerify.
  rewrite Block_verifyTransactions_eq. split.
  - destruct (decide (Block.Hash b <> _)) as [|Hh%dec_stable]; [discriminate|].
    destruct (decide (Block.Signature b = EmptyString)); [discriminate|].
    destruct (crypto.SignatureFromHex (Block.Signature b)) as [sig| |] eqn:Hsig;
      try discriminate.
    unfold crypto.Verify.
    destruct (decide (length publicKey = PublicKeySize)); [|discriminate].
    rewrite bool_decide_eq_true_2 by (by eapply SignatureFromHex_Ok_length).
    simpl. destruct (ed25519_Verify publicKey _ sig) eqn:Hvalid; [|discriminate].
    intros Hv. repeat split; try done. by exists sig.
  - intros (Hh & Hsigned & Hlen & (sig & Hsig & Hvalid) & Hv).
    rewrite decide_False by (intros Hne; by apply Hne).
    rewrite decide_False, Hsig by done. unfold crypto.Verify.
    rewrite decide_True by done.
    rewrite bool_decide_eq_true_2 by (by eapply SignatureFromHex_Ok_length).
    by rewrite Hvalid.
Qed.

(** X20.  A block signed by [Block.Sign] is accepted by [Block.Verify]
    under the public half of the key, provided the block carries its own
    hash, its transactions verify, and the key pair is one whose signature
    of the hash [ed25519.Verify] accepts.  Signing changes the signature
    field only. *)
Theorem Block_Sign_then_Verify (b : Block.t) (privateKey : list byte) :
  length privateKey = 64%nat ->
  length (ed25519_Sign privateKey (bytes (Block.Hash b))) = 64%nat ->
  ed25519_Verify (drop 32 privateKey) (bytes (Block.Hash b))
    (ed25519_Sign privateKey (bytes (Block.Hash b))) = true ->
  Block.Hash b = Block.calculateHash b ->
  allVerify (Block.Transactions b) ->
  exists signature,
    Block.Sign b privateKey = Ok (withSignature b signature) /\
    Block.Verify (withSignature b signature) (drop 32 privateKey) = Ok tt.
Proof.
  intros Hkey Hsiglen Hvalid Hhash Htxs.
  exists (crypto.SignatureToHex (ed25519_Sign privateKey (bytes (Block.Hash b)))).
  split.
  - unfold Block.Sign, crypto.Sign. by rewrite decide_True by done.
  - apply Block_Verify_Ok. cbn [withSignature Block.Hash Block.Signature
                                 Block.Transactions].
    split; [exact Hhash|]. split.
    { apply EncodeToString_nonempty. intros E. rewrite E in Hsiglen. discriminate. }
    split; [rewrite length_drop, Hkey; reflexivity|]. split; [|exact Htxs].
    eexists. split; [by apply SignatureFromHex_ToHex | exact Hvalid].
Qed.

End signatures.

Lemma Block_Sign_then_Verify_witness :
  exists signature,
    @Block.Sign Toy.primitives ExampleChain.alice_block Toy.alice_key
      = Ok (withSignature ExampleChain.alice_block signature) /\
    @Block.Verify Toy.primitives (withSignature ExampleChain.alice_block signature)
      Toy.alice_pub = Ok tt.
Proof.
  apply (@Block_Sign_then_Verify Toy.primitives ExampleChain.alice_block Toy.alice_key).
  - vm_compute. reflexivity.
  - vm_compute. reflexivity.
  - vm_compute. reflexivity.
  - vm_compute. reflexivity.
  - apply (@verifyTransactions_allVerify Toy.primitives). vm_compute. reflexivity.
Defined.

(** ** Package consensus: the registry of validators *)

(** X21.  [RegisterValidator] accepts a validator exactly when its stake is
    at least the minimum and its address is not registered.  Then
    [GetValidator] finds it under its address, the set has one validator
    more, and the other addresses are as before; otherwise the engine is
    unchanged. *)
Theorem RegisterValidator_accepts_iff (pos : PoS.t) (validator : Validator.t) :
  ((PoS.RegisterValidator pos validator).2 = Ok tt <->
     PoS.MinStake pos <= Validator.Stake validator /\
     ValidatorSet.Validators (PoS.ValidatorSet pos) !! Validator.Address validator
       = None) /\
  ((PoS.RegisterValidator pos validator).2 = Ok tt ->
     ValidatorSet.GetValidator
       (PoS.ValidatorSet (PoS.RegisterValidator pos validator).1)
       (Validator.Address validator) = Ok validator /\
     ValidatorSet.Size (PoS.ValidatorSet (PoS.RegisterValidator pos validator).1)
       = ValidatorSet.Size (PoS.ValidatorSet pos) + 1 /\
     forall address, address <> Validator.Address validator ->
       ValidatorSet.GetValidator
         (PoS.ValidatorSet (PoS.RegisterValidator pos validator).1) address
       = ValidatorSet.GetValidator (PoS.ValidatorSet pos) address) /\
  ((PoS.RegisterValidator pos validator).2 <> Ok tt ->
     (PoS.RegisterValidator pos validator).1 = pos).
Proof.
  unfold PoS.RegisterValidator, ValidatorSet.AddValidator, ValidatorSet.GetValidator,
    ValidatorSet.Size.
  destruct (Z.ltb_spec (Validator.Stake validator) (PoS.MinStake pos)) as [Hlow|Hok].
  { cbn [fst snd]. split; [|by split]. split; [done | intros [? _]; lia]. }
  destruct (decide (is_Some _)) as [Hdup|Hfresh%eq_None_not_Some]; cbn [fst snd].
  - split; [|split; [done | by destruct pos as [[?] ? ?]]].
    split; [done|]. intros [_ Hnone]. rewrite Hnone in Hdup. by apply is_Some_None in Hdup.
  - split; [by split|]. split; [|done]. intros _.
    cbn [PoS.ValidatorSet ValidatorSet.Validators].
    rewrite lookup_insert_eq, map_size_insert_None by done.
    split; [done|]. split; [lia|].
    intros address Hne. by rewrite lookup_insert_ne.
Qed.

(** X22.  Registering a validator and unregistering its address again gives
    back the engine as it was. *)
Theorem register_then_unregister (pos : PoS.t) (validator : Validator.t) :
  (PoS.RegisterValidator pos validator).2 = Ok tt ->
  PoS.UnregisterValidator (PoS.RegisterValidator pos validator).1
    (Validator.Address validator) = (pos, Ok tt).
Proof.
  unfold PoS.RegisterValidator, ValidatorSet.AddValidator.
  destruct (_ <? _); [discriminate|].
  destruct (decide (is_Some _)) as [|Hfresh%eq_None_not_Some]; [discriminate|].
  intros _. cbn [fst]. unfold PoS.UnregisterValidator, ValidatorSet.RemoveValidator.
  cbn [PoS.ValidatorSet ValidatorSet.Validators PoS.MinStake PoS.BlockTime].
  rewrite lookup_insert_eq, decide_True by done.
  rewrite delete_insert_id by done. by destruct pos as [[?] ? ?].
Qed.

Lemma register_then_unregister_witness :
  PoS.UnregisterValidator
    (PoS.RegisterValidator ExampleConsensus.pos ExampleConsensus.va).1 "a"
  = (ExampleConsensus.pos, Ok tt).
Proof.
  apply (register_then_unregister ExampleConsensus.pos ExampleConsensus.va).
  vm_compute. reflexivity.
Defined.

(** ** Package consensus: selection *)

Lemma filter_perm {A} (f : A -> bool) (l l' : list A) :
  l ≡ₚ l' -> List.filter f l ≡ₚ List.filter f l'.
Proof.
  induction 1 as [|x l l' _ IH|x y l|l l' l'' _ IH1 _ IH2]; simpl.
  - done.
  - destruct (f x); [by constructor | done].
  - destruct (f x), (f y); try done. apply perm_swap.
  - by etrans.
Qed.

Lemma filter_none {A} (f : A -> bool) (l : list A) :
  Forall (fun x => f x = false) l -> List.filter f l = [].
Proof. induction 1 as [|x l Hx _ IH]; simpl; [done|]. by rewrite Hx. Qed.

Lemma pick_elem_of (target cumulative : Z) (vs : list Validator.t) (v : Validator.t) :
  PoS.pick target cumulative vs = Some v -> v ∈ vs.
Proof.
  revert cumulative. induction vs as [|x vs IH]; intros cumulative; simpl; [discriminate|].
  destruct (_ <? _); [intros [= ->]; by left | intros ?%IH; by right].
Qed.

Lemma last_elem_of {A} (l : list A) (d : A) : l <> [] -> List.last l d ∈ l.
Proof.
  induction l as [|x [|y l] IH]; [done | intros _; by left |].
  intros _. right. by apply IH.
Qed.

Section selection_facts.
Context `{Primitives}.

Lemma selectFrom_Ok_eligible (pos : PoS.t) (validators : list Validator.t)
    (prevBlockHash : string) (timestamp : Z) (v : Validator.t) :
  PoS.selectFrom pos validators prevBlockHash timestamp = Ok v ->
  v ∈ PoS.eligible pos validators.
Proof.
  unfold PoS.selectFrom. destruct validators as [|v0 vs]; [discriminate|].
  destruct (PoS.eligible pos (v0 :: vs)) as [|first rest] eqn:Heligible; [discriminate|].
  destruct (PoS.big_Mod _ _) as [target| |]; [|discriminate..].
  destruct (PoS.pick target 0 (first :: rest)) as [w|] eqn:Hpick.
  - intros [= <-]. by apply pick_elem_of in Hpick.
  - intros [= <-]. change (List.last (first :: rest) first ∈ first :: rest).
    by apply last_elem_of.
Qed.

(** X23.  [SelectValidator] only ever returns a validator of the set whose
    stake is at least the minimum; in particular a validator whose stake has
    been updated below the minimum is not selected any more. *)
Theorem SelectValidator_sound (pos : PoS.t) (prevBlockHash : string) (timestamp : Z)
    (v : Validator.t) :
  PoS.SelectValidator pos prevBlockHash timestamp (Ok v) ->
  PoS.MinStake pos <= Validator.Stake v /\
  exists address, ValidatorSet.Validators (PoS.ValidatorSet pos) !! address = Some v.
Proof.
  intros (validators & Hrange & Hsel).
  apply selectFrom_Ok_eligible in Hsel.
  unfold PoS.eligible in Hsel. apply list_elem_of_In, filter_In in Hsel as [Hin Hcan].
  split; [by apply Z.leb_le in Hcan|].
  apply list_elem_of_In in Hin. unfold ValidatorSet.GetValidators in Hrange.
  rewrite Hrange in Hin. apply list_elem_of_fmap in Hin as ([k w] & -> & Hkw).
  exists k. by apply elem_of_map_to_list.
Qed.

(** X24.  When exactly one validator of the set has the minimum stake, and
    its stake is a positive [uint64], every call of [SelectValidator] returns
    it, whatever the previous hash, the timestamp and the order in which
    the set is enumerated. *)
Theorem sole_eligible_selected (pos : PoS.t) (address : string) (v : Validator.t)
    (prevBlockHash : string) (timestamp : Z) (r : result Validator.t) :
  ValidatorSet.Validators (PoS.ValidatorSet pos) !! address = Some v ->
  PoS.MinStake pos <= Validator.Stake v ->
  0 < Validator.Stake v < 2 ^ 64 ->
  (forall address' w,
     ValidatorSet.Validators (PoS.ValidatorSet pos) !! address' = Some w ->
     PoS.MinStake pos <= Validator.Stake w -> address' = address) ->
  PoS.SelectValidator pos prevBlockHash timestamp r <-> r = Ok v.
Proof.
  intros Hv Hmin Hstake Honly.
  assert (forall validators,
            ValidatorSet.GetValidators (PoS.ValidatorSet pos) validators ->
            PoS.selectFrom pos validators prevBlockHash timestamp = Ok v) as Hrun.
  { intros validators Hrange. unfold ValidatorSet.GetValidators in Hrange.
    assert (PoS.eligible pos validators = [v]) as Heligible.
    { assert (validators ≡ₚ
                v :: (map_to_list
                        (delete address
                           (ValidatorSet.Validators (PoS.ValidatorSet pos)))).*2)
        as Hperm.
      { rewrite Hrange, <- (map_to_list_delete _ _ _ Hv). by rewrite fmap_cons. }
      apply Permutation_singleton_r. unfold PoS.eligible.
      etrans; [apply filter_perm, Hperm|]. cbn [List.filter].
      unfold Validator.CanValidate at 1. rewrite (proj2 (Z.leb_le _ _) Hmin).
      apply Permutation_cons; [done|].
      replace (List.filter _ _) with (@nil Validator.t); [done|].
      symmetry. apply filter_none, Forall_forall. intros w Hw.
      apply list_elem_of_fmap in Hw as ([k w'] & -> & Hkw%elem_of_map_to_list).
      apply lookup_delete_Some in Hkw as [Hne Hkw]. cbn [snd].
      unfold Validator.CanValidate. apply Z.leb_gt.
      destruct (Z.le_gt_cases (PoS.MinStake pos) (Validator.Stake w')) as [Hle|]; [|lia].
      by specialize (Honly k w' Hkw Hle). }
    unfold PoS.selectFrom. rewrite Heligible.
    destruct validators as [|v0 vs]; [discriminate Heligible|].
    unfold PoS.sumStake. cbn [fold_left]. rewrite Z.add_0_l.
    unfold uint64 at 1. rewrite Z.mod_small by lia.
    unfold PoS.big_Mod. rewrite decide_False; last first.
    { unfold int64. rewrite Z.mod_small by lia.
      destruct (Validator.Stake v <? 2 ^ 63); lia. }
    cbn [PoS.pick List.last]. by destruct (_ <? _). }
  split.
  - intros (validators & Hrange & <-). by apply Hrun.
  - intros ->. exists (map_to_list (ValidatorSet.Validators (PoS.ValidatorSet pos))).*2.
    assert (ValidatorSet.GetValidators (PoS.ValidatorSet pos)
              (map_to_list (ValidatorSet.Validators (PoS.ValidatorSet pos))).*2)
      as Hrange by (unfold ValidatorSet.GetValidators; reflexivity).
    split; [exact Hrange | by apply Hrun].
Qed.

(** X25.  When every validator of the set is below the minimum stake, every
    call of [SelectValidator] returns an error and selects nobody. *)
Theorem none_eligible_error (pos : PoS.t) (prevBlockHash : string) (timestamp : Z)
    (r : result Validator.t) :
  (forall address v,
     ValidatorSet.Validators (PoS.ValidatorSet pos) !! address = Some v ->
     Validator.Stake v < PoS.MinStake pos) ->
  PoS.SelectValidator pos prevBlockHash timestamp r ->
  r = Err (Errorf (if decide (ValidatorSet.Validators (PoS.ValidatorSet pos) = ∅)
                   then "no validators available" else "no eligible validators")).
Proof.
  intros Hbelow (validators & Hrange & <-).
  unfold ValidatorSet.GetValidators in Hrange.
  rewrite selectFrom_below_minimum; last first.
  { apply Forall_forall. intros v Hin. rewrite Hrange in Hin.
    apply list_elem_of_fmap in Hin as ([k w] & -> & Hkw%elem_of_map_to_list).
    by eapply Hbelow. }
  destruct (decide (ValidatorSet.Validators (PoS.ValidatorSet pos) = ∅)) as [Hempty|Hne].
  - rewrite Hempty, map_to_list_empty in Hrange.
    by apply Permutation_nil_r in Hrange as ->.
  - destruct validators as [|v vs]; [|done].
    apply Permutation_nil_l in Hrange. symmetry in Hrange.
    apply fmap_nil_inv in Hrange. by apply map_to_list_empty_iff in Hrange.
Qed.

End selection_facts.

Lemma registry_range :
  ValidatorSet.GetValidators (PoS.ValidatorSet ExampleRegistry.pos)
    [ExampleRegistry.strong; Validator.mk "b" [] [] 10].
Proof.
  unfold ValidatorSet.GetValidators.
  change (ValidatorSet.Validators (PoS.ValidatorSet ExampleRegistry.pos))
    with (<["b" := Validator.mk "b" [] [] 10]>
            (<["b" := ExampleRegistry.weak]> {["a" := ExampleRegistry.strong]})
          : gmap string Validator.t).
  rewrite insert_insert_eq, map_to_list_insert by done.
  rewrite map_to_list_singleton. apply perm_swap.
Qed.

Lemma registry_none_range :
  ValidatorSet.GetValidators (PoS.ValidatorSet ExampleRegistry.pos_none)
    [Validator.mk "a" [] [] 0; Validator.mk "b" [] [] 10].
Proof.
  unfold ValidatorSet.GetValidators.
  change (ValidatorSet.Validators (PoS.ValidatorSet ExampleRegistry.pos_none))
    with (<["a" := Validator.mk "a" [] [] 0]> {["b" := Validator.mk "b" [] [] 10]}
          : gmap string Validator.t).
  rewrite map_to_list_insert by done.
  by rewrite map_to_list_singleton.
Qed.

Lemma SelectValidator_sound_witness :
  1000 <= Validator.Stake ExampleRegistry.strong /\
  exists address,
    ValidatorSet.Validators (PoS.ValidatorSet ExampleRegistry.pos) !! address
    = Some ExampleRegistry.strong.
Proof.
  apply (@SelectValidator_sound Toy.primitives ExampleRegistry.pos "abc" 42).
  exists [ExampleRegistry.strong; Validator.mk "b" [] [] 10].
  split; [exact registry_range | vm_compute; reflexivity].
Defined.

Lemma sole_eligible_selected_witness :
  @PoS.SelectValidator Toy.primitives ExampleRegistry.pos "abc" 42
    (Ok ExampleRegistry.strong).
Proof.
  apply (@sole_eligible_selected Toy.primitives ExampleRegistry.pos "a"
           ExampleRegistry.strong "abc" 42 (Ok ExampleRegistry.strong));
    [| | | |reflexivity].
  - vm_compute. reflexivity.
  - vm_compute. discriminate.
  - vm_compute. split; reflexivity.
  - intros address' w Hw Hmin.
    change (ValidatorSet.Validators (PoS.ValidatorSet ExampleRegistry.pos))
      with (<["b" := Validator.mk "b" [] [] 10]>
              (<["b" := ExampleRegistry.weak]> {["a" := ExampleRegistry.strong]})
            : gmap string Validator.t) in Hw.
    rewrite insert_insert_eq in Hw.
    apply lookup_insert_Some in Hw as [[_ <-]|[_ Hw]].
    + exfalso. vm_compute in Hmin. by apply Hmin.
    + by apply lookup_singleton_Some in Hw as [<- _].
Defined.

Lemma none_eligible_error_witness :
  @PoS.SelectValidator Toy.primitives ExampleRegistry.pos_none "abc" 42
    (Err (Errorf "no eligible validators")) /\
  @Err Validator.t (Errorf "no eligible validators")
  = Err (Errorf (if decide (ValidatorSet.Validators
                              (PoS.ValidatorSet ExampleRegistry.pos_none) = ∅)
                 then "no validators available" else "no eligible validators")).
Proof.
  assert (@PoS.SelectValidator Toy.primitives ExampleRegistry.pos_none "abc" 42
            (Err (Errorf "no eligible validators"))) as Hsel.
  { exists [Validator.mk "a" [] [] 0; Validator.mk "b" [] [] 10].
    split; [exact registry_none_range | vm_compute; reflexivity]. }
  split; [exact Hsel|].
  apply (@none_eligible_error Toy.primitives ExampleRegistry.pos_none "abc" 42);
    [|exact Hsel].
  intros address v Hv.
  change (ValidatorSet.Validators (PoS.ValidatorSet ExampleRegistry.pos_none))
    with (<["a" := Validator.mk "a" [] [] 0]> {["b" := Validator.mk "b" [] [] 10]}
          : gmap string Validator.t) in Hv.
  apply lookup_insert_Some in Hv as [[_ <-]|[Ha Hv]]; [vm_compute; reflexivity|].
  apply lookup_singleton_Some in Hv as [_ <-]. vm_compute. reflexivity.
Defined.

(** ** Package consensus: validation of a block *)

Section consensus_validation.
Context `{Primitives}.

Lemma ValidateBlock_Ok (now blockTimeSeconds : Z) (pos : PoS.t) (block : Block.t)
    (prevBlock : option Block.t) :
  PoS.ValidateBlock now blockTimeSeconds pos block prevBlock = Ok tt <->
  exists validator,
    ValidatorSet.Validators (PoS.ValidatorSet pos) !! Block.Validator block
      = Some validator /\
    PoS.MinStake pos <= Validator.Stake validator /\
    Block.Verify block (Validator.PublicKey validator) = Ok tt /\
    Block.Timestamp block <= int64 (now + blockTimeSeconds) /\
    forall prev, prevBlock = Some prev -> Block.Timestamp prev < Block.Timestamp block.
Proof.
  unfold PoS.ValidateBlock, ValidatorSet.GetValidator, Validator.CanValidate. split.
  - destruct (_ !! Block.Validator block) as [validator|]; [|discriminate].
    destruct (PoS.MinStake pos <=? Validator.Stake validator) eqn:Hmin;
      [|discriminate]. cbn [negb].
    destruct (Block.Verify block _) as [[]| |] eqn:Hverify; try discriminate.
    destruct (int64 (now + blockTimeSeconds) <? Block.Timestamp block) eqn:Hfuture;
      [discriminate|].
    intros Hprev. exists validator.
    split; [reflexivity|]. split; [lia|]. split; [exact Hverify|]. split; [lia|].
    intros prev ->.
    destruct (Block.Timestamp block <=? Block.Timestamp prev) eqn:Hafter;
      [discriminate | lia].
  - intros (validator & -> & Hmin & -> & Hfuture & Hprev).
    apply Z.leb_le in Hmin as ->. cbn [negb].
    destruct (int64 (now + blockTimeSeconds) <? Block.Timestamp block) eqn:Hlt;
      [lia|].
    destruct prevBlock as [prev|]; [|done].
    specialize (Hprev prev eq_refl).
    by destruct (Block.Timestamp block <=? Block.Timestamp prev) eqn:Hafter; [lia|].
Qed.

(** X26.  [ValidateBlock] of the consensus engine accepts a block exactly
    when the validator it names is registered with a stake of at least the
    minimum, [Block.Verify] accepts the block under the public key of that
    validator, the timestamp of the block is not later than the clock plus
    the block time, and, when a previous block is given, the timestamp is
    strictly after its timestamp. *)
Theorem consensus_ValidateBlock_accepts_iff (now blockTimeSeconds : Z) (pos : PoS.t)
    (block : Block.t) (prevBlock : option Block.t) :
  PoS.ValidateBlock now blockTimeSeconds pos block prevBlock = Ok tt <->
  exists validator,
    ValidatorSet.Validators (PoS.ValidatorSet pos) !! Block.Validator block
      = Some validator /\
    PoS.MinStake pos <= Validator.Stake validator /\
    Block.Verify block (Validator.PublicKey validator) = Ok tt /\
    Block.Timestamp block <= int64 (now + blockTimeSeconds) /\
    forall prev, prevBlock = Some prev -> Block.Timestamp prev < Block.Timestamp block.
Proof. apply ValidateBlock_Ok. Qed.

(** X27.  A registered validator with the minimum stake that builds the
    next block with [NewBlock], from transactions that verify, and signs it
    with [Block.Sign] gets a block that [ValidateBlock] accepts after the
    latest block and that [validateBlock] of the chain accepts, provided
    its key pair is one whose signatures [ed25519.Verify] accepts, the clock
    has moved past the timestamp of the latest block, and the clock of the
    checking node is not more than the block time behind. *)
Theorem produced_block_accepted (bc : Blockchain.t) (pos : PoS.t) (v : Validator.t)
    (latest : Block.t) (txs : list Transaction.t) (now now' blockTimeSeconds : Z) :
  Blockchain.GetLatestBlock bc = Some latest ->
  allVerify txs ->
  ValidatorSet.Validators (PoS.ValidatorSet pos) !! Validator.Address v = Some v ->
  PoS.MinStake pos <= Validator.Stake v ->
  length (Validator.PrivateKey v) = 64%nat ->
  length (Validator.PublicKey v) = 32%nat ->
  (forall msg,
     length (ed25519_Sign (Validator.PrivateKey v) msg) = 64%nat /\
     ed25519_Verify (Validator.PublicKey v) msg
       (ed25519_Sign (Validator.PrivateKey v) msg) = true) ->
  Block.Timestamp latest < now ->
  now <= int64 (now' + blockTimeSeconds) ->
  exists signature,
    Block.Sign
      (Block.NewBlock now (uint64 (Block.Index latest + 1)) txs (Block.Hash latest)
         (Validator.Address v))
      (Validator.PrivateKey v)
    = Ok (withSignature
            (Block.NewBlock now (uint64 (Block.Index latest + 1)) txs (Block.Hash latest)
               (Validator.Address v))
            signature) /\
    PoS.ValidateBlock now' blockTimeSeconds pos
      (withSignature
         (Block.NewBlock now (uint64 (Block.Index latest + 1)) txs (Block.Hash latest)
            (Validator.Address v))
         signature)
      (Some latest) = Ok tt /\
    Blockchain.validateBlock bc
      (withSignature
         (Block.NewBlock now (uint64 (Block.Index latest + 1)) txs (Block.Hash latest)
            (Validator.Address v))
         signature) = Ok tt.
Proof.
  intros Hlatest Hall Hv Hmin Hpriv Hpub Hkeys Hafter Hclock.
  set (b := Block.NewBlock now (uint64 (Block.Index latest + 1)) txs (Block.Hash latest)
              (Validator.Address v)).
  exists (crypto.SignatureToHex
            (ed25519_Sign (Validator.PrivateKey v) (bytes (Block.Hash b)))).
  split; [|split].
  - unfold Block.Sign, crypto.Sign. rewrite decide_True by done. reflexivity.
  - apply ValidateBlock_Ok. exists v.
    split; [exact Hv|]. split; [exact Hmin|]. split.
    + apply Block_Verify_Ok.
      cbn [withSignature Block.Hash Block.Signature Block.Transactions].
      split; [reflexivity|]. split.
      { apply EncodeToString_nonempty.
        destruct (Hkeys (bytes (Block.Hash b))) as [Hlen _].
        intros Hnil. rewrite Hnil in Hlen. discriminate. }
      split; [exact Hpub|]. split; [|exact Hall].
      eexists. split; [apply SignatureFromHex_ToHex, Hkeys | apply Hkeys].
    + split; [cbn; lia|]. intros prev [= <-]. cbn. lia.
  - apply validateBlock_follows. exists latest. split; [exact Hlatest|].
    split; [by repeat split | exact Hall].
Qed.

(** X28.  [UpdateValidatorStake] does not compare the new stake with the
    minimum: a registered validator whose stake is set below it stays in the
    set, and from then on [ValidateBlock] refuses every block that names it,
    with the error of a validator without the minimum stake. *)
Theorem stake_update_below_minimum (pos : PoS.t) (address : string) (stake : Z)
    (now blockTimeSeconds : Z) (block : Block.t) (prevBlock : option Block.t) :
  is_Some (ValidatorSet.Validators (PoS.ValidatorSet pos) !! address) ->
  stake < PoS.MinStake pos ->
  Block.Validator block = address ->
  (PoS.UpdateValidatorStake pos address stake).2 = Ok tt /\
  ValidatorSet.Size (PoS.ValidatorSet (PoS.UpdateValidatorStake pos address stake).1)
    = ValidatorSet.Size (PoS.ValidatorSet pos) /\
  (exists v,
     ValidatorSet.GetValidator
       (PoS.ValidatorSet (PoS.UpdateValidatorStake pos address stake).1) address = Ok v /\
     Validator.Stake v = stake) /\
  PoS.ValidateBlock now blockTimeSeconds (PoS.UpdateValidatorStake pos address stake).1
    block prevBlock
  = Err (Errorf "validator does not have minimum stake").
Proof.
  intros [v Hv] Hbelow <-.
  unfold PoS.UpdateValidatorStake, ValidatorSet.UpdateStake. rewrite Hv.
  cbn [fst snd PoS.ValidatorSet PoS.MinStake ValidatorSet.Validators].
  split; [reflexivity|]. split.
  { unfold ValidatorSet.Size. cbn [ValidatorSet.Validators].
    f_equal. by apply map_size_insert_Some. }
  split.
  { eexists. unfold ValidatorSet.GetValidator. cbn [ValidatorSet.Validators].
    rewrite lookup_insert_eq. split; reflexivity. }
  unfold PoS.ValidateBlock, ValidatorSet.GetValidator.
  cbn [PoS.ValidatorSet PoS.MinStake ValidatorSet.Validators].
  rewrite lookup_insert_eq. unfold Validator.CanValidate. cbn [Validator.Stake].
  by destruct (PoS.MinStake pos <=? stake) eqn:Hle; [lia|].
Qed.

End consensus_validation.

Lemma produced_block_accepted_witness :
  exists signature,
    @PoS.ValidateBlock Toy.primitives 10 5 ExampleProducer.pos
      (withSignature ExampleChain.alice_block signature)
      (Some (@Blockchain.createGenesisBlock Toy.primitives Example.alice 1000000))
    = Ok tt /\
    @Blockchain.validateBlock Toy.primitives Example.bc1
      (withSignature ExampleChain.alice_block signature)
    = Ok tt.
Proof.
  destruct (@produced_block_accepted Toy.primitives Example.bc1 ExampleProducer.pos
              ExampleProducer.validator
              (@Blockchain.createGenesisBlock Toy.primitives Example.alice 1000000)
              (Block.Transactions ExampleChain.alice_block) 10 10 5)
    as (signature & _ & Hconsensus & Hchain).
  - vm_compute. reflexivity.
  - apply (@verifyTransactions_allVerify Toy.primitives). vm_compute. reflexivity.
  - vm_compute. reflexivity.
  - vm_compute. discriminate.
  - vm_compute. reflexivity.
  - vm_compute. reflexivity.
  - intros msg. split; [apply Toy.pad_length|].
    apply bool_decide_eq_true_2. reflexivity.
  - vm_compute. reflexivity.
  - vm_compute. discriminate.
  - exists signature. split; [exact Hconsensus | exact Hchain].
Defined.

Lemma stake_update_below_minimum_witness :
  (@PoS.UpdateValidatorStake ExampleProducer.pos Example.alice 10).2 = Ok tt /\
  @PoS.ValidateBlock Toy.primitives 10 5 ExampleProducer.pos_low
    ExampleChain.alice_block_signed None
  = Err (Errorf "validator does not have minimum stake").
Proof.
  destruct (@stake_update_below_minimum Toy.primitives ExampleProducer.pos Example.alice
              10 10 5 ExampleChain.alice_block_signed None) as (Hok & _ & _ & Hrefused).
  - vm_compute. eexists. reflexivity.
  - vm_compute. reflexivity.
  - vm_compute. reflexivity.
  - split; [exact Hok | exact Hrefused].
Defined.

(** ** Package blockchain: reading the chain *)

Section reading.
Context `{Primitives}.

Lemma find_hash_lookup (blocks : list Block.t) (hash : string) (b : Block.t) :
  List.find (fun block => bool_decide (Block.Hash block = hash)) blocks = Some b ->
  Block.Hash b = hash /\ exists i, blocks !! i = Some b.
Proof.
  induction blocks as [|b' blocks IH]; [discriminate|]. cbn [List.find].
  case_bool_decide as Hh.
  - intros [= <-]. split; [done|]. by exists 0%nat.
  - intros [Hb [i Hi]]%IH. split; [done|]. by exists (S i).
Qed.

(** X29.  On every chain built by [NewBlockchain], [AddTransaction] and
    the statements of [AddBlock] with fewer than [2^64] blocks, [GetBlock]
    returns a block exactly for the indices below the number of blocks, the
    block returned
    carries the index that was asked for, and a block that [GetBlockByHash]
    returns has the hash that was asked for and is the block that [GetBlock]
    returns for its index. *)
Theorem GetBlock_by_index (bc : Blockchain.t) :
  reachable bc ->
  Z.of_nat (length (Blockchain.Blocks bc)) < 2 ^ 64 ->
  (forall index, 0 <= index ->
     (is_Some (Blockchain.GetBlock bc index)
      <-> index < Z.of_nat (length (Blockchain.Blocks bc)))) /\
  (forall index b, 0 <= index ->
     Blockchain.GetBlock bc index = Some b -> Block.Index b = index) /\
  (forall hash b, Blockchain.GetBlockByHash bc hash = Some b ->
     Block.Hash b = hash /\ Blockchain.GetBlock bc (Block.Index b) = Some b).
Proof.
  intros [(_ & Hblocks & _) _]%reachable_invariants Hlen.
  assert (uint64 (Z.of_nat (length (Blockchain.Blocks bc)))
          = Z.of_nat (length (Blockchain.Blocks bc))) as Hsize
    by (unfold uint64; apply Z.mod_small; lia).
  unfold Blockchain.GetBlock. rewrite Hsize. split; [|split].
  - intros index Hindex.
    destruct (Z.of_nat (length (Blockchain.Blocks bc)) <=? index) eqn:Hle.
    + split; [by intros [? ?] | lia].
    + split; [lia|]. intros _. apply lookup_lt_is_Some. lia.
  - intros index b Hindex.
    destruct (Z.of_nat (length (Blockchain.Blocks bc)) <=? index) eqn:Hle;
      [discriminate|].
    intros Hb. destruct (Hblocks _ _ Hb) as (-> & _).
    rewrite Z2Nat.id by done. unfold uint64. apply Z.mod_small. lia.
  - intros hash b [Hhash [i Hi]]%find_hash_lookup. split; [done|].
    destruct (Hblocks _ _ Hi) as (-> & _).
    apply lookup_lt_Some in Hi as Hlt.
    assert (uint64 (Z.of_nat i) = Z.of_nat i) as ->
      by (unfold uint64; apply Z.mod_small; lia).
    destruct (Z.of_nat (length (Blockchain.Blocks bc)) <=? Z.of_nat i) eqn:Hle; [lia|].
    by rewrite Nat2Z.id.
Qed.

End reading.

Lemma GetBlock_by_index_witness :
  (forall index, 0 <= index ->
     (is_Some (Blockchain.GetBlock Example.bc1 index)
      <-> index < Z.of_nat (length (Blockchain.Blocks Example.bc1)))) /\
  (forall index b, 0 <= index ->
     Blockchain.GetBlock Example.bc1 index = Some b -> Block.Index b = index) /\
  (forall hash b, Blockchain.GetBlockByHash Example.bc1 hash = Some b ->
     Block.Hash b = hash /\
     Blockchain.GetBlock Example.bc1 (Block.Index b) = Some b).
Proof.
  apply (@GetBlock_by_index Toy.primitives Example.bc1).
  - apply reachable_AddTransaction, reachable_NewBlockchain.
  - vm_compute. reflexivity.
Defined.

(** ** Package network: the queue of a peer *)

(** X30.  Nothing receives from the channel of a peer, so a connected peer
    keeps the messages it is sent, in their order, up to the capacity of
    100, and drops every later one; a peer that is not connected drops them
    all. *)
Theorem SendMessage_buffers (p : Peer.t) (msgs : list Peer.Message) :
  (length (Peer.messageChan p) <= Peer.capacity)%nat ->
  foldl Peer.SendMessage p msgs =
    if Peer.Connected p
    then Peer.mk (Peer.ID p) (Peer.Address p) true
           (take Peer.capacity (Peer.messageChan p ++ msgs))
    else p.
Proof.
  revert p. induction msgs as [|msg msgs IH]; intros [id address connected chan] Hlen;
    cbn [Peer.messageChan Peer.Connected Peer.ID Peer.Address] in *.
  - cbn [foldl]. destruct connected; [|done].
    by rewrite app_nil_r, take_ge by done.
  - cbn [foldl]. unfold Peer.SendMessage at 2.
    cbn [Peer.messageChan Peer.Connected Peer.ID Peer.Address].
    destruct connected; cbn [negb].
    + destruct (decide (length chan < Peer.capacity)%nat) as [Hroom|Hfull].
      * rewrite IH by (cbn; rewrite length_app; cbn; lia).
        cbn [Peer.messageChan Peer.Connected Peer.ID Peer.Address].
        by rewrite <- app_assoc.
      * rewrite IH by done.
        cbn [Peer.messageChan Peer.Connected Peer.ID Peer.Address].
        by rewrite !take_app_le by lia.
    + by rewrite IH.
Qed.

Lemma SendMessage_buffers_witness :
  foldl Peer.SendMessage ExamplePeer.peer ExamplePeer.messages
  = Peer.mk "peer1" "127.0.0.1:3000" true (replicate 100 ExamplePeer.ping).
Proof.
  rewrite (SendMessage_buffers ExamplePeer.peer ExamplePeer.messages)
    by (vm_compute; lia).
  vm_compute. reflexivity.
Defined.
